(** * A shallow embedding of the [tail] package (tail.go, watch/filechanges.go)

    The engine follows a file and delivers its lines on a channel.  The Go
    code is imperative: it mutates the [Tail] object, talks to the operating
    system and blocks on channels.  The embedding threads an explicit state
    (the [Tail] object and the [World] outside it) through a small
    state-and-failure monad; what the environment does while the engine is
    parked (file changes, notifications, a [Stop] from the caller) is a
    script carried by the [World].

    Layout: errors; the operating system, [bufio] and [tomb] as the code uses
    them; the data model of tail.go; its functions in source order;
    watch/filechanges.go; then the theorems. *)

From Stdlib Require Import String Ascii List ZArith Lia Bool Arith.
Import ListNotations.

Set Implicit Arguments.

(** ** Errors *)

(** Operating-system error causes wrapped by [os.PathError]. *)
Inductive Errno : Type :=
| ENOENT | EACCES | ESPIPE | EINVAL | EIO | EClosed.

Definition Errno_Error (e : Errno) : string :=
  match e with
  | ENOENT => "no such file or directory"
  | EACCES => "permission denied"
  | ESPIPE => "illegal seek"
  | EINVAL => "invalid argument"
  | EIO => "input/output error"
  | EClosed => "file already closed"
  end%string.

(** Go [error] values the package can see.  The first five are the package's
    own variables (tail.go lines 20-26); the others come from [io], [os],
    [tomb], [fmt.Errorf] (through [Killf]) and the [watch] backends. *)
Inductive error : Type :=
| ErrStop
| ErrInvalidConfig
| ErrSeek
| ErrFileCreationDetectionFailure
| ErrFileOpen
| io_EOF
| io_ErrNoProgress
| os_ErrInvalid
| tomb_ErrStillAlive
| tomb_ErrDying
| PathError (op path : string) (e : Errno)
| Errorf (msg : string)
| watch_error (msg : string).

Definition error_Error (e : error) : string :=
  match e with
  | ErrStop => "The tail should now stop"
  | ErrInvalidConfig => "Invalid Config options"
  | ErrSeek => "Seek error"
  | ErrFileCreationDetectionFailure => "Failed to detect creation of file"
  | ErrFileOpen => "Unable to open file"
  | io_EOF => "EOF"
  | io_ErrNoProgress => "multiple Read calls return no data or error"
  | os_ErrInvalid => "invalid argument"
  | tomb_ErrStillAlive => "tomb: still alive"
  | tomb_ErrDying => "tomb: dying"
  | PathError op path e => op ++ " " ++ path ++ ": " ++ Errno_Error e
  | Errorf msg => msg
  | watch_error msg => msg
  end%string.

(** [os.IsNotExist]. *)
Definition os_IsNotExist (e : error) : bool :=
  match e with
  | PathError _ _ ENOENT => true
  | _ => false
  end.

(** ** 64-bit integers *)

Definition max_int64 : Z := 2 ^ 63 - 1.

(** Two's-complement wrap-around of an [int64] result. *)
Definition wrap64 (z : Z) : Z := (z + 2 ^ 63) mod 2 ^ 64 - 2 ^ 63.

Arguments max_int64 : simpl never.
Arguments wrap64 z : simpl never.

(** ** The operating system *)

Definition nl : ascii := "010"%char.

(** An open file description: what an [os.File] points to. *)
Record OpenFile : Type := mkOpenFile {
  of_name : string;
  of_ino : nat;
  of_pos : Z;
  of_closed : bool
}.

Record Inode : Type := mkInode {
  i_data : list ascii;
  i_seekable : bool;          (* false for a named pipe *)
  i_fault : option Errno      (* a device error every read reports *)
}.

Inductive DirEntry : Type :=
| Absent
| Present (ino : nat)
| Denied (e : Errno).

Record FS : Type := mkFS {
  fs_dir : string -> DirEntry;
  fs_inode : nat -> Inode
}.

(** The three change signals of [watch.FileChanges]. *)
Inductive Signal : Type := SigModified | SigTruncated | SigDeleted.

(** What the environment does at the engine's successive blocking points.
    A notification or an appearance comes with the file system as it is at
    that moment. *)
Inductive EnvEvent : Type :=
| EnvNotify (sig : Signal) (fs : FS)
| EnvAppear (fs : FS)
| EnvWatchErr (e : error)
| EnvStop.

Record World : Type := mkWorld {
  w_fs : FS;
  w_fds : nat -> OpenFile;
  w_nfd : nat;                       (* next fresh [os.File] *)
  w_clock : nat;
  w_stdout : list string;
  w_watch_fault : option error;      (* makes [ChangeEvents] fail *)
  w_env : list EnvEvent
}.

Definition set_fs (fs : FS) (w : World) : World :=
  mkWorld fs (w_fds w) (w_nfd w) (w_clock w) (w_stdout w) (w_watch_fault w) (w_env w).

Definition set_env (env : list EnvEvent) (w : World) : World :=
  mkWorld (w_fs w) (w_fds w) (w_nfd w) (w_clock w) (w_stdout w) (w_watch_fault w) env.

Definition set_fd (fd : nat) (f : OpenFile) (w : World) : World :=
  mkWorld (w_fs w) (fun k => if Nat.eqb k fd then f else w_fds w k)
          (w_nfd w) (w_clock w) (w_stdout w) (w_watch_fault w) (w_env w).

Definition inode_of (w : World) (fd : nat) : Inode :=
  fs_inode (w_fs w) (of_ino (w_fds w fd)).

(** The bytes of the file behind [fd] from its cursor on. *)
Definition unread (w : World) (fd : nat) : list ascii :=
  skipn (Z.to_nat (of_pos (w_fds w fd))) (i_data (inode_of w fd)).

(** [os.Open]: a fresh description with its cursor at 0. *)
Definition os_Open (name : string) (w : World) : (option nat * option error) * World :=
  match fs_dir (w_fs w) name with
  | Absent => ((None, Some (PathError "open" name ENOENT)), w)
  | Denied e => ((None, Some (PathError "open" name e)), w)
  | Present ino =>
      let fd := w_nfd w in
      let w' := set_fd fd (mkOpenFile name ino 0 false) w in
      ((Some fd, None),
       mkWorld (w_fs w') (w_fds w') (S fd) (w_clock w') (w_stdout w')
               (w_watch_fault w') (w_env w'))
  end.

Definition SEEK_SET : Z := 0.
Definition SEEK_CUR : Z := 1.
Definition SEEK_END : Z := 2.

(** [os.File.Seek]; a nil receiver gives [os.ErrInvalid], a failure
    returns offset 0. *)
Definition File_Seek (f : option nat) (offset whence : Z) (w : World)
  : (Z * option error) * World :=
  match f with
  | None => ((0%Z, Some os_ErrInvalid), w)
  | Some fd =>
      let o := w_fds w fd in
      if of_closed o then ((0%Z, Some (PathError "seek" (of_name o) EClosed)), w)
      else if negb (i_seekable (inode_of w fd))
      then ((0%Z, Some (PathError "seek" (of_name o) ESPIPE)), w)
      else
        let base :=
          if Z.eqb whence SEEK_SET then Some 0%Z
          else if Z.eqb whence SEEK_CUR then Some (of_pos o)
          else if Z.eqb whence SEEK_END then Some (Z.of_nat (length (i_data (inode_of w fd))))
          else None in
        match base with
        | None => ((0%Z, Some (PathError "seek" (of_name o) EINVAL)), w)
        | Some b =>
            let p := (b + offset)%Z in
            if (Z.ltb p 0 || Z.ltb max_int64 p)%bool
            then ((0%Z, Some (PathError "seek" (of_name o) EINVAL)), w)
            else ((p, None),
                  set_fd fd (mkOpenFile (of_name o) (of_ino o) p (of_closed o)) w)
        end
  end.

(** [os.File.Read] into a slice of [n] bytes. *)
Definition File_Read (f : option nat) (n : nat) (w : World)
  : (list ascii * option error) * World :=
  match f with
  | None => (([], Some os_ErrInvalid), w)
  | Some fd =>
      let o := w_fds w fd in
      if of_closed o then (([], Some (PathError "read" (of_name o) EClosed)), w)
      else match i_fault (inode_of w fd) with
      | Some e => (([], Some (PathError "read" (of_name o) e)), w)
      | None =>
          match n with
          | O => (([], None), w)
          | S _ =>
              match unread w fd with
              | [] => (([], Some io_EOF), w)
              | _ :: _ =>
                  let chunk := firstn n (unread w fd) in
                  ((chunk, None),
                   set_fd fd (mkOpenFile (of_name o) (of_ino o)
                                (of_pos o + Z.of_nat (length chunk))%Z
                                (of_closed o)) w)
              end
          end
      end
  end.

(** [os.File.Close]; the code ignores its result. *)
Definition File_Close (fd : nat) (w : World) : World :=
  let o := w_fds w fd in
  set_fd fd (mkOpenFile (of_name o) (of_ino o) (of_pos o) true) w.

(** [time.Now]: reads the clock, which then moves on. *)
Definition time_Now (w : World) : nat * World :=
  (w_clock w,
   mkWorld (w_fs w) (w_fds w) (w_nfd w) (S (w_clock w)) (w_stdout w)
           (w_watch_fault w) (w_env w)).

(** [fmt.Println] of one string. *)
Definition fmt_Println (s : string) (w : World) : World :=
  mkWorld (w_fs w) (w_fds w) (w_nfd w) (w_clock w) (w_stdout w ++ [s])
          (w_watch_fault w) (w_env w).

(** ** bufio.Reader *)

Definition defaultBufSize : nat := 4096.

(** The unread part [buf[r:w]] of the buffer, the source and the pending
    read error. *)
Record Reader : Type := mkReader {
  rd_src : option nat;
  rd_buf : list ascii;
  rd_err : option error
}.

(** [bufio.NewReader] and [Reader.Reset] leave the same state. *)
Definition bufio_NewReader (f : option nat) : Reader := mkReader f [] None.

Definition Buffered (r : Reader) : nat := length (rd_buf r).

(** [bytes.IndexByte], with [None] for -1. *)
Fixpoint IndexByte (s : list ascii) (c : ascii) : option nat :=
  match s with
  | [] => None
  | x :: s' =>
      if Ascii.eqb x c then Some O
      else match IndexByte s' c with
           | Some i => Some (S i)
           | None => None
           end
  end.

(** [Reader.fill]: one read into the free part of the buffer. *)
Definition fill (r : Reader) (w : World) : Reader * World :=
  let '((chunk, err), w') := File_Read (rd_src r) (defaultBufSize - Buffered r) w in
  (mkReader (rd_src r) (rd_buf r ++ chunk) err, w').

(** [Reader.ReadString]: [ReadSlice] repeated by [collectFragments];
    [acc] is the full buffers collected so far.  Each turn ends the call,
    empties a full buffer or fills the buffer. *)
Fixpoint ReadString_loop (fuel : nat) (delim : ascii) (acc : list ascii)
         (r : Reader) (w : World) : (list ascii * option error) * Reader * World :=
  match fuel with
  | O => ((acc ++ rd_buf r, Some io_ErrNoProgress), mkReader (rd_src r) [] None, w)
  | S fuel' =>
      match IndexByte (rd_buf r) delim with
      | Some i =>
          ((acc ++ firstn (S i) (rd_buf r), None),
           mkReader (rd_src r) (skipn (S i) (rd_buf r)) (rd_err r), w)
      | None =>
          match rd_err r with
          | Some e => ((acc ++ rd_buf r, Some e), mkReader (rd_src r) [] None, w)
          | None =>
              if Nat.leb defaultBufSize (Buffered r)
              then ReadString_loop fuel' delim (acc ++ rd_buf r)
                                   (mkReader (rd_src r) [] None) w
              else let '(r', w') := fill r w in
                   ReadString_loop fuel' delim acc r' w'
          end
      end
  end.

(** Turns that always suffice: two per unread byte of the source and a few
    more. *)
Definition ReadString_turns (r : Reader) (w : World) : nat :=
  match rd_src r with
  | Some fd => 2 * length (unread w fd) + 4
  | None => 4
  end.

Definition ReadString (delim : ascii) (r : Reader) (w : World)
  : (list ascii * option error) * Reader * World :=
  ReadString_loop (ReadString_turns r w) delim [] r w.

(** [strings.TrimRight(s, "\n")]. *)
Fixpoint TrimRight_nl (s : list ascii) : list ascii :=
  match s with
  | [] => []
  | c :: s' =>
      match TrimRight_nl s' with
      | [] => if Ascii.eqb c nl then [] else [c]
      | t => c :: t
      end
  end.

(** ** Channels and watch/filechanges.go *)

(** A Go channel: capacity, buffered values, closed flag.  Goroutines parked
    on it are not part of the record; an operation is told whether a
    receiver is parked. *)
Record chan (A : Type) : Type := mkChan {
  ch_cap : nat;
  ch_buf : list A;
  ch_closed : bool
}.

Definition make_chan (A : Type) (cap : nat) : chan A := mkChan cap [] false.

(** What became of a value offered to a channel. *)
Inductive SendOutcome : Type :=
| Delivered      (* handed to a parked receiver *)
| Queued         (* stored in the channel's buffer *)
| Dropped        (* the [default] case ran *)
| WouldBlock     (* the sender parks *)
| SendPanic.     (* send on a closed channel *)

(** The plain statement [ch <- v]. *)
Definition chan_send {A : Type} (parked : bool) (v : A) (ch : chan A)
  : SendOutcome * chan A :=
  if ch_closed ch then (SendPanic, ch)
  else if parked then (Delivered, ch)
  else if Nat.ltb (length (ch_buf ch)) (ch_cap ch)
       then (Queued, mkChan (ch_cap ch) (ch_buf ch ++ [v]) (ch_closed ch))
       else (WouldBlock, ch).

Module watch.

(** filechanges.go lines 16-20. *)
Record FileChanges : Type := mkFileChanges {
  Modified : chan bool;
  Truncated : chan bool;
  Deleted : chan bool
}.

(** filechanges.go lines 23-29: three unbuffered channels. *)
Definition NewFileChanges : FileChanges :=
  mkFileChanges (make_chan bool 0) (make_chan bool 0) (make_chan bool 0).

(** filechanges.go lines 54-59: a [select] with the send as its only case
    and a [default]. *)
Definition sendOnlyIfEmpty (parked : bool) (ch : chan bool)
  : SendOutcome * chan bool :=
  match chan_send parked true ch with
  | (WouldBlock, ch') => (Dropped, ch')
  | r => r
  end.

(** filechanges.go lines 31-41. *)
Definition NotifyModified (parked : bool) (fc : FileChanges)
  : SendOutcome * FileChanges :=
  let (o, ch) := sendOnlyIfEmpty parked (Modified fc) in
  (o, mkFileChanges ch (Truncated fc) (Deleted fc)).

Definition NotifyTruncated (parked : bool) (fc : FileChanges)
  : SendOutcome * FileChanges :=
  let (o, ch) := sendOnlyIfEmpty parked (Truncated fc) in
  (o, mkFileChanges (Modified fc) ch (Deleted fc)).

Definition NotifyDeleted (parked : bool) (fc : FileChanges)
  : SendOutcome * FileChanges :=
  let (o, ch) := sendOnlyIfEmpty parked (Deleted fc) in
  (o, mkFileChanges (Modified fc) (Truncated fc) ch).

(** filechanges.go lines 43-47. *)
Definition close_chan {A : Type} (ch : chan A) : chan A :=
  mkChan (ch_cap ch) (ch_buf ch) true.

Definition Close (fc : FileChanges) : FileChanges :=
  mkFileChanges (close_chan (Modified fc)) (close_chan (Truncated fc))
                (close_chan (Deleted fc)).

(** Modelled from the spec: the two variants of the watcher [File]
    chooses between, event-driven and polling; only their constructors are
    needed here. *)
Inductive FileWatcher : Type :=
| PollingFileWatcher (filename : string)
| InotifyFileWatcher (filename : string).

Definition NewPollingFileWatcher := PollingFileWatcher.
Definition NewInotifyFileWatcher := InotifyFileWatcher.

End watch.

(** ** tomb.Tomb *)

Record Tomb : Type := mkTomb {
  reason : option error;      (* [None] is Go's nil *)
  dying : bool;               (* the dying channel is closed *)
  dead : bool                 (* the dead channel is closed *)
}.

(** A tomb after its lazy [init]. *)
Definition Tomb_zero : Tomb := mkTomb (Some tomb_ErrStillAlive) false false.

(** [Tomb.Kill]; [None] stands for the panic on [Kill(ErrDying)] while
    still alive. *)
Definition Tomb_Kill (r : option error) (tb : Tomb) : option Tomb :=
  match r with
  | Some tomb_ErrDying =>
      match reason tb with
      | Some tomb_ErrStillAlive => None
      | _ => Some tb
      end
  | _ =>
      Some (mkTomb (match reason tb with
                    | None | Some tomb_ErrStillAlive => r
                    | Some e => Some e
                    end) true (dead tb))
  end.

(** ** Data model of tail.go *)

(** tail.go lines 29-33. *)
Record Line : Type := mkLine {
  Text : list ascii;
  Time : nat;
  Err : option error
}.

(** tail.go lines 36-38. *)
Definition NewLine (text : list ascii) (w : World) : Line * World :=
  let (now, w') := time_Now w in (mkLine text now None, w').

(** tail.go lines 41-44. *)
Record SeekInfo : Type := mkSeekInfo {
  Offset : Z;
  Whence : Z
}.

(** tail.go lines 47-57. *)
Record Config : Type := mkConfig {
  Location : option SeekInfo;
  ReOpen : bool;
  MustExist : bool;
  Poll : bool;
  Pipe : bool;
  Follow : bool
}.

(** The [Lines] channel as its consumer sees it: the lines received so far
    and whether it was closed.  The consumer takes every line offered. *)
Record LinesChan : Type := mkLines {
  sent : list Line;
  closed : bool
}.

(** tail.go lines 60-70; the mutex guards the reader and has no state of its
    own here. *)
Record Tail : Type := mkTail {
  Filename : string;
  Lines : LinesChan;
  cfg : Config;
  file : option nat;
  reader : option Reader;
  watcher : watch.FileWatcher;
  changes : option watch.FileChanges;
  tomb : Tomb
}.

Definition set_Lines (l : LinesChan) (t : Tail) : Tail :=
  mkTail (Filename t) l (cfg t) (file t) (reader t) (watcher t) (changes t) (tomb t).
Definition set_cfg (c : Config) (t : Tail) : Tail :=
  mkTail (Filename t) (Lines t) c (file t) (reader t) (watcher t) (changes t) (tomb t).
Definition set_file (f : option nat) (t : Tail) : Tail :=
  mkTail (Filename t) (Lines t) (cfg t) f (reader t) (watcher t) (changes t) (tomb t).
Definition set_reader (r : option Reader) (t : Tail) : Tail :=
  mkTail (Filename t) (Lines t) (cfg t) (file t) r (watcher t) (changes t) (tomb t).
Definition set_changes (c : option watch.FileChanges) (t : Tail) : Tail :=
  mkTail (Filename t) (Lines t) (cfg t) (file t) (reader t) (watcher t) c (tomb t).
Definition set_tomb (tb : Tomb) (t : Tail) : Tail :=
  mkTail (Filename t) (Lines t) (cfg t) (file t) (reader t) (watcher t) (changes t) tb.

(** ** The monad of the tailing goroutine *)

Record State : Type := mkState {
  tail : Tail;
  world : World
}.

Inductive Failure : Type :=
| Blocked                  (* parked on a wait the environment never answers *)
| Panicked (msg : string)
| OutOfFuel.               (* the model's loop bound was reached *)

Inductive Res (A : Type) : Type :=
| Ok (a : A) (s : State)
| Fail (f : Failure) (s : State).
Arguments Fail {A} f s.

Definition M (A : Type) : Type := State -> Res A.

Definition ret {A : Type} (a : A) : M A := fun s => Ok a s.

Definition bind {A B : Type} (m : M A) (k : A -> M B) : M B :=
  fun s => match m s with
           | Ok a s' => k a s'
           | Fail f s' => Fail f s'
           end.

Declare Scope tail_scope.
Delimit Scope tail_scope with tail.
Notation "x <- m ;; k" := (bind m (fun x => k))
  (at level 61, m at next level, right associativity) : tail_scope.
Notation "' pat <- m ;; k" := (bind m (fun x => match x with pat => k end))
  (at level 61, pat pattern, m at next level, right associativity) : tail_scope.
Notation "m ;; k" := (bind m (fun _ => k))
  (at level 61, right associativity) : tail_scope.
Open Scope tail_scope.

Definition getTail : M Tail := fun s => Ok (tail s) s.

Definition modTail (f : Tail -> Tail) : M unit :=
  fun s => Ok tt (mkState (f (tail s)) (world s)).

Definition sys {A : Type} (op : World -> A * World) : M A :=
  fun s => let (a, w) := op (world s) in Ok a (mkState (tail s) w).

Definition sys_ (op : World -> World) : M unit :=
  fun s => Ok tt (mkState (tail s) (op (world s))).

Definition panic {A : Type} (msg : string) : M A := fun s => Fail (Panicked msg) s.

(** The state a run ends or stops in. *)
Definition final {A : Type} (r : Res A) : State :=
  match r with
  | Ok _ s => s
  | Fail _ s => s
  end.

(** *** tomb operations on the embedded [Tomb] *)

Definition Kill (r : option error) : M unit :=
  fun s => match Tomb_Kill r (tomb (tail s)) with
           | Some tb => Ok tt (mkState (set_tomb tb (tail s)) (world s))
           | None => Fail (Panicked "tomb: Kill with ErrDying while still alive") s
           end.

(** [Tomb.Killf]: [Kill] with the error [fmt.Errorf] builds. *)
Definition Killf (msg : string) : M unit := Kill (Some (Errorf msg)).

(** [Tomb.Done]: [Kill(nil)], then the dead channel is closed. *)
Definition Done : M unit :=
  Kill None ;;
  t <- getTail ;;
  if dead (tomb t) then panic "close of closed channel"
  else modTail (set_tomb (mkTomb (reason (tomb t)) (dying (tomb t)) true)).

(** *** The watcher backend, as the engine meets it *)

Definition take_env (env : list EnvEvent) (s : State) : State :=
  mkState (tail s) (set_env env (world s)).

(** The caller's [Stop] reaching the tomb: [Kill(nil)]. *)
Definition stopped (s : State) : State :=
  match Tomb_Kill None (tomb (tail s)) with
  | Some tb => mkState (set_tomb tb (tail s)) (world s)
  | None => s
  end.

(** Modelled from the spec: [FileWatcher.BlockUntilExists], whose two
    backends (the event-driven and the polling watcher) are not among the
    sources.  It blocks until the path exists and answers ok (nil),
    cancelled (the tomb's [ErrDying], when the tomb is dying) or the
    backend's own error; which one is the environment's next step. *)
Definition BlockUntilExists : M (option error) :=
  fun s =>
    if dying (tomb (tail s)) then Ok (Some tomb_ErrDying) s
    else match w_env (world s) with
         | EnvAppear fs :: env =>
             Ok None (mkState (tail s) (set_fs fs (set_env env (world s))))
         | EnvWatchErr e :: env => Ok (Some e) (take_env env s)
         | EnvStop :: env => Ok (Some tomb_ErrDying) (stopped (take_env env s))
         | EnvNotify _ _ :: _ => Fail Blocked s
         | [] => Fail Blocked s
         end.

(** Modelled from the spec: [FileWatcher.ChangeEvents], of the same
    backends.  Given the starting offset it produces the notifier, the
    three channels of [NewFileChanges], unless the backend fails. *)
Definition ChangeEvents (pos : Z) : M (option watch.FileChanges * option error) :=
  fun s => match w_watch_fault (world s) with
           | Some e => Ok (None, Some e) s
           | None => Ok (Some watch.NewFileChanges, None) s
           end.

(** The [select] of [waitForChanges] (tail.go lines 285-315): which case
    fires.  A dying tomb makes its case ready at once; otherwise the
    goroutine parks until the environment hands over a signal or stops the
    tail. *)
Inductive SelectCase : Type :=
| caseModified | caseDeleted | caseTruncated | caseDying.

Definition case_of (sig : Signal) : SelectCase :=
  match sig with
  | SigModified => caseModified
  | SigTruncated => caseTruncated
  | SigDeleted => caseDeleted
  end.

Definition select_changes : M SelectCase :=
  fun s =>
    if dying (tomb (tail s)) then Ok caseDying s
    else match w_env (world s) with
         | EnvNotify sig fs :: env =>
             Ok (case_of sig) (mkState (tail s) (set_fs fs (set_env env (world s))))
         | EnvStop :: env => Ok caseDying (stopped (take_env env s))
         | EnvAppear _ :: _ => Fail Blocked s
         | EnvWatchErr _ :: _ => Fail Blocked s
         | [] => Fail Blocked s
         end.

(** ** The functions of tail.go *)

(** What [File] hands back: the [*Tail] or nil, the error or nil, whether the
    [go] statement ran, and the world it leaves. *)
Record FileResult : Type := mkFileResult {
  fr_tail : option Tail;
  fr_err : option error;
  fr_go : bool;
  fr_world : World
}.

(** tail.go lines 74-105. *)
Definition File (filename : string) (config : Config) (w : World) : FileResult :=
  if (ReOpen config && negb (Follow config))%bool
  then mkFileResult None (Some ErrInvalidConfig) false w
  else
    let t := mkTail filename (mkLines [] false) config None None
                    (if Poll config
                     then watch.NewPollingFileWatcher filename
                     else watch.NewInotifyFileWatcher filename)
                    None Tomb_zero in
    if MustExist config
    then
      let w1 := fmt_Println filename w in
      match os_Open filename w1 with
      | ((_, Some err), w2) => mkFileResult None (Some err) false w2
      | ((f, None), w2) => mkFileResult (Some (set_file f t)) None true w2
      end
    else mkFileResult (Some t) None true w.

(** tail.go lines 109-121. *)
Definition Tell : M (Z * option error) :=
  t <- getTail ;;
  match file t with
  | None => ret (0%Z, None)
  | Some fd =>
      '(offset, err) <- sys (File_Seek (Some fd) 0 SEEK_CUR) ;;
      match err with
      | None =>
          match reader t with
          | Some r => ret (wrap64 (offset - Z.of_nat (Buffered r)), None)
          | None => panic "nil pointer dereference"
          end
      | Some e => ret (offset, Some e)
      end
  end.

(** tail.go lines 134-139. *)
Definition closeFile : M unit :=
  t <- getTail ;;
  match file t with
  | Some fd => sys_ (File_Close fd) ;; modTail (set_file None)
  | None => ret tt
  end.

(** tail.go lines 129-132. *)
Definition close : M unit :=
  t <- getTail ;;
  (if closed (Lines t) then panic "close of closed channel"
   else modTail (set_Lines (mkLines (sent (Lines t)) true))) ;;
  closeFile.

(** The [for] of [reopen], tail.go lines 146-161.  Every [continue] follows
    a [BlockUntilExists] that consumed one step of the environment, so [n]
    bounds the turns. *)
Fixpoint reopen_loop (n : nat) : M (option error) :=
  match n with
  | O => fun s => Fail Blocked s
  | S n' =>
      t <- getTail ;;
      '(f, err) <- sys (os_Open (Filename t)) ;;
      modTail (set_file f) ;;
      match err with
      | Some e =>
          if os_IsNotExist e
          then
            r <- BlockUntilExists ;;
            match r with
            | Some tomb_ErrDying => ret (Some tomb_ErrDying)
            | Some _ => ret (Some ErrFileCreationDetectionFailure)
            | None => reopen_loop n'
            end
          else ret (Some ErrFileOpen)
      | None => ret None
      end
  end.

(** tail.go lines 141-164. *)
Definition reopen : M (option error) :=
  closeFile ;;
  fun s => reopen_loop (S (length (w_env (world s)))) s.

(** tail.go lines 166-178. *)
Definition readLine : M (list ascii * option error) :=
  t <- getTail ;;
  match reader t with
  | None => panic "nil pointer dereference"
  | Some r =>
      '(line, err, r') <- sys (fun w => let '(res, r', w') := ReadString nl r w in
                                        ((res, r'), w')) ;;
      modTail (set_reader (Some r')) ;;
      match err with
      | Some e => ret (line, Some e)
      | None => ret (TrimRight_nl line, None)
      end
  end.

(** tail.go lines 318-320. *)
Definition openReader : M unit :=
  t <- getTail ;;
  modTail (set_reader (Some (bufio_NewReader (file t)))).

(** tail.go lines 326-335. *)
Definition seekTo (pos : SeekInfo) : M (option error) :=
  t <- getTail ;;
  '(_, err) <- sys (File_Seek (file t) (Offset pos) (Whence pos)) ;;
  match err with
  | Some _ => ret (Some ErrSeek)
  | None =>
      match reader t with
      | None => panic "nil pointer dereference"
      | Some _ => modTail (set_reader (Some (bufio_NewReader (file t)))) ;; ret None
      end
  end.

(** tail.go lines 322-324. *)
Definition seekEnd : M (option error) := seekTo (mkSeekInfo 0 SEEK_END).

(** tail.go lines 338-340. *)
Definition sendLine (line : list ascii) : M unit :=
  now <- sys time_Now ;;
  t <- getTail ;;
  if closed (Lines t) then panic "send on closed channel"
  else modTail (set_Lines (mkLines (sent (Lines t) ++ [mkLine line now None])
                                   (closed (Lines t)))).

(** tail.go lines 269-316. *)
Definition waitForChanges : M (option error) :=
  t <- getTail ;;
  r <- match changes t with
       | Some _ => ret None
       | None =>
           '(pos, err) <- sys (File_Seek (file t) 0 SEEK_CUR) ;;
           match err with
           | Some e => ret (Some e)
           | None =>
               '(fc, err) <- ChangeEvents pos ;;
               modTail (set_changes fc) ;;
               ret err
           end
       end ;;
  match r with
  | Some e => ret (Some e)
  | None =>
      c <- select_changes ;;
      match c with
      | caseModified => ret None
      | caseDeleted =>
          modTail (set_changes None) ;;
          if ReOpen (cfg t)
          then
            e <- reopen ;;
            match e with
            | Some err => ret (Some err)
            | None => openReader ;; ret None
            end
          else ret (Some ErrStop)
      | caseTruncated =>
          e <- reopen ;;
          match e with
          | Some err => ret (Some err)
          | None => openReader ;; ret None
          end
      | caseDying => ret (Some ErrStop)
      end
  end.

(** tail.go lines 259-263: leave the loop when the tomb is dying, else go
    round again. *)
Definition tailFileSync_select (again : M unit) : M unit :=
  t <- getTail ;;
  if dying (tomb t) then ret tt else again.

(** tail.go lines 246-251. *)
Definition tailFileSync_wait (again : M unit) : M unit :=
  e <- waitForChanges ;;
  match e with
  | Some ErrStop => ret tt
  | Some err => Kill (Some err)
  | None => again
  end.

Definition nonempty (s : list ascii) : bool :=
  match s with [] => false | _ :: _ => true end.

(** The [for] of [tailFileSync], tail.go lines 209-264; [offset] is the
    variable declared at line 205. *)
Fixpoint tailFileSync_loop (fuel : nat) (offset : Z) : M unit :=
  match fuel with
  | O => fun s => Fail OutOfFuel s
  | S fuel' =>
      t <- getTail ;;
      '(offset, err) <- (if negb (Pipe (cfg t)) then Tell else ret (offset, None)) ;;
      match err with
      | Some e => Kill (Some e)
      | None =>
          '(line, err) <- readLine ;;
          match err with
          | None =>
              sendLine line ;;
              tailFileSync_select (tailFileSync_loop fuel' offset)
          | Some io_EOF =>
              if negb (Follow (cfg t))
              then (if nonempty line then sendLine line else ret tt)
              else
                r <- (if (Follow (cfg t) && nonempty line)%bool
                      then sys_ (fmt_Println (string_of_list_ascii line)) ;;
                           seekTo (mkSeekInfo offset 0)
                      else ret None) ;;
                match r with
                | Some e => Kill (Some e)
                | None =>
                    tailFileSync_wait
                      (tailFileSync_select (tailFileSync_loop fuel' offset))
                end
          | Some e =>
              Killf ("Error reading " ++ Filename t ++ ": " ++ error_Error e)
          end
      end
  end.

(** tail.go lines 184-203: the deferred first open, the seek to the
    requested location and the first reader; [true] when the loop is to
    start. *)
Definition tailFileSync_open : M bool :=
  t <- getTail ;;
  r <- (if negb (MustExist (cfg t)) then reopen else ret None) ;;
  match r with
  | Some tomb_ErrDying => ret false
  | Some err => Kill (Some err) ;; ret false
  | None =>
      r <- match Location (cfg t) with
           | Some loc =>
               t' <- getTail ;;
               '(_, err) <- sys (File_Seek (file t') (Offset loc) (Whence loc)) ;;
               ret err
           | None => ret None
           end ;;
      match r with
      | Some err =>
          Killf ("Seek error on " ++ Filename t ++ ": " ++ error_Error err) ;;
          ret false
      | None => openReader ;; ret true
      end
  end.

(** tail.go lines 180-265; the two deferred calls run when the body
    returns, [close] before [Done]. *)
Definition tailFileSync (fuel : nat) : M unit :=
  (go <- tailFileSync_open ;;
   if go then tailFileSync_loop fuel 0 else ret tt) ;;
  close ;;
  Done.

(** [Tomb.Wait]: blocks until the tomb is dead, then gives its reason. *)
Definition Wait : M (option error) :=
  fun s => if dead (tomb (tail s)) then Ok (reason (tomb (tail s))) s
           else Fail Blocked s.

(** tail.go lines 124-127. *)
Definition Stop : M (option error) := Kill None ;; Wait.

(** ** Notions the theorems are stated with *)

(** A run of notifications: each entry names the signal and tells whether
    the consumer is parked in its [select] at that moment. *)
Definition Notify (sig : Signal) (parked : bool) (fc : watch.FileChanges)
  : SendOutcome * watch.FileChanges :=
  match sig with
  | SigModified => watch.NotifyModified parked fc
  | SigTruncated => watch.NotifyTruncated parked fc
  | SigDeleted => watch.NotifyDeleted parked fc
  end.

Fixpoint notify_all (ops : list (Signal * bool)) (fc : watch.FileChanges)
  : list SendOutcome * watch.FileChanges :=
  match ops with
  | [] => ([], fc)
  | (sig, parked) :: ops' =>
      let (o, fc1) := Notify sig parked fc in
      let (os, fc2) := notify_all ops' fc1 in
      (o :: os, fc2)
  end.

(** Occurrences of a signal sent and not yet received. *)
Definition pending (sig : Signal) (fc : watch.FileChanges) : nat :=
  length (ch_buf (match sig with
                  | SigModified => watch.Modified fc
                  | SigTruncated => watch.Truncated fc
                  | SigDeleted => watch.Deleted fc
                  end)).

(** Every line received so far has a nil [Err]. *)
Definition lines_ok (s : State) : Prop :=
  Forall (fun l : Line => Err l = None) (sent (Lines (tail s))).

(** [m] leaves the [Lines] channel as it is, however it ends. *)
Definition keeps_Lines {A : Type} (m : M A) : Prop :=
  forall s : State, Lines (tail (final (m s))) = Lines (tail s).

(** [m] maintains [P], however it ends. *)
Definition preserves {A : Type} (P : State -> Prop) (m : M A) : Prop :=
  forall s : State, P s -> P (final (m s)).

(** The descriptor is open on a seekable file and its cursor is a
    non-negative [int64]. *)
Definition healthy (w : World) (fd : nat) : Prop :=
  of_closed (w_fds w fd) = false
  /\ i_seekable (inode_of w fd) = true
  /\ (0 <= of_pos (w_fds w fd) <= max_int64)%Z.

(** What [ReadString] makes of the bytes [l] still to be read: the bytes
    it returns, its error, and the bytes it leaves. *)
Definition cut_line (l : list ascii) : list ascii * option error * list ascii :=
  match IndexByte l nl with
  | Some i => (firstn (S i) l, None, skipn (S i) l)
  | None => (l, Some io_EOF, [])
  end.

(** [w'] is [w] but for the cursor of descriptor [fd]. *)
Definition moved (fd : nat) (w w' : World) : Prop :=
  w_fs w' = w_fs w /\ w_nfd w' = w_nfd w /\ w_clock w' = w_clock w
  /\ w_stdout w' = w_stdout w /\ w_watch_fault w' = w_watch_fault w
  /\ w_env w' = w_env w
  /\ (forall k : nat, k <> fd -> w_fds w' k = w_fds w k)
  /\ of_name (w_fds w' fd) = of_name (w_fds w fd)
  /\ of_ino (w_fds w' fd) = of_ino (w_fds w fd)
  /\ of_closed (w_fds w' fd) = of_closed (w_fds w fd).

(** The reader of [s] reads descriptor [fd], open on a regular file in
    good order, and [l] is what it has yet to return: its buffer followed by
    the rest of the file. *)
Definition reading_at (s : State) (fd : nat) (l : list ascii) : Prop :=
  file (tail s) = Some fd
  /\ exists r : Reader,
      reader (tail s) = Some r
      /\ rd_src r = Some fd /\ rd_err r = None
      /\ of_closed (w_fds (world s) fd) = false
      /\ i_seekable (inode_of (world s) fd) = true
      /\ i_fault (inode_of (world s) fd) = None
      /\ (Z.of_nat (Buffered r) <= of_pos (w_fds (world s) fd) <= max_int64)%Z
      /\ (Z.of_nat (length (i_data (inode_of (world s) fd))) <= max_int64)%Z
      /\ rd_buf r ++ unread (world s) fd = l.

(** The cursor the seek to [Location] leaves on a freshly opened file of
    [size] bytes, when it succeeds; 0 without a [Location]. *)
Definition first_position (loc : option SeekInfo) (size : nat) : option Z :=
  match loc with
  | None => Some 0%Z
  | Some l =>
      let base :=
        if Z.eqb (Whence l) SEEK_SET then Some 0%Z
        else if Z.eqb (Whence l) SEEK_CUR then Some 0%Z
        else if Z.eqb (Whence l) SEEK_END then Some (Z.of_nat size)
        else None in
      match base with
      | Some b =>
          if (Z.ltb (b + Offset l) 0 || Z.ltb max_int64 (b + Offset l))%bool
          then None else Some (b + Offset l)%Z
      | None => None
      end
  end.

(** File content made of the lines [ls], each followed by its terminator,
    and a last fragment without one. *)
Definition join_lines (ls : list (list ascii)) (frag : list ascii) : list ascii :=
  concat (map (fun l : list ascii => l ++ [nl]) ls) ++ frag.

(** The texts received on [Lines] so far, in order. *)
Definition delivered (s : State) : list (list ascii) :=
  map Text (sent (Lines (tail s))).

(** The fragment as a last line, when there is one. *)
Definition last_line (frag : list ascii) : list (list ascii) :=
  if nonempty frag then [frag] else [].

(** The text and error [readLine] returns for what [ReadString] returned. *)
Definition trimmed (res : list ascii * option error) : list ascii * option error :=
  match snd res with
  | Some e => (fst res, Some e)
  | None => (TrimRight_nl (fst res), None)
  end.

(** How [File] leaves a tail it started. *)
Definition just_started (s : State) (fd ino : nat) : Prop :=
  Lines (tail s) = mkLines [] false
  /\ tomb (tail s) = Tomb_zero
  /\ ((MustExist (cfg (tail s)) = false /\ file (tail s) = None
       /\ fd = w_nfd (world s)
       /\ fs_dir (w_fs (world s)) (Filename (tail s)) = Present ino)
      \/ (MustExist (cfg (tail s)) = true /\ file (tail s) = Some fd
          /\ w_fds (world s) fd = mkOpenFile (Filename (tail s)) ino 0 false)).

(** The notifier is at hand, or can be set up. *)
Definition can_watch (s : State) (fd : nat) : Prop :=
  changes (tail s) <> None
  \/ (healthy (world s) fd /\ w_watch_fault (world s) = None).

(** The tail with another [Location] in its configuration. *)
Definition relocate_tail (loc : option SeekInfo) (t : Tail) : Tail :=
  set_cfg (mkConfig loc (ReOpen (cfg t)) (MustExist (cfg t)) (Poll (cfg t))
                    (Pipe (cfg t)) (Follow (cfg t))) t.

Definition relocate (loc : option SeekInfo) (s : State) : State :=
  mkState (relocate_tail loc (tail s)) (world s).

Definition map_Res {A : Type} (f : State -> State) (r : Res A) : Res A :=
  match r with
  | Ok a s => Ok a (f s)
  | Fail e s => Fail e (f s)
  end.

(** [m] runs the same whatever [Location] is configured. *)
Definition ignores_Location {A : Type} (m : M A) : Prop :=
  forall (loc : option SeekInfo) (s : State),
    m (relocate loc s) = map_Res (relocate loc) (m s).

(** *** Notions of the further properties *)

(** The complete lines of [l], split at each terminator, and the fragment
    after the last one; [cur] is the line being collected. *)
Fixpoint split_lines (cur l : list ascii) : list (list ascii) * list ascii :=
  match l with
  | [] => ([], cur)
  | c :: l' =>
      if Ascii.eqb c nl
      then (cur :: fst (split_lines [] l'), snd (split_lines [] l'))
      else split_lines (cur ++ [c]) l'
  end.

Definition lines_of (l : list ascii) : list (list ascii) := fst (split_lines [] l).
Definition rest_of (l : list ascii) : list ascii := snd (split_lines [] l).

(** What [Tell] reports in [s]: the cursor less the bytes buffered. *)
Definition told (s : State) (fd : nat) : Z :=
  match reader (tail s) with
  | Some r => (of_pos (w_fds (world s) fd) - Z.of_nat (Buffered r))%Z
  | None => of_pos (w_fds (world s) fd)
  end.

(** [reading_at], with the cursor inside the file and the file holding [l]
    from the offset [Tell] reports. *)
Definition in_step (s : State) (fd : nat) (l : list ascii) : Prop :=
  reading_at s fd l
  /\ (of_pos (w_fds (world s) fd)
      <= Z.of_nat (length (i_data (inode_of (world s) fd))))%Z
  /\ skipn (Z.to_nat (told s fd)) (i_data (inode_of (world s) fd)) = l.

(** [s'] is in the same session as [s]: same configuration, file, notifier
    and tomb, [Lines] as open as before, the same surroundings. *)
Definition session (fd : nat) (s s' : State) : Prop :=
  Filename (tail s') = Filename (tail s)
  /\ cfg (tail s') = cfg (tail s)
  /\ file (tail s') = file (tail s)
  /\ changes (tail s') = changes (tail s)
  /\ tomb (tail s') = tomb (tail s)
  /\ closed (Lines (tail s')) = closed (Lines (tail s))
  /\ w_fs (world s') = w_fs (world s)
  /\ w_nfd (world s') = w_nfd (world s)
  /\ w_watch_fault (world s') = w_watch_fault (world s)
  /\ w_env (world s') = w_env (world s)
  /\ of_ino (w_fds (world s') fd) = of_ino (w_fds (world s) fd).

(** The file system after [extra] is appended to the file on inode [ino]. *)
Definition grow (fs : FS) (ino : nat) (extra : list ascii) : FS :=
  mkFS (fs_dir fs)
       (fun k => if Nat.eqb k ino
                 then mkInode (i_data (fs_inode fs ino) ++ extra)
                              (i_seekable (fs_inode fs ino))
                              (i_fault (fs_inode fs ino))
                 else fs_inode fs k).

(** The environment appending [extras] one after the other, each append
    followed by its modification signal. *)
Fixpoint appends (fs : FS) (ino : nat) (extras : list (list ascii)) : list EnvEvent :=
  match extras with
  | [] => []
  | e :: es => EnvNotify SigModified (grow fs ino e) :: appends (grow fs ino e) ino es
  end.

(** The reason [Wait] returns once [Done] has run. *)
Definition settled (r : option error) : option error :=
  match r with
  | Some tomb_ErrStillAlive => None
  | other => other
  end.

(** [m], started where [P] holds, does not panic, and where it returns
    [Q] holds of its result. *)
Definition triple {A : Type} (P : State -> Prop) (m : M A) (Q : A -> State -> Prop)
  : Prop :=
  forall s : State,
    P s ->
    match m s with
    | Ok a s' => Q a s'
    | Fail (Panicked _) _ => False
    | Fail _ _ => True
    end.

(** An error the watcher backend may report for a failure of its own: any
    but the sentinels of [tomb] and the package's [ErrStop]. *)
Definition backend_error (e : error) : Prop :=
  match e with
  | ErrStop | tomb_ErrStillAlive | tomb_ErrDying => False
  | _ => True
  end.

(** The environment reports backend failures with backend errors. *)
Definition env_ok (w : World) : Prop :=
  Forall (fun ev : EnvEvent =>
            match ev with
            | EnvWatchErr e => backend_error e
            | _ => True
            end) (w_env w)
  /\ match w_watch_fault w with
     | Some e => backend_error e
     | None => True
     end.

(** The tomb is not dead, is not dying while its reason says still alive,
    and does not hold [ErrStop]. *)
Definition tomb_ok (tb : Tomb) : Prop :=
  dead tb = false
  /\ (dying tb = true -> reason tb <> Some tomb_ErrStillAlive)
  /\ reason tb <> Some ErrStop.

(** The state of a tail at work; with [b] set, its reader is in place. *)
Definition at_work (b : bool) (s : State) : Prop :=
  closed (Lines (tail s)) = false
  /\ tomb_ok (tomb (tail s))
  /\ env_ok (world s)
  /\ (b = true -> reader (tail s) <> None).

(** An error the code may hand to [Kill] in [s]. *)
Definition killable (e : error) (s : State) : Prop :=
  match e with
  | ErrStop => False
  | tomb_ErrStillAlive => False
  | tomb_ErrDying => dying (tomb (tail s)) = true
  | _ => True
  end.

Definition killable_opt (r : option error) (s : State) : Prop :=
  match r with
  | Some e => killable e s
  | None => True
  end.

(** How a run of [tailFileSync] that returns leaves the tail. *)
Definition laid_to_rest (s : State) : Prop :=
  closed (Lines (tail s)) = true
  /\ file (tail s) = None
  /\ dead (tomb (tail s)) = true
  /\ dying (tomb (tail s)) = true
  /\ reason (tomb (tail s)) <> Some tomb_ErrStillAlive
  /\ reason (tomb (tail s)) <> Some ErrStop.

(** Operations of the system that leave the script and the watcher as they
    are. *)
Definition quiet {A : Type} (op : World -> A * World) : Prop :=
  forall w : World,
    w_env (snd (op w)) = w_env w /\ w_watch_fault (snd (op w)) = w_watch_fault w.

(** The run ended in a panic. *)
Definition panicked {A : Type} (r : Res A) : Prop :=
  match r with
  | Fail (Panicked _) _ => True
  | _ => False
  end.

(** Run with a dying tomb, [m] neither parks nor goes round again: it
    returns a value that satisfies [Q] (or panics), the tomb still dying
    and [Lines] as it was. *)
Definition winds_down {A : Type} (m : M A) (Q : A -> Prop) : Prop :=
  forall s : State,
    dying (tomb (tail s)) = true ->
    match m s with
    | Ok a s' =>
        dying (tomb (tail s')) = true /\ Lines (tail s') = Lines (tail s) /\ Q a
    | Fail (Panicked _) _ => True
    | Fail _ _ => False
    end.

Definition anything {A : Type} (a : A) : Prop := True.

(** How a turn of the loop ends when it starts with a dying tomb. *)
Definition one_more (s : State) (r : Res unit) : Prop :=
  match r with
  | Ok _ s' => delivered s' = delivered s
               \/ exists l : list ascii, delivered s' = delivered s ++ [l]
  | Fail (Panicked _) _ => True
  | Fail _ _ => False
  end.

(** ** Concrete inputs used to exercise the theorems *)

Module Sample.

Definition bytes (s : string) : list ascii := list_ascii_of_string s.

(** The file contents "a\nb\n", "a\nb" and "a\nb\nc\n". *)
Definition ab_nl : list ascii := bytes "a" ++ [nl] ++ bytes "b" ++ [nl].
Definition ab : list ascii := bytes "a" ++ [nl] ++ bytes "b".
Definition abc_nl : list ascii := ab ++ [nl] ++ bytes "c" ++ [nl].

(** A file system with one regular file, "log", on inode 7. *)
Definition fs_log (data : list ascii) : FS :=
  mkFS (fun p => if String.eqb p "log" then Present 7 else Absent)
       (fun _ => mkInode data true None).

(** A file system in which "log" is a named pipe holding [data]. *)
Definition fs_fifo (data : list ascii) : FS :=
  mkFS (fun p => if String.eqb p "log" then Present 7 else Absent)
       (fun _ => mkInode data false None).

(** A file system in which "log" does not exist. *)
Definition fs_none : FS :=
  mkFS (fun _ => Absent) (fun _ => mkInode [] true None).

Definition world_of (fs : FS) (env : list EnvEvent) : World :=
  mkWorld fs (fun _ => mkOpenFile "" 0 0 true) 3 100 [] None env.

Definition config (loc : option SeekInfo) (reopen mustExist pipe follow : bool)
  : Config := mkConfig loc reopen mustExist false pipe follow.

(** The state in which [File] leaves the tail and the world when
    [MustExist] is unset. *)
Definition fresh (c : Config) (w : World) : State :=
  mkState (mkTail "log" (mkLines [] false) c None None
                  (watch.NewInotifyFileWatcher "log") None Tomb_zero) w.

(** The state a few statements into [tailFileSync]: "log" open on
    descriptor 3 with a fresh reader. *)
Definition reading (c : Config) (data : list ascii) (env : list EnvEvent) : State :=
  mkState (mkTail "log" (mkLines [] false) c (Some 3%nat)
                  (Some (bufio_NewReader (Some 3%nat)))
                  (watch.NewInotifyFileWatcher "log") None Tomb_zero)
          (mkWorld (fs_log data)
                   (fun k => if Nat.eqb k 3 then mkOpenFile "log" 7 0 false
                             else mkOpenFile "" 0 0 true)
                   4 100 [] None env).

End Sample.

(** Further inputs. *)

Module Scene.

(** A file system in which "log" cannot be opened. *)
Definition fs_denied : FS :=
  mkFS (fun p => if String.eqb p "log" then Denied EACCES else Absent)
       (fun _ => mkInode [] true None).

(** A file system in which every read of "log" fails. *)
Definition fs_faulty (data : list ascii) : FS :=
  mkFS (fun p => if String.eqb p "log" then Present 7 else Absent)
       (fun _ => mkInode data true (Some EIO)).

(** The tail [File] returns for "log" when [MustExist] is unset. *)
Definition started (c : Config) : Tail :=
  mkTail "log" (mkLines [] false) c None None
         (watch.NewInotifyFileWatcher "log") None Tomb_zero.

(** The tail [File] returns for "log" when [MustExist] is set and "log"
    is there: the file is open on descriptor 3, the reader not yet set. *)
Definition started_open (c : Config) : Tail :=
  mkTail "log" (mkLines [] false) c (Some 3) None
         (watch.NewInotifyFileWatcher "log") None Tomb_zero.

(** "\nc\n", appended to "a\nb". *)
Definition nl_c_nl : list ascii := [nl] ++ Sample.bytes "c" ++ [nl].

End Scene.

(** * Theorems *)

(** ** Starting a tail: [File] *)

(** C5. [File] called with [ReOpen] set and [Follow] unset returns
    [ErrInvalidConfig] with no [Tail], leaves the world exactly as it found
    it (nothing printed, nothing opened) and does not run the [go]
    statement; and [ErrInvalidConfig] is returned for no other
    configuration. *)
Theorem File_rejects_ReOpen_without_Follow :
  forall (filename : string) (config : Config) (w : World),
    (ReOpen config = true /\ Follow config = false ->
     File filename config w = mkFileResult None (Some ErrInvalidConfig) false w)
    /\
    (fr_err (File filename config w) = Some ErrInvalidConfig ->
     ReOpen config = true /\ Follow config = false).
Proof.
  intros filename config w. unfold File. split.
  - intros [HR HF]. rewrite HR, HF. reflexivity.
  - destruct (ReOpen config), (Follow config); simpl; auto;
      destruct (MustExist config); simpl; try discriminate;
      unfold os_Open; destruct (fs_dir _ _); simpl; discriminate.
Qed.

Lemma File_rejects_ReOpen_without_Follow_witness :
  File "log" (Sample.config None true false false false)
       (Sample.world_of (Sample.fs_log Sample.ab_nl) [])
  = mkFileResult None (Some ErrInvalidConfig) false
                 (Sample.world_of (Sample.fs_log Sample.ab_nl) []).
Proof.
  apply (proj1 (File_rejects_ReOpen_without_Follow
                  "log" (Sample.config None true false false false)
                  (Sample.world_of (Sample.fs_log Sample.ab_nl) []))).
  split; reflexivity.
Defined.

(** C6. With [MustExist] set, on a path that does not exist, a
    configuration that passes the validation makes [File] return the error
    [os.Open] reports for that path (a not-exist [PathError]) with no
    [Tail], and the [go] statement is not run. *)
Theorem File_MustExist_absent :
  forall (filename : string) (config : Config) (w : World),
    MustExist config = true ->
    (ReOpen config && negb (Follow config))%bool = false ->
    fs_dir (w_fs w) filename = Absent ->
    fr_err (File filename config w) = Some (PathError "open" filename ENOENT)
    /\ os_IsNotExist (PathError "open" filename ENOENT) = true
    /\ fr_tail (File filename config w) = None
    /\ fr_go (File filename config w) = false.
Proof.
  intros filename config w HM HV HA.
  unfold File. rewrite HV, HM. unfold os_Open. simpl. rewrite HA. simpl.
  repeat split.
Qed.

Lemma File_MustExist_absent_witness :
  fr_err (File "log" (Sample.config None false true false true)
               (Sample.world_of Sample.fs_none []))
  = Some (PathError "open" "log" ENOENT)
  /\ fr_go (File "log" (Sample.config None false true false true)
                 (Sample.world_of Sample.fs_none [])) = false.
Proof.
  destruct (File_MustExist_absent "log" (Sample.config None false true false true)
              (Sample.world_of Sample.fs_none []))
    as (He & _ & _ & Hg); [reflexivity | reflexivity | reflexivity | ].
  split; assumption.
Defined.

(** ** [Tell] *)

Lemma wrap64_small : forall z : Z, (- 2 ^ 63 <= z < 2 ^ 63)%Z -> wrap64 z = z.
Proof.
  intros z Hz. unfold wrap64.
  rewrite Z.mod_small by lia. lia.
Qed.

(** C8. With no file open [Tell] returns offset 0 and a nil error and
    changes nothing.  With a file open (a seekable one, cursor within
    [int64]) and a reader whose buffer holds at most its capacity, [Tell]
    returns the cursor of the file minus the number of bytes buffered in the
    reader, with a nil error, and leaves the tail and the cursor as they
    were. *)
Theorem Tell_cursor_minus_buffered :
  forall s : State,
    (file (tail s) = None -> Tell s = Ok (0%Z, None) s)
    /\
    (forall (fd : nat) (r : Reader),
        file (tail s) = Some fd ->
        reader (tail s) = Some r ->
        of_closed (w_fds (world s) fd) = false ->
        i_seekable (inode_of (world s) fd) = true ->
        (0 <= of_pos (w_fds (world s) fd) <= max_int64)%Z ->
        Buffered r <= defaultBufSize ->
        exists s' : State,
          Tell s = Ok ((of_pos (w_fds (world s) fd) - Z.of_nat (Buffered r))%Z, None) s'
          /\ tail s' = tail s
          /\ of_pos (w_fds (world s') fd) = of_pos (w_fds (world s) fd)).
Proof.
  intros s. split.
  - intros Hf. unfold Tell, bind, getTail. rewrite Hf. reflexivity.
  - intros fd r Hf Hr Hc Hs Hp Hb.
    unfold Tell, bind, getTail, sys, File_Seek. rewrite Hf, Hc, Hs. simpl.
    replace (of_pos (w_fds (world s) fd) + 0)%Z
      with (of_pos (w_fds (world s) fd)) by lia.
    destruct (Z.ltb_spec (of_pos (w_fds (world s) fd)) 0); [lia|].
    destruct (Z.ltb_spec max_int64 (of_pos (w_fds (world s) fd))); [lia|].
    simpl. rewrite Hr. unfold ret.
    rewrite wrap64_small.
    + eexists. split; [reflexivity|]. simpl. rewrite Nat.eqb_refl. split; reflexivity.
    + unfold max_int64, defaultBufSize in *. lia.
Qed.

Lemma Tell_cursor_minus_buffered_witness :
  exists s' : State,
    Tell (Sample.reading (Sample.config None false false false true) Sample.ab [])
    = Ok (0%Z, None) s'.
Proof.
  destruct (proj2 (Tell_cursor_minus_buffered
                     (Sample.reading (Sample.config None false false false true)
                                     Sample.ab []))
                  3 (bufio_NewReader (Some 3)))
    as (s' & H & _);
    [reflexivity | reflexivity | reflexivity | reflexivity
     | vm_compute; split; discriminate | vm_compute; lia | ].
  exists s'. exact H.
Defined.

(** ** Change notifications: watch/filechanges.go *)

Lemma sendOnlyIfEmpty_unbuffered :
  forall parked : bool,
    watch.sendOnlyIfEmpty parked (make_chan bool 0)
    = (if parked then Delivered else Dropped, make_chan bool 0).
Proof. intros [|]; reflexivity. Qed.

Lemma Notify_NewFileChanges :
  forall (sig : Signal) (parked : bool),
    Notify sig parked watch.NewFileChanges
    = (if parked then Delivered else Dropped, watch.NewFileChanges).
Proof. intros [| |] [|]; reflexivity. Qed.

(** C9. Whatever run of [NotifyModified], [NotifyTruncated] and
    [NotifyDeleted] calls is made on the channels [NewFileChanges] creates,
    each call returns at once, handing the occurrence to the consumer when
    it is parked in its [select] and dropping it otherwise (no call parks
    the sender, none stores the occurrence); the channels stay as created,
    so no signal ever has more than one occurrence pending. *)
Theorem Notify_drops_when_consumer_not_waiting :
  forall ops : list (Signal * bool),
    fst (notify_all ops watch.NewFileChanges)
    = map (fun op : Signal * bool => if snd op then Delivered else Dropped) ops
    /\ snd (notify_all ops watch.NewFileChanges) = watch.NewFileChanges
    /\ (forall sig : Signal,
           pending sig (snd (notify_all ops watch.NewFileChanges)) <= 1).
Proof.
  intros ops.
  assert (H : notify_all ops watch.NewFileChanges
              = (map (fun op : Signal * bool => if snd op then Delivered else Dropped) ops,
                 watch.NewFileChanges)).
  { induction ops as [| [sig parked] ops IH]; [reflexivity|].
    cbn [notify_all]. rewrite Notify_NewFileChanges, IH. reflexivity. }
  rewrite H. cbn [fst snd]. split; [reflexivity|]. split; [reflexivity|].
  intros [| |]; unfold pending; cbn; auto.
Qed.

(** ** What touches the [Lines] channel *)

Create HintDb keeps.

Lemma keeps_ret : forall (A : Type) (a : A), keeps_Lines (ret a).
Proof. intros A a s. reflexivity. Qed.

Lemma keeps_bind :
  forall (A B : Type) (m : M A) (k : A -> M B),
    keeps_Lines m -> (forall a : A, keeps_Lines (k a)) -> keeps_Lines (bind m k).
Proof.
  intros A B m k Hm Hk s. unfold bind.
  specialize (Hm s). destruct (m s) as [a s1 | f s1]; simpl in *.
  - rewrite Hk. exact Hm.
  - exact Hm.
Qed.

Lemma keeps_getTail : keeps_Lines getTail.
Proof. intros s. reflexivity. Qed.

Lemma keeps_sys : forall (A : Type) (op : World -> A * World), keeps_Lines (sys op).
Proof. intros A op s. unfold sys. destruct (op (world s)). reflexivity. Qed.

Lemma keeps_sys_ : forall op : World -> World, keeps_Lines (sys_ op).
Proof. intros op s. reflexivity. Qed.

Lemma keeps_panic : forall (A : Type) (msg : string), keeps_Lines (@panic A msg).
Proof. intros A msg s. reflexivity. Qed.

Lemma keeps_modTail :
  forall f : Tail -> Tail,
    (forall t : Tail, Lines (f t) = Lines t) -> keeps_Lines (modTail f).
Proof. intros f Hf s. simpl. apply Hf. Qed.

Lemma keeps_Kill : forall r : option error, keeps_Lines (Kill r).
Proof. intros r s. unfold Kill. destruct (Tomb_Kill r _); reflexivity. Qed.

Lemma keeps_BlockUntilExists : keeps_Lines BlockUntilExists.
Proof.
  intros s. unfold BlockUntilExists.
  destruct (dying _); [reflexivity|].
  destruct (w_env (world s)) as [| [sig fs | fs | e |] env]; reflexivity.
Qed.

Lemma keeps_select_changes : keeps_Lines select_changes.
Proof.
  intros s. unfold select_changes.
  destruct (dying _); [reflexivity|].
  destruct (w_env (world s)) as [| [sig fs | fs | e |] env]; reflexivity.
Qed.

Lemma keeps_ChangeEvents : forall pos : Z, keeps_Lines (ChangeEvents pos).
Proof. intros pos s. unfold ChangeEvents. destruct (w_watch_fault _); reflexivity. Qed.

Lemma keeps_blocked : forall A : Type, keeps_Lines (fun s : State => @Fail A Blocked s).
Proof. intros A s. reflexivity. Qed.

#[local] Hint Resolve keeps_ret keeps_getTail keeps_sys keeps_sys_ keeps_panic
  keeps_Kill keeps_BlockUntilExists keeps_select_changes keeps_ChangeEvents
  keeps_blocked : keeps.

(** One step through a monadic term: split a [bind], case on whatever a
    [match] or [if] inspects, or close the goal from the database. *)
Ltac keeps_step :=
  match goal with
  | |- keeps_Lines (bind _ _) => apply keeps_bind; [| intros ?]
  | |- keeps_Lines (modTail _) => apply keeps_modTail; intros ?; reflexivity
  | |- keeps_Lines (match ?x with _ => _ end) => destruct x
  | |- keeps_Lines _ => solve [auto with keeps]
  end.

Ltac keeps := repeat keeps_step.

Lemma keeps_Killf : forall msg : string, keeps_Lines (Killf msg).
Proof. intros msg. unfold Killf. keeps. Qed.

Lemma keeps_Done : keeps_Lines Done.
Proof. unfold Done. keeps. Qed.

Lemma keeps_Tell : keeps_Lines Tell.
Proof. unfold Tell. keeps. Qed.

Lemma keeps_closeFile : keeps_Lines closeFile.
Proof. unfold closeFile. keeps. Qed.

#[local] Hint Resolve keeps_Killf keeps_Done keeps_Tell keeps_closeFile : keeps.

Lemma keeps_reopen_loop : forall n : nat, keeps_Lines (reopen_loop n).
Proof.
  induction n as [| n IH]; simpl; keeps.
Qed.

#[local] Hint Resolve keeps_reopen_loop : keeps.

Lemma keeps_reopen : keeps_Lines reopen.
Proof.
  unfold reopen. keeps. intros s. apply keeps_reopen_loop.
Qed.

Lemma keeps_readLine : keeps_Lines readLine.
Proof. unfold readLine. keeps. Qed.

Lemma keeps_openReader : keeps_Lines openReader.
Proof. unfold openReader. keeps. Qed.

Lemma keeps_seekTo : forall pos : SeekInfo, keeps_Lines (seekTo pos).
Proof. intros pos. unfold seekTo. keeps. Qed.

#[local] Hint Resolve keeps_reopen keeps_readLine keeps_openReader keeps_seekTo : keeps.

Lemma keeps_waitForChanges : keeps_Lines waitForChanges.
Proof. unfold waitForChanges. keeps. Qed.

Lemma keeps_tailFileSync_open : keeps_Lines tailFileSync_open.
Proof. unfold tailFileSync_open. keeps. Qed.

(** ** Delivered lines carry no error *)

Create HintDb pres.

Lemma preserves_bind :
  forall (A B : Type) (P : State -> Prop) (m : M A) (k : A -> M B),
    preserves P m -> (forall a : A, preserves P (k a)) -> preserves P (bind m k).
Proof.
  intros A B P m k Hm Hk s HP. unfold bind.
  specialize (Hm s HP). destruct (m s) as [a s1 | f s1]; simpl in *.
  - apply Hk. exact Hm.
  - exact Hm.
Qed.

Lemma keeps_preserves :
  forall (A : Type) (m : M A), keeps_Lines m -> preserves lines_ok m.
Proof.
  intros A m Hm s HP. unfold lines_ok in *. rewrite Hm. exact HP.
Qed.

Lemma preserves_sendLine : forall line : list ascii, preserves lines_ok (sendLine line).
Proof.
  intros line s HP. unfold sendLine, bind, sys, getTail, time_Now. simpl.
  destruct (closed (Lines (tail s))); simpl; [exact HP|].
  unfold lines_ok in *. simpl. apply Forall_app. split; [exact HP|].
  constructor; [reflexivity | constructor].
Qed.

Lemma preserves_close : preserves lines_ok close.
Proof.
  intros s HP. unfold close, bind, getTail.
  destruct (closed (Lines (tail s))); [exact HP|].
  cbn [modTail]. apply (keeps_preserves keeps_closeFile). exact HP.
Qed.

#[local] Hint Resolve preserves_sendLine preserves_close : pres.

Ltac pres_step :=
  match goal with
  | |- preserves _ (bind _ _) => apply preserves_bind; [| intros ?]
  | |- preserves _ (match ?x with _ => _ end) => destruct x
  | |- preserves _ _ => solve [auto with pres]
  | |- preserves lines_ok _ => solve [apply keeps_preserves; keeps]
  end.

Ltac pres := repeat pres_step.

Lemma preserves_tailFileSync_select :
  forall again : M unit,
    preserves lines_ok again -> preserves lines_ok (tailFileSync_select again).
Proof. intros again H. unfold tailFileSync_select. pres. Qed.

Lemma preserves_tailFileSync_wait :
  forall again : M unit,
    preserves lines_ok again -> preserves lines_ok (tailFileSync_wait again).
Proof.
  intros again H. unfold tailFileSync_wait.
  apply preserves_bind; [apply keeps_preserves, keeps_waitForChanges|].
  intros e. pres.
Qed.

#[local] Hint Resolve preserves_tailFileSync_select preserves_tailFileSync_wait : pres.

Lemma preserves_tailFileSync_loop :
  forall (fuel : nat) (offset : Z), preserves lines_ok (tailFileSync_loop fuel offset).
Proof.
  induction fuel as [| fuel IH]; intros offset.
  - intros s HP. exact HP.
  - cbn [tailFileSync_loop]. pres.
Qed.

Lemma preserves_tailFileSync :
  forall fuel : nat, preserves lines_ok (tailFileSync fuel).
Proof.
  intros fuel. unfold tailFileSync.
  apply preserves_bind.
  - apply preserves_bind; [apply keeps_preserves, keeps_tailFileSync_open|].
    intros [|]; [apply preserves_tailFileSync_loop|].
    apply keeps_preserves. keeps.
  - intros _. pres.
Qed.

(** C10. [NewLine] builds a line with a nil [Err].  A run of
    [tailFileSync], of whatever length and however it stops, keeps every
    line received on [Lines] free of an error when those before it were; so
    for a tail that [File] started, whose channel is empty, no line with a
    non-nil [Err] is ever received. *)
Theorem Lines_carry_nil_Err :
  (forall (text : list ascii) (w : World), Err (fst (NewLine text w)) = None)
  /\
  (forall (fuel : nat) (s : State),
      lines_ok s -> lines_ok (final (tailFileSync fuel s)))
  /\
  (forall (filename : string) (config : Config) (w : World) (t : Tail) (fuel : nat),
      fr_tail (File filename config w) = Some t ->
      lines_ok (final (tailFileSync fuel
                         (mkState t (fr_world (File filename config w)))))).
Proof.
  split; [reflexivity|]. split.
  - intros fuel s. apply preserves_tailFileSync.
  - intros filename config w t fuel Ht. apply preserves_tailFileSync.
    assert (Hs : sent (Lines t) = []).
    { unfold File in Ht.
      destruct (ReOpen config && negb (Follow config))%bool; [discriminate|].
      destruct (MustExist config); simpl in Ht.
      - destruct (os_Open filename (fmt_Println filename w)) as [[f [e|]] w2];
          simpl in Ht; [discriminate|].
        injection Ht as <-. reflexivity.
      - injection Ht as <-. reflexivity. }
    unfold lines_ok. simpl. rewrite Hs. constructor.
Qed.

Lemma Lines_carry_nil_Err_witness :
  lines_ok (final (tailFileSync 10
                     (mkState
                        (mkTail "log" (mkLines [] false)
                                (Sample.config None false false false false)
                                None None (watch.NewInotifyFileWatcher "log")
                                None Tomb_zero)
                        (Sample.world_of (Sample.fs_log Sample.ab_nl) [])))).
Proof.
  apply (proj2 (proj2 Lines_carry_nil_Err) "log"%string
               (Sample.config None false false false false)
               (Sample.world_of (Sample.fs_log Sample.ab_nl) [])).
  reflexivity.
Defined.

(** ** Reading a line through the buffer *)

Ltac conj := repeat match goal with |- _ /\ _ => split end.

Lemma moved_refl : forall fd w, moved fd w w.
Proof. intros. unfold moved. repeat split; auto. Qed.

Lemma moved_trans : forall fd w1 w2 w3, moved fd w1 w2 -> moved fd w2 w3 -> moved fd w1 w3.
Proof.
  unfold moved. intros fd w1 w2 w3 H1 H2.
  destruct H1 as (A1 & A2 & A3 & A4 & A5 & A6 & A7 & A8 & A9 & A10).
  destruct H2 as (B1 & B2 & B3 & B4 & B5 & B6 & B7 & B8 & B9 & B10).
  repeat split; try congruence.
  intros k Hk. rewrite B7, A7; auto.
Qed.

Lemma moved_set_pos :
  forall fd w p c,
    of_closed (w_fds w fd) = c ->
    moved fd w (set_fd fd (mkOpenFile (of_name (w_fds w fd)) (of_ino (w_fds w fd)) p c) w).
Proof.
  intros fd w p c Hc. unfold moved, set_fd. cbn. rewrite Nat.eqb_refl. cbn.
  repeat split; auto.
  intros k Hk. apply Nat.eqb_neq in Hk. rewrite Hk. reflexivity.
Qed.

Lemma moved_inode : forall fd w w', moved fd w w' -> inode_of w' fd = inode_of w fd.
Proof.
  intros fd w w' (A1 & _ & _ & _ & _ & _ & _ & _ & A9 & _).
  unfold inode_of. rewrite A1, A9. reflexivity.
Qed.

Lemma IndexByte_app_Some :
  forall (b u : list ascii) (c : ascii) (i : nat),
    IndexByte b c = Some i -> IndexByte (b ++ u) c = Some i /\ i < length b.
Proof.
  induction b as [| x b IH]; intros u c i H; simpl in *; [discriminate|].
  destruct (Ascii.eqb x c).
  - injection H as <-. split; [reflexivity | lia].
  - destruct (IndexByte b c) as [j|] eqn:E; [|discriminate].
    injection H as <-. destruct (@IH u c j E) as [-> Hj]. split; [reflexivity | lia].
Qed.

Lemma IndexByte_app_None :
  forall (b u : list ascii) (c : ascii),
    IndexByte b c = None ->
    IndexByte (b ++ u) c = option_map (fun j => length b + j) (IndexByte u c).
Proof.
  induction b as [| x b IH]; intros u c H; simpl in *.
  - destruct (IndexByte u c); reflexivity.
  - destruct (Ascii.eqb x c); [discriminate|].
    destruct (IndexByte b c) eqn:E; [discriminate|].
    rewrite (IH u c E). destruct (IndexByte u c); reflexivity.
Qed.

Lemma cut_line_found :
  forall (b u : list ascii) (i : nat),
    IndexByte b nl = Some i ->
    cut_line (b ++ u) = (firstn (S i) b, None, skipn (S i) b ++ u).
Proof.
  intros b u i H. unfold cut_line.
  destruct (@IndexByte_app_Some b u nl i H) as [-> Hi].
  rewrite firstn_app, skipn_app.
  replace (S i - length b) with 0 by lia. simpl firstn at 2. simpl skipn at 2.
  rewrite app_nil_r. reflexivity.
Qed.

Lemma cut_line_pass :
  forall (b u : list ascii),
    IndexByte b nl = None ->
    cut_line (b ++ u)
    = (b ++ fst (fst (cut_line u)), snd (fst (cut_line u)), snd (cut_line u)).
Proof.
  intros b u H. unfold cut_line. rewrite IndexByte_app_None by exact H.
  destruct (IndexByte u nl) as [j|]; cbn [option_map fst snd].
  - rewrite firstn_app, skipn_app.
    rewrite firstn_all2 by lia. rewrite skipn_all2 by lia.
    replace (S (length b + j) - length b) with (S j) by lia. reflexivity.
  - reflexivity.
Qed.

Lemma unread_set_pos :
  forall w fd k c,
    (0 <= of_pos (w_fds w fd))%Z ->
    unread (set_fd fd (mkOpenFile (of_name (w_fds w fd)) (of_ino (w_fds w fd))
                                  (of_pos (w_fds w fd) + Z.of_nat k) c) w) fd
    = skipn k (unread w fd).
Proof.
  intros w fd k c Hp. unfold unread, inode_of, set_fd. cbn. rewrite Nat.eqb_refl. cbn.
  rewrite skipn_skipn. f_equal. lia.
Qed.

Lemma ReadString_loop_spec :
  forall (fuel : nat) (acc : list ascii) (r : Reader) (w : World) (fd : nat),
    rd_src r = Some fd -> rd_err r = None ->
    of_closed (w_fds w fd) = false ->
    i_fault (inode_of w fd) = None ->
    (0 <= of_pos (w_fds w fd))%Z ->
    2 * length (unread w fd) + (if Nat.leb defaultBufSize (Buffered r) then 1 else 0) + 2
    <= fuel ->
    exists (r' : Reader) (w' : World),
      ReadString_loop fuel nl acc r w
      = ((acc ++ fst (fst (cut_line (rd_buf r ++ unread w fd))),
          snd (fst (cut_line (rd_buf r ++ unread w fd)))), r', w')
      /\ rd_src r' = Some fd /\ rd_err r' = None
      /\ moved fd w w'
      /\ rd_buf r' ++ unread w' fd = snd (cut_line (rd_buf r ++ unread w fd))
      /\ (of_pos (w_fds w' fd) - Z.of_nat (Buffered r')
          = of_pos (w_fds w fd) - Z.of_nat (Buffered r)
            + Z.of_nat (length (fst (fst (cut_line (rd_buf r ++ unread w fd))))))%Z
      /\ (of_pos (w_fds w fd) <= of_pos (w_fds w' fd))%Z
      /\ (of_pos (w_fds w' fd)
          <= Z.max (of_pos (w_fds w fd)) (Z.of_nat (length (i_data (inode_of w fd)))))%Z.
Proof.
  induction fuel as [| fuel IH]; intros acc r w fd Hsrc Herr Hcl Hft Hpos Hfuel; [lia|].
  cbn [ReadString_loop].
  destruct (IndexByte (rd_buf r) nl) as [i|] eqn:EI.
  - (* the delimiter is in the buffer *)
    rewrite (@cut_line_found _ (unread w fd) _ EI). cbn [fst snd].
    destruct (@IndexByte_app_Some (rd_buf r) [] nl i EI) as [_ Hi].
    eexists; eexists. split; [reflexivity|]. cbn [rd_src rd_err rd_buf].
    conj; auto using moved_refl; unfold Buffered; cbn [rd_buf];
      try rewrite length_skipn; try rewrite length_firstn; try lia.
  - rewrite Herr. rewrite (@cut_line_pass _ (unread w fd) EI). cbn [fst snd].
    destruct (Nat.leb defaultBufSize (Buffered r)) eqn:EF.
    + (* a full buffer without the delimiter is set aside *)
      destruct (IH (acc ++ rd_buf r) (mkReader (rd_src r) [] None) w fd)
        as (r' & w' & Hrun & Hs' & He' & Hm & Hrest & Hoff & Hlo & Hhi); auto.
      { cbn. lia. }
      cbn [rd_buf app] in *. unfold Buffered in Hoff. cbn [rd_buf length] in Hoff.
      exists r', w'. rewrite Hrun. rewrite <- app_assoc.
      conj; auto.
      rewrite length_app. unfold Buffered. lia.
    + (* the buffer is filled from the file *)
      apply Nat.leb_gt in EF.
      unfold fill, File_Read. rewrite Hsrc, Hcl, Hft.
      destruct (defaultBufSize - Buffered r) as [| n] eqn:En; [lia|].
      destruct (unread w fd) as [| a u] eqn:EU.
      * (* end of data *)
        destruct fuel as [| fuel]; [cbn in Hfuel; lia|].
        cbn [ReadString_loop rd_buf rd_err rd_src]. rewrite app_nil_r, EI.
        unfold cut_line. cbn [IndexByte fst snd]. rewrite ?app_nil_r.
        eexists; eexists. split; [reflexivity|]. cbn [rd_src rd_err rd_buf].
        rewrite EU. unfold Buffered. cbn [length app].
        conj; auto using moved_refl; cbn [rd_buf length]; try lia.
      * (* some bytes arrive *)
        rewrite <- EU. rewrite <- EU in Hfuel.
        set (chunk := firstn (S n) (unread w fd)).
        set (w1 := set_fd fd _ w).
        assert (Hm1 : moved fd w w1) by (apply moved_set_pos; exact Hcl).
        assert (Hu1 : unread w1 fd = skipn (length chunk) (unread w fd))
          by (apply unread_set_pos; exact Hpos).
        assert (Hp1 : of_pos (w_fds w1 fd) = (of_pos (w_fds w fd) + Z.of_nat (length chunk))%Z).
        { unfold w1, set_fd. cbn. rewrite Nat.eqb_refl. reflexivity. }
        assert (Hlc : 1 <= length chunk <= S n /\ length chunk <= length (unread w fd)).
        { unfold chunk. rewrite length_firstn, EU. cbn [length]. lia. }
        destruct (IH acc (mkReader (Some fd) (rd_buf r ++ chunk) None) w1 fd)
          as (r' & w' & Hrun & Hs' & He' & Hm & Hrest & Hoff & Hlo & Hhi); auto.
        { destruct Hm1 as (_ & _ & _ & _ & _ & _ & _ & _ & _ & ->). exact Hcl. }
        { rewrite (moved_inode Hm1). exact Hft. }
        { lia. }
        { rewrite Hu1, length_skipn. cbn [rd_buf Buffered].
          destruct (Nat.leb defaultBufSize _); lia. }
        cbn [rd_buf] in *.
        assert (HL : (rd_buf r ++ chunk) ++ unread w1 fd = rd_buf r ++ unread w fd).
        { rewrite Hu1, <- app_assoc. unfold chunk.
          replace (length (firstn (S n) (unread w fd)))
            with (Nat.min (S n) (length (unread w fd))) by (symmetry; apply length_firstn).
          f_equal.
          destruct (Nat.le_ge_cases (S n) (length (unread w fd))) as [Hle | Hge].
          - rewrite Nat.min_l by exact Hle. apply firstn_skipn.
          - rewrite Nat.min_r by exact Hge. rewrite firstn_all2 by exact Hge.
            rewrite skipn_all. apply app_nil_r. }
        rewrite HL in *. rewrite (@cut_line_pass _ (unread w fd) EI) in *. cbn [fst snd] in *.
        exists r', w'. rewrite Hrun.
        conj; auto.
        -- eapply moved_trans; eassumption.
        -- unfold Buffered in *. cbn [rd_buf] in Hoff. rewrite length_app in Hoff. lia.
        -- lia.
        -- rewrite (moved_inode Hm1) in Hhi.
           assert (length (unread w fd) <= length (i_data (inode_of w fd)) - Z.to_nat (of_pos (w_fds w fd))).
           { unfold unread. rewrite length_skipn. lia. }
           lia.
Qed.

Lemma ReadString_spec :
  forall (r : Reader) (w : World) (fd : nat),
    rd_src r = Some fd -> rd_err r = None ->
    of_closed (w_fds w fd) = false ->
    i_fault (inode_of w fd) = None ->
    (0 <= of_pos (w_fds w fd))%Z ->
    exists (r' : Reader) (w' : World),
      ReadString nl r w = (fst (cut_line (rd_buf r ++ unread w fd)), r', w')
      /\ rd_src r' = Some fd /\ rd_err r' = None
      /\ moved fd w w'
      /\ rd_buf r' ++ unread w' fd = snd (cut_line (rd_buf r ++ unread w fd))
      /\ (of_pos (w_fds w' fd) - Z.of_nat (Buffered r')
          = of_pos (w_fds w fd) - Z.of_nat (Buffered r)
            + Z.of_nat (length (fst (fst (cut_line (rd_buf r ++ unread w fd))))))%Z
      /\ (of_pos (w_fds w fd) <= of_pos (w_fds w' fd))%Z
      /\ (of_pos (w_fds w' fd)
          <= Z.max (of_pos (w_fds w fd)) (Z.of_nat (length (i_data (inode_of w fd)))))%Z.
Proof.
  intros r w fd Hsrc Herr Hcl Hft Hpos.
  destruct (@ReadString_loop_spec (ReadString_turns r w) [] r w fd)
    as (r' & w' & Hrun & H); auto.
  { unfold ReadString_turns. rewrite Hsrc.
    destruct (Nat.leb defaultBufSize (Buffered r)); lia. }
  exists r', w'. split; [| exact H].
  unfold ReadString. rewrite Hrun. cbn [app].
  destruct (cut_line (rd_buf r ++ unread w fd)) as [[a b] c]. reflexivity.
Qed.

Lemma File_Seek_cur :
  forall (w : World) (fd : nat),
    healthy w fd ->
    File_Seek (Some fd) 0 SEEK_CUR w
    = ((of_pos (w_fds w fd), None),
       set_fd fd (mkOpenFile (of_name (w_fds w fd)) (of_ino (w_fds w fd))
                             (of_pos (w_fds w fd)) false) w).
Proof.
  intros w fd (Hc & Hs & Hp). unfold File_Seek. rewrite Hc, Hs. cbn.
  replace (of_pos (w_fds w fd) + 0)%Z with (of_pos (w_fds w fd)) by lia.
  destruct (Z.ltb_spec (of_pos (w_fds w fd)) 0); [lia|].
  destruct (Z.ltb_spec max_int64 (of_pos (w_fds w fd))); [lia|].
  reflexivity.
Qed.

Lemma reading_at_healthy :
  forall (s : State) (fd : nat) (l : list ascii),
    reading_at s fd l -> healthy (world s) fd.
Proof.
  intros s fd l (Hf & r & Hr & Hsrc & Herr & Hcl & Hsk & Hft & Hp & Hsz & Hl).
  unfold healthy. conj; auto; lia.
Qed.

Lemma reading_at_moved :
  forall (s : State) (fd : nat) (l : list ascii) (w1 : World),
    reading_at s fd l ->
    moved fd (world s) w1 ->
    of_pos (w_fds w1 fd) = of_pos (w_fds (world s) fd) ->
    reading_at (mkState (tail s) w1) fd l.
Proof.
  intros s fd l w1 (Hf & r & Hr & Hsrc & Herr & Hcl & Hsk & Hft & Hp & Hsz & Hl) Hm Hpos.
  pose proof (moved_inode Hm) as Hi.
  destruct Hm as (_ & _ & _ & _ & _ & _ & _ & _ & _ & Hc).
  split; [exact Hf|]. exists r. cbn [tail world].
  unfold unread in *. rewrite Hi, Hpos, Hc.
  conj; auto; lia.
Qed.

Lemma Tell_reading :
  forall (s : State) (fd : nat) (l : list ascii),
    reading_at s fd l ->
    exists w1 : World,
      (forall r : Reader,
          reader (tail s) = Some r ->
          Tell s = Ok ((of_pos (w_fds (world s) fd) - Z.of_nat (Buffered r))%Z, None)
                      (mkState (tail s) w1))
      /\ moved fd (world s) w1
      /\ of_pos (w_fds w1 fd) = of_pos (w_fds (world s) fd)
      /\ reading_at (mkState (tail s) w1) fd l.
Proof.
  intros s fd l Hrd.
  pose proof Hrd as (Hf & r & Hr & Hsrc & Herr & Hcl & Hsk & Hft & Hp & Hsz & Hl).
  set (w1 := set_fd fd (mkOpenFile (of_name (w_fds (world s) fd))
                                   (of_ino (w_fds (world s) fd))
                                   (of_pos (w_fds (world s) fd)) false) (world s)).
  assert (Hm : moved fd (world s) w1) by (apply moved_set_pos; exact Hcl).
  assert (Hpos : of_pos (w_fds w1 fd) = of_pos (w_fds (world s) fd)).
  { unfold w1, set_fd. cbn. rewrite Nat.eqb_refl. reflexivity. }
  exists w1. conj; auto.
  - intros r0 Hr0. rewrite Hr in Hr0. injection Hr0 as <-.
    unfold Tell, bind, getTail, sys. rewrite Hf.
    rewrite File_Seek_cur by (eapply reading_at_healthy; eassumption).
    rewrite Hr. unfold ret. rewrite wrap64_small; [reflexivity|].
    unfold max_int64 in *. lia.
  - apply reading_at_moved; assumption.
Qed.

Lemma readLine_reading :
  forall (s : State) (fd : nat) (l : list ascii),
    reading_at s fd l ->
    exists (r' : Reader) (w' : World),
      readLine s = Ok (trimmed (fst (cut_line l)))
                      (mkState (set_reader (Some r') (tail s)) w')
      /\ reading_at (mkState (set_reader (Some r') (tail s)) w') fd (snd (cut_line l))
      /\ moved fd (world s) w'
      /\ (forall r : Reader,
             reader (tail s) = Some r ->
             (of_pos (w_fds w' fd) - Z.of_nat (Buffered r')
              = of_pos (w_fds (world s) fd) - Z.of_nat (Buffered r)
                + Z.of_nat (length (fst (fst (cut_line l)))))%Z).
Proof.
  intros s fd l (Hf & r & Hr & Hsrc & Herr & Hcl & Hsk & Hft & Hp & Hsz & Hl).
  destruct (@ReadString_spec r (world s) fd)
    as (r' & w' & Hrun & Hs' & He' & Hm & Hrest & Hoff & Hlo & Hhi); auto; [lia|].
  rewrite Hl in *.
  exists r', w'. conj.
  - unfold readLine, bind, getTail, sys, modTail. rewrite Hr, Hrun.
    unfold trimmed.
    destruct (cut_line l) as [[raw [e|]] rest]; reflexivity.
  - pose proof (moved_inode Hm) as Hi.
    destruct Hm as (_ & _ & _ & _ & _ & _ & _ & _ & _ & Hc).
    split; [exact Hf|]. exists r'. cbn [tail world reader set_reader].
    rewrite Hi, Hc. conj; auto; lia.
  - exact Hm.
  - intros r0 Hr0. rewrite Hr in Hr0. injection Hr0 as <-. exact Hoff.
Qed.

Lemma IndexByte_absent :
  forall l : list ascii, ~ In nl l -> IndexByte l nl = None.
Proof.
  induction l as [| c l IH]; intros H; cbn [IndexByte]; [reflexivity|].
  destruct (Ascii.eqb_spec c nl) as [-> | Hc].
  - exfalso. apply H. left. reflexivity.
  - rewrite IH; [reflexivity|]. intros Hin. apply H. right. exact Hin.
Qed.

Lemma cut_line_fragment :
  forall frag : list ascii, ~ In nl frag -> cut_line frag = (frag, Some io_EOF, []).
Proof.
  intros frag H. unfold cut_line. rewrite IndexByte_absent by exact H. reflexivity.
Qed.

Lemma cut_line_terminated :
  forall l rest : list ascii,
    ~ In nl l -> cut_line ((l ++ [nl]) ++ rest) = (l ++ [nl], None, rest).
Proof.
  intros l rest H. rewrite <- app_assoc. cbn [app].
  rewrite (@cut_line_pass l (nl :: rest)) by (apply IndexByte_absent; exact H).
  unfold cut_line. cbn [IndexByte]. rewrite Ascii.eqb_refl. reflexivity.
Qed.

Lemma TrimRight_nl_terminated :
  forall l : list ascii, ~ In nl l -> TrimRight_nl (l ++ [nl]) = l.
Proof.
  induction l as [| c l IH]; intros H.
  - cbn. reflexivity.
  - cbn [app TrimRight_nl]. rewrite IH by (intros Hin; apply H; right; exact Hin).
    destruct l as [| d l]; [| reflexivity].
    destruct (Ascii.eqb_spec c nl) as [-> | Hc]; [| reflexivity].
    exfalso. apply H. left. reflexivity.
Qed.

Lemma sendLine_open :
  forall (line : list ascii) (s : State),
    closed (Lines (tail s)) = false ->
    sendLine line s
    = Ok tt (mkState (set_Lines (mkLines (sent (Lines (tail s))
                                          ++ [mkLine line (w_clock (world s)) None])
                                         false) (tail s))
                     (snd (time_Now (world s)))).
Proof.
  intros line s H. unfold sendLine, bind, sys, getTail, modTail. cbn.
  rewrite H. reflexivity.
Qed.

(** The offset the loop records before a read (tail.go lines 211-218). *)
Lemma record_offset :
  forall (s : State) (fd : nat) (l : list ascii) (offset : Z),
    reading_at s fd l ->
    exists (off : Z) (w1 : World),
      (if negb (Pipe (cfg (tail s))) then Tell else ret (offset, None)) s
      = Ok (off, None) (mkState (tail s) w1)
      /\ reading_at (mkState (tail s) w1) fd l
      /\ moved fd (world s) w1
      /\ of_pos (w_fds w1 fd) = of_pos (w_fds (world s) fd)
      /\ (Pipe (cfg (tail s)) = false ->
          forall r : Reader,
            reader (tail s) = Some r ->
            off = (of_pos (w_fds (world s) fd) - Z.of_nat (Buffered r))%Z).
Proof.
  intros s fd l offset Hrd.
  destruct (Pipe (cfg (tail s))); cbn [negb].
  - exists offset, (world s). destruct s as [t w]. cbn [tail world].
    conj; auto using moved_refl. discriminate.
  - destruct (Tell_reading Hrd) as (w1 & Htell & Hm & Hp & Hrd1).
    pose proof Hrd as (_ & r & Hr & _).
    exists (of_pos (w_fds (world s) fd) - Z.of_nat (Buffered r))%Z, w1.
    conj; auto.
    intros _ r0 Hr0. rewrite Hr in Hr0. injection Hr0 as <-. reflexivity.
Qed.

Lemma loop_not_following :
  forall (ls : list (list ascii)) (frag : list ascii) (fuel : nat) (offset : Z)
         (s : State) (fd : nat),
    Follow (cfg (tail s)) = false ->
    Forall (fun l : list ascii => ~ In nl l) ls ->
    ~ In nl frag ->
    reading_at s fd (join_lines ls frag) ->
    closed (Lines (tail s)) = false ->
    dying (tomb (tail s)) = false ->
    length ls < fuel ->
    exists s' : State,
      tailFileSync_loop fuel offset s = Ok tt s'
      /\ delivered s' = delivered s ++ ls ++ last_line frag
      /\ closed (Lines (tail s')) = false
      /\ tomb (tail s') = tomb (tail s)
      /\ file (tail s') = Some fd
      /\ w_stdout (world s') = w_stdout (world s).
Proof.
  induction ls as [| l ls IH];
    intros frag fuel offset s fd HF Hls Hfrag Hrd Hcl Hdy Hfuel;
    (destruct fuel as [| fuel]; [cbn in Hfuel; lia|]);
    destruct (record_offset offset Hrd) as (off & w1 & Hrec & Hrd1 & Hm1 & _ & _);
    destruct (readLine_reading Hrd1) as (r' & w2 & Hread & Hrd2 & Hm2 & _);
    cbn [tail world] in *;
    cbn [tailFileSync_loop]; unfold bind at 1; unfold getTail;
    unfold bind at 1; rewrite Hrec; unfold bind at 1; rewrite Hread.
  - (* no full line left: the fragment, then the end *)
    unfold join_lines. cbn [map concat app]. rewrite cut_line_fragment by exact Hfrag.
    unfold trimmed. cbn [fst snd]. rewrite HF. cbn [negb].
    pose proof Hrd2 as (Hf2 & _).
    destruct Hm1 as (_ & _ & _ & Ho1 & _). destruct Hm2 as (_ & _ & _ & Ho2 & _).
    unfold last_line. destruct frag as [| c frag]; cbn [nonempty].
    + eexists. split; [reflexivity|]. unfold delivered. cbn.
      rewrite app_nil_r. conj; auto. congruence.
    + rewrite sendLine_open by exact Hcl.
      eexists. split; [reflexivity|]. unfold delivered. cbn.
      rewrite map_app. cbn. conj; auto. congruence.
  - (* a full line: delivered, and round again *)
    inversion Hls as [| ? ? Hl Hls']; subst.
    unfold join_lines. cbn [map concat]. rewrite <- app_assoc.
    change (concat (map (fun l0 : list ascii => l0 ++ [nl]) ls) ++ frag)
      with (join_lines ls frag).
    unfold join_lines in Hrd2. cbn [map concat] in Hrd2. rewrite <- app_assoc in Hrd2.
    change (concat (map (fun l0 : list ascii => l0 ++ [nl]) ls) ++ frag)
      with (join_lines ls frag) in Hrd2.
    rewrite cut_line_terminated in * by exact Hl.
    unfold trimmed. cbn [fst snd] in *. rewrite TrimRight_nl_terminated by exact Hl.
    unfold bind at 1. rewrite sendLine_open by exact Hcl.
    unfold tailFileSync_select, bind at 1, getTail. cbn [tail set_Lines set_reader tomb].
    rewrite Hdy.
    match goal with |- context [tailFileSync_loop fuel off ?x] => set (s3 := x) end.
    destruct (IH frag fuel off s3 fd) as (s' & Hrun & Hdel & Hcl' & Htb & Hf' & Hout);
      auto; try (cbn in Hfuel; lia).
    exists s'. split; [exact Hrun|].
    destruct Hm1 as (_ & _ & _ & Ho1 & _). destruct Hm2 as (_ & _ & _ & Ho2 & _).
    conj; auto.
    + rewrite Hdel. unfold delivered, s3. cbn. rewrite map_app. cbn.
      rewrite <- app_assoc. reflexivity.
    + rewrite Hout. unfold s3. cbn. congruence.
Qed.

(** ** The first open *)

Ltac open_state s :=
  let fn := fresh "fn" in let ln := fresh "ln" in let c := fresh "c" in
  let f := fresh "f" in let r := fresh "r" in let wt := fresh "wt" in
  let ch := fresh "ch" in let tb := fresh "tb" in
  let fs := fresh "fs" in let fds := fresh "fds" in let nfd := fresh "nfd" in
  let clk := fresh "clk" in let out := fresh "out" in let wf := fresh "wf" in
  let env := fresh "env" in
  destruct s as [[fn ln c f r wt ch tb] [fs fds nfd clk out wf env]];
  cbn [tail world Filename Lines cfg file reader watcher changes tomb
       w_fs w_fds w_nfd w_clock w_stdout w_watch_fault w_env] in *.

Ltac run :=
  repeat (progress (unfold bind, getTail, sys, sys_, modTail, ret, panic,
                    os_Open, File_Close, set_fd, set_file, set_reader,
                    set_changes, set_tomb, set_Lines, set_env, set_fs, inode_of;
                    cbn)).

Lemma first_position_seek :
  forall (w : World) (fd : nat) (loc : SeekInfo) (p : Z),
    of_closed (w_fds w fd) = false ->
    of_pos (w_fds w fd) = 0%Z ->
    i_seekable (inode_of w fd) = true ->
    first_position (Some loc) (length (i_data (inode_of w fd))) = Some p ->
    File_Seek (Some fd) (Offset loc) (Whence loc) w
    = ((p, None),
       set_fd fd (mkOpenFile (of_name (w_fds w fd)) (of_ino (w_fds w fd)) p false) w).
Proof.
  intros w fd loc p Hc Hp Hs Hfp. unfold File_Seek, first_position in *.
  rewrite Hc, Hs, Hp. cbn [negb].
  destruct (Z.eqb (Whence loc) SEEK_SET);
    [| destruct (Z.eqb (Whence loc) SEEK_CUR);
       [| destruct (Z.eqb (Whence loc) SEEK_END); [| discriminate]]];
    cbv zeta in *;
    destruct (_ || _)%bool; try discriminate; injection Hfp as <-; reflexivity.
Qed.

Lemma File_just_started :
  forall (filename : string) (config : Config) (w : World) (t : Tail) (ino : nat),
    fr_tail (File filename config w) = Some t ->
    fs_dir (w_fs w) filename = Present ino ->
    just_started (mkState t (fr_world (File filename config w))) (w_nfd w) ino
    /\ cfg t = config /\ Filename t = filename
    /\ w_fs (fr_world (File filename config w)) = w_fs w.
Proof.
  intros filename config w t ino Ht Hd. unfold File in *.
  destruct (ReOpen config && negb (Follow config))%bool; [discriminate|].
  destruct (MustExist config) eqn:EM.
  - unfold os_Open in *. cbn in *. rewrite Hd in *. cbn in *.
    injection Ht as <-. unfold just_started. cbn. rewrite Nat.eqb_refl, EM.
    conj; auto.
  - cbn in *. injection Ht as <-. unfold just_started. cbn. rewrite EM.
    conj; auto.
Qed.

Lemma first_open :
  forall (s : State) (fd ino : nat),
    just_started s fd ino ->
    exists s0 : State,
      (if negb (MustExist (cfg (tail s))) then reopen else ret None) s = Ok None s0
      /\ file (tail s0) = Some fd
      /\ w_fds (world s0) fd = mkOpenFile (Filename (tail s)) ino 0 false
      /\ w_fs (world s0) = w_fs (world s)
      /\ Lines (tail s0) = Lines (tail s)
      /\ tomb (tail s0) = tomb (tail s)
      /\ cfg (tail s0) = cfg (tail s)
      /\ Filename (tail s0) = Filename (tail s)
      /\ w_stdout (world s0) = w_stdout (world s).
Proof.
  intros s fd ino (HL & HT & Hst).
  destruct Hst as [(HM & Hf & -> & Hd) | (HM & Hf & Hfd)]; rewrite HM; cbn [negb].
  - open_state s. subst. unfold reopen, closeFile. run. rewrite Hd. run.
    eexists. split; [reflexivity|]. cbn. rewrite Nat.eqb_refl. conj; reflexivity.
  - exists s. conj; auto.
Qed.

Lemma tailFileSync_open_first :
  forall (s : State) (fd ino : nat) (p : Z),
    just_started s fd ino ->
    i_seekable (fs_inode (w_fs (world s)) ino) = true ->
    first_position (Location (cfg (tail s)))
                   (length (i_data (fs_inode (w_fs (world s)) ino))) = Some p ->
    exists s1 : State,
      tailFileSync_open s = Ok true s1
      /\ file (tail s1) = Some fd
      /\ reader (tail s1) = Some (bufio_NewReader (Some fd))
      /\ w_fds (world s1) fd = mkOpenFile (Filename (tail s)) ino p false
      /\ w_fs (world s1) = w_fs (world s)
      /\ Lines (tail s1) = Lines (tail s)
      /\ tomb (tail s1) = tomb (tail s)
      /\ cfg (tail s1) = cfg (tail s)
      /\ w_stdout (world s1) = w_stdout (world s).
Proof.
  intros s fd ino p (HL & HT & Hst) Hsk Hfp.
  destruct (first_open (conj HL (conj HT Hst)))
    as (s0 & Hrun & Hf0 & Hfd0 & Hfs0 & HL0 & HT0 & Hc0 & Hn0 & Ho0).
  unfold tailFileSync_open. unfold bind at 1, getTail. unfold bind at 1.
  rewrite Hrun. cbn iota beta.
  destruct (Location (cfg (tail s))) as [loc|] eqn:EL.
  - unfold bind at 1. unfold bind at 1. unfold getTail. unfold bind at 1. unfold sys.
    rewrite Hf0.
    rewrite (@first_position_seek (world s0) fd loc p).
    + unfold ret, openReader, bind, getTail, modTail. cbn.
      eexists. split; [reflexivity|]. cbn. rewrite Nat.eqb_refl, Hfd0, Hf0. cbn.
      conj; auto.
    + rewrite Hfd0. reflexivity.
    + rewrite Hfd0. reflexivity.
    + unfold inode_of. rewrite Hfd0, Hfs0. exact Hsk.
    + unfold inode_of. rewrite Hfd0, Hfs0. exact Hfp.
  - cbn in Hfp. injection Hfp as <-.
    unfold ret, openReader, bind, getTail, modTail. cbn.
    eexists. split; [reflexivity|]. cbn. rewrite Hf0, Hfd0. conj; auto.
Qed.

(** ** A tail that does not follow *)

Lemma first_position_range :
  forall (loc : option SeekInfo) (size : nat) (p : Z),
    first_position loc size = Some p -> (0 <= p <= max_int64)%Z.
Proof.
  intros [loc|] size p H; unfold first_position in H.
  - destruct (Z.eqb (Whence loc) SEEK_SET);
      [| destruct (Z.eqb (Whence loc) SEEK_CUR);
         [| destruct (Z.eqb (Whence loc) SEEK_END); [| discriminate]]];
      cbv zeta in H;
      match type of H with
      | context [(Z.ltb ?a 0 || Z.ltb max_int64 ?a)%bool] =>
          destruct (Z.ltb_spec a 0); destruct (Z.ltb_spec max_int64 a)
      end; cbn in H; try discriminate; injection H as <-; lia.
  - injection H as <-. unfold max_int64. lia.
Qed.

Lemma finish_clean :
  forall (s : State) (fd : nat),
    closed (Lines (tail s)) = false ->
    tomb (tail s) = Tomb_zero ->
    file (tail s) = Some fd ->
    exists s' : State,
      (close ;; Done) s = Ok tt s'
      /\ sent (Lines (tail s')) = sent (Lines (tail s))
      /\ closed (Lines (tail s')) = true
      /\ tomb (tail s') = mkTomb None true true
      /\ file (tail s') = None
      /\ of_closed (w_fds (world s') fd) = true
      /\ w_stdout (world s') = w_stdout (world s).
Proof.
  intros s fd Hc Ht Hf. open_state s. subst.
  destruct ln as [snt cl]. cbn in Hc. subst cl.
  unfold close, closeFile, Done, Kill. run.
  eexists. split; [reflexivity|]. cbn. rewrite Nat.eqb_refl. conj; reflexivity.
Qed.

(** C1, with the first read position made explicit.  For every
    configuration with [Follow] unset, a tail
    that [File] starts on an existing regular file delivers exactly the
    lines of the content that follows the first read position (the start of
    the file when no [Location] is configured, else the offset the seek to
    [Location] yields): every terminated line in file order without its
    terminator, then the unterminated fragment when it is not empty.  The
    run then ends: [Lines] is closed and the tomb is dead with a nil
    reason.  Enough turns of the loop are one more than the number of
    terminated lines. *)
Theorem tail_not_following :
  forall (filename : string) (config : Config) (w : World) (t : Tail)
         (ino : nat) (data : list ascii) (p : Z)
         (ls : list (list ascii)) (frag : list ascii) (fuel : nat),
    Follow config = false ->
    fr_tail (File filename config w) = Some t ->
    fs_dir (w_fs w) filename = Present ino ->
    fs_inode (w_fs w) ino = mkInode data true None ->
    (Z.of_nat (length data) <= max_int64)%Z ->
    first_position (Location config) (length data) = Some p ->
    skipn (Z.to_nat p) data = join_lines ls frag ->
    Forall (fun l : list ascii => ~ In nl l) ls ->
    ~ In nl frag ->
    length ls < fuel ->
    exists s' : State,
      tailFileSync fuel (mkState t (fr_world (File filename config w))) = Ok tt s'
      /\ delivered s' = ls ++ last_line frag
      /\ closed (Lines (tail s')) = true
      /\ tomb (tail s') = mkTomb None true true.
Proof.
  intros filename config w t ino data p ls frag fuel
         HF Ht Hd Hi Hsz Hfp Hdata Hls Hfrag Hfuel.
  destruct (File_just_started _ _ _ Ht Hd) as (Hjs & Hcfg & Hname & Hfs).
  set (s0 := mkState t (fr_world (File filename config w))) in *.
  destruct (@tailFileSync_open_first s0 (w_nfd w) ino p Hjs)
    as (s1 & Hopen & Hf1 & Hr1 & Hfd1 & Hfs1 & HL1 & HT1 & Hc1 & _).
  { cbn [world s0]. rewrite Hfs, Hi. reflexivity. }
  { cbn [world tail s0]. rewrite Hfs, Hi, Hcfg. exact Hfp. }
  destruct Hjs as (HL0 & HT0 & _). cbn [tail s0] in *.
  assert (Hin : inode_of (world s1) (w_nfd w) = mkInode data true None).
  { unfold inode_of. rewrite Hfd1, Hfs1. cbn [world s0 of_ino]. rewrite Hfs. exact Hi. }
  pose proof (first_position_range _ _ Hfp) as Hp.
  assert (Hrd : reading_at s1 (w_nfd w) (join_lines ls frag)).
  { split; [exact Hf1|]. exists (bufio_NewReader (Some (w_nfd w))).
    unfold unread. rewrite Hin, Hfd1. cbn. conj; auto; lia. }
  destruct (@loop_not_following ls frag fuel 0%Z s1 (w_nfd w))
    as (s2 & Hloop & Hdel & Hcl2 & Htb2 & Hf2 & _); auto.
  { rewrite Hc1, Hcfg. exact HF. }
  { rewrite HL1, HL0. reflexivity. }
  { rewrite HT1, HT0. reflexivity. }
  destruct (@finish_clean s2 (w_nfd w)) as (s3 & Hfin & Hs3 & Hc3 & Ht3 & _); auto.
  { rewrite Htb2, HT1, HT0. reflexivity. }
  exists s3. split.
  - unfold tailFileSync. unfold bind at 1. unfold bind at 1.
    rewrite Hopen. rewrite Hloop. exact Hfin.
  - conj; auto. unfold delivered in *. rewrite Hs3, Hdel, HL1, HL0. reflexivity.
Qed.

Lemma tail_not_following_witness :
  exists s' : State,
    tailFileSync 5
      (mkState (mkTail "log" (mkLines [] false)
                       (Sample.config None false false false false)
                       None None (watch.NewInotifyFileWatcher "log") None Tomb_zero)
               (Sample.world_of (Sample.fs_log Sample.ab) []))
    = Ok tt s'
    /\ delivered s' = [Sample.bytes "a"] ++ last_line (Sample.bytes "b")
    /\ closed (Lines (tail s')) = true
    /\ tomb (tail s') = mkTomb None true true.
Proof.
  apply (@tail_not_following
           "log"%string (Sample.config None false false false false)
           (Sample.world_of (Sample.fs_log Sample.ab) [])
           (mkTail "log" (mkLines [] false)
                   (Sample.config None false false false false)
                   None None (watch.NewInotifyFileWatcher "log") None Tomb_zero)
           7 Sample.ab 0%Z [Sample.bytes "a"] (Sample.bytes "b") 5);
    try reflexivity.
  - vm_compute. discriminate.
  - repeat constructor. vm_compute. intuition discriminate.
  - vm_compute. intuition discriminate.
  - vm_compute. lia.
Defined.

(** C1 does not hold of the whole file when a [Location] is configured:
    with [Follow] unset and [Location] at offset 2 from the start, the file
    "a\nb\n", made of the lines "a" and "b", is tailed to the single line
    "b". *)
Lemma Location_skips_lines :
  Follow (Sample.config (Some (mkSeekInfo 2 SEEK_SET)) false false false false) = false
  /\ Sample.ab_nl = join_lines [Sample.bytes "a"; Sample.bytes "b"] []
  /\ exists (t : Tail) (s' : State),
      fr_tail (File "log"
                    (Sample.config (Some (mkSeekInfo 2 SEEK_SET)) false false false false)
                    (Sample.world_of (Sample.fs_log Sample.ab_nl) [])) = Some t
      /\ tailFileSync 5 (mkState t (Sample.world_of (Sample.fs_log Sample.ab_nl) []))
         = Ok tt s'
      /\ delivered s' = [Sample.bytes "b"]
      /\ delivered s' <> [Sample.bytes "a"; Sample.bytes "b"] ++ last_line [].
Proof.
  split; [reflexivity|]. split; [reflexivity|].
  eexists. eexists. split; [reflexivity|]. split; [vm_compute; reflexivity|].
  split; [reflexivity|]. vm_compute. discriminate.
Qed.

(** ** A fragment without its terminator *)

Lemma File_Seek_set :
  forall (w : World) (fd : nat) (off : Z),
    of_closed (w_fds w fd) = false ->
    i_seekable (inode_of w fd) = true ->
    (0 <= off <= max_int64)%Z ->
    File_Seek (Some fd) off 0 w
    = ((off, None),
       set_fd fd (mkOpenFile (of_name (w_fds w fd)) (of_ino (w_fds w fd)) off false) w).
Proof.
  intros w fd off Hc Hs Hp. unfold File_Seek. rewrite Hc, Hs. cbn.
  destruct (Z.ltb_spec off 0); [lia|].
  destruct (Z.ltb_spec max_int64 off); [lia|].
  reflexivity.
Qed.

Lemma record_offset_value :
  forall (s : State) (fd : nat) (l : list ascii) (offset : Z) (r : Reader),
    reading_at s fd l ->
    reader (tail s) = Some r ->
    exists w1 : World,
      (if negb (Pipe (cfg (tail s))) then Tell else ret (offset, None)) s
      = Ok (if Pipe (cfg (tail s)) then offset
            else (of_pos (w_fds (world s) fd) - Z.of_nat (Buffered r))%Z, None)
           (mkState (tail s) w1)
      /\ reading_at (mkState (tail s) w1) fd l
      /\ moved fd (world s) w1
      /\ of_pos (w_fds w1 fd) = of_pos (w_fds (world s) fd).
Proof.
  intros s fd l offset r Hrd Hr.
  destruct (record_offset offset Hrd) as (off & w1 & Hrec & Hrd1 & Hm1 & Hp1 & Hoff).
  destruct (Pipe (cfg (tail s))) eqn:EP; cbn [negb] in *.
  - exists (world s). unfold ret. destruct s as [t w]. cbn [tail world] in *.
    conj; auto using moved_refl.
  - exists w1. rewrite (Hoff eq_refl r Hr) in Hrec. conj; auto.
Qed.

(** A turn of the loop that finds only a fragment, whatever [Pipe] is:
    the cursor goes to the loop's [offset], which [Tell] has just set when
    [Pipe] is unset and which keeps its earlier value otherwise. *)
Lemma fragment_rewinds_to_offset :
  forall (fuel : nat) (offset0 : Z) (s : State) (fd : nat) (r : Reader)
         (frag : list ascii),
    Follow (cfg (tail s)) = true ->
    reading_at s fd frag ->
    reader (tail s) = Some r ->
    ~ In nl frag ->
    frag <> [] ->
    (Pipe (cfg (tail s)) = true -> (0 <= offset0 <= max_int64)%Z) ->
    let recorded :=
      if Pipe (cfg (tail s)) then offset0
      else (of_pos (w_fds (world s) fd) - Z.of_nat (Buffered r))%Z in
    exists s2 : State,
      tailFileSync_loop (S fuel) offset0 s
      = tailFileSync_wait (tailFileSync_select (tailFileSync_loop fuel recorded)) s2
      /\ Lines (tail s2) = Lines (tail s)
      /\ of_pos (w_fds (world s2) fd) = recorded
      /\ reader (tail s2) = Some (bufio_NewReader (Some fd))
      /\ changes (tail s2) = changes (tail s)
      /\ tomb (tail s2) = tomb (tail s)
      /\ w_env (world s2) = w_env (world s)
      /\ (Pipe (cfg (tail s)) = false ->
          skipn (Z.to_nat recorded) (i_data (inode_of (world s) fd)) = frag ->
          reading_at s2 fd frag).
Proof.
  intros fuel offset0 s fd r frag HF Hrd Hr Hnl Hne Hoff0 recorded.
  destruct (record_offset_value offset0 Hrd Hr) as (w1 & Hrec & Hrd1 & Hm1 & Hp1).
  fold recorded in Hrec.
  destruct (readLine_reading Hrd1) as (r' & w2 & Hread & Hrd2 & Hm2 & _).
  cbn [tail world] in *.
  rewrite cut_line_fragment in * by exact Hnl. unfold trimmed in Hread. cbn [fst snd] in *.
  pose proof Hrd as (Hf & r0 & Hr0 & _ & _ & Hcl & Hsk & Hft & Hp & Hsz & _).
  rewrite Hr in Hr0. injection Hr0 as <-.
  assert (Hrange : (0 <= recorded <= max_int64)%Z).
  { unfold recorded. destruct (Pipe (cfg (tail s))); [apply Hoff0; reflexivity | lia]. }
  pose proof (moved_trans Hm1 Hm2) as Hm.
  pose proof (moved_inode Hm) as Hin.
  pose proof Hm as (_ & _ & _ & _ & _ & Henv & _ & _ & Hino & Hcl2).
  set (w3 := fmt_Println (string_of_list_ascii frag) w2).
  assert (Hseek : File_Seek (Some fd) recorded 0 w3
                  = ((recorded, None),
                     set_fd fd (mkOpenFile (of_name (w_fds w3 fd)) (of_ino (w_fds w3 fd))
                                           recorded false) w3)).
  { apply File_Seek_set.
    - cbn. rewrite Hcl2. exact Hcl.
    - change (inode_of w3 fd) with (inode_of w2 fd). rewrite Hin. exact Hsk.
    - exact Hrange. }
  eexists. split.
  - cbn [tailFileSync_loop]. unfold bind at 1, getTail. unfold bind at 1.
    rewrite Hrec.
    unfold bind at 1. rewrite Hread. rewrite HF. cbn [negb andb].
    destruct frag as [| c frag]; [contradiction|]. cbn [nonempty].
    unfold bind at 1. unfold bind at 1. unfold sys_ at 1. cbn [tail world].
    unfold seekTo, bind at 1, getTail. cbn [tail world set_reader file].
    rewrite Hf. unfold bind at 1, sys. cbn [tail world].
    fold w3. cbn [Offset Whence]. rewrite Hseek.
    cbn [reader]. unfold bind at 1, modTail. cbn [tail world]. unfold ret.
    reflexivity.
  - cbn [tail world set_reader Lines reader changes tomb w_fds w_env set_fd of_pos].
    rewrite Nat.eqb_refl. cbn [of_pos]. conj; auto.
    intros _ Hco.
    split; [exact Hf|]. exists (bufio_NewReader (Some fd)).
    cbn [tail world set_reader reader].
    assert (Hin3 : inode_of (set_fd fd (mkOpenFile (of_name (w_fds w3 fd))
                                                   (of_ino (w_fds w3 fd)) recorded false) w3) fd
                   = inode_of (world s) fd).
    { transitivity (inode_of w2 fd); [| exact Hin].
      unfold inode_of, set_fd. cbn. rewrite Nat.eqb_refl. reflexivity. }
    unfold unread. rewrite Hin3. cbn [set_fd w_fds]. rewrite Nat.eqb_refl.
    cbn [of_closed of_pos bufio_NewReader rd_src rd_err rd_buf Buffered length app].
    conj; auto; lia.
Qed.

(** C2, for a tail that is not a pipe.  In a turn of the loop with [Follow]
    set and [Pipe] unset that finds only an unterminated, non-empty fragment
    before end of data, nothing is sent on [Lines]; the cursor of the file
    is set back to the offset [Tell] reported before the read, the reader
    is reset, so its buffer is dropped and the fragment is again what the
    reader has yet to return, and the loop goes on to [waitForChanges] from
    that state, with the notifier, the tomb and the environment
    untouched. *)
Theorem partial_line_withheld :
  forall (fuel : nat) (offset0 : Z) (s : State) (fd : nat) (r : Reader)
         (frag : list ascii),
    Follow (cfg (tail s)) = true ->
    Pipe (cfg (tail s)) = false ->
    reading_at s fd frag ->
    reader (tail s) = Some r ->
    skipn (Z.to_nat (of_pos (w_fds (world s) fd) - Z.of_nat (Buffered r)))
          (i_data (inode_of (world s) fd)) = frag ->
    ~ In nl frag ->
    frag <> [] ->
    exists s2 : State,
      tailFileSync_loop (S fuel) offset0 s
      = tailFileSync_wait
          (tailFileSync_select
             (tailFileSync_loop fuel (of_pos (w_fds (world s) fd)
                                      - Z.of_nat (Buffered r))%Z)) s2
      /\ Lines (tail s2) = Lines (tail s)
      /\ of_pos (w_fds (world s2) fd)
         = (of_pos (w_fds (world s) fd) - Z.of_nat (Buffered r))%Z
      /\ reader (tail s2) = Some (bufio_NewReader (Some fd))
      /\ reading_at s2 fd frag
      /\ changes (tail s2) = changes (tail s)
      /\ tomb (tail s2) = tomb (tail s)
      /\ w_env (world s2) = w_env (world s).
Proof.
  intros fuel offset0 s fd r frag HF HP Hrd Hr Hco Hnl Hne.
  pose proof (@fragment_rewinds_to_offset fuel offset0 s fd r frag HF Hrd Hr Hnl Hne)
    as H.
  rewrite HP in H. cbv zeta in H.
  destruct H as (s2 & H1 & H2 & H3 & H4 & H5 & H6 & H7 & H8); [discriminate|].
  exists s2. conj; auto.
Qed.

(** ** Waiting for changes *)

Lemma waitForChanges_reopens :
  forall (s : State) (fd ino : nat) (sig : Signal) (fs' : FS) (env : list EnvEvent),
    file (tail s) = Some fd ->
    fd < w_nfd (world s) ->
    can_watch s fd ->
    dying (tomb (tail s)) = false ->
    w_env (world s) = EnvNotify sig fs' :: env ->
    sig = SigTruncated \/ (sig = SigDeleted /\ ReOpen (cfg (tail s)) = true) ->
    fs_dir fs' (Filename (tail s)) = Present ino ->
    exists s' : State,
      waitForChanges s = Ok None s'
      /\ of_closed (w_fds (world s') fd) = true
      /\ file (tail s') = Some (w_nfd (world s))
      /\ w_fds (world s') (w_nfd (world s)) = mkOpenFile (Filename (tail s)) ino 0 false
      /\ reader (tail s') = Some (bufio_NewReader (Some (w_nfd (world s))))
      /\ tomb (tail s') = tomb (tail s)
      /\ Lines (tail s') = Lines (tail s)
      /\ cfg (tail s') = cfg (tail s)
      /\ w_fs (world s') = fs'
      /\ w_env (world s') = env.
Proof.
  intros s fd ino sig fs' env Hf Hlt Hw Hdy Henv Hsig Hd.
  assert (Hne : Nat.eqb fd (w_nfd (world s)) = false) by (apply Nat.eqb_neq; lia).
  unfold waitForChanges. unfold bind at 1, getTail.
  destruct (changes (tail s)) as [fc|] eqn:Ech.
  - open_state s. subst.
    unfold select_changes. cbn in Hdy. run. rewrite Hdy. cbn.
    destruct Hsig as [-> | [-> HR]]; cbn; try rewrite HR;
      unfold reopen, closeFile, openReader; run; rewrite Hd; run;
      (eexists; split; [reflexivity|]); cbn; rewrite Nat.eqb_refl, Hne, Nat.eqb_refl;
      conj; reflexivity.
  - destruct Hw as [Hw | [Hh Hwf]]; [congruence|].
    unfold bind at 1. unfold bind at 1. unfold sys. rewrite Hf.
    rewrite File_Seek_cur by exact Hh.
    open_state s. subst.
    unfold ChangeEvents, select_changes. cbn in Hdy. run. rewrite Hdy. cbn.
    destruct Hsig as [-> | [-> HR]]; cbn; try rewrite HR;
      unfold reopen, closeFile, openReader; run; rewrite Hd; run;
      (eexists; split; [reflexivity|]); cbn; rewrite Nat.eqb_refl, Hne, ?Nat.eqb_refl;
      conj; reflexivity.
Qed.

(** C3.  Whatever the configuration ([ReOpen] set or not), when the
    [select] of [waitForChanges] receives the truncation signal and the
    path can be opened, [waitForChanges] returns nil: the old file is
    closed, [file] is a freshly opened descriptor with its cursor at 0,
    [reader] is a new reader on it with an empty buffer, and neither the
    tomb nor [Lines] is touched, so no error is recorded. *)
Theorem Truncated_always_reopens :
  forall (s : State) (fd ino : nat) (fs' : FS) (env : list EnvEvent),
    file (tail s) = Some fd ->
    fd < w_nfd (world s) ->
    can_watch s fd ->
    dying (tomb (tail s)) = false ->
    w_env (world s) = EnvNotify SigTruncated fs' :: env ->
    fs_dir fs' (Filename (tail s)) = Present ino ->
    exists s' : State,
      waitForChanges s = Ok None s'
      /\ of_closed (w_fds (world s') fd) = true
      /\ file (tail s') = Some (w_nfd (world s))
      /\ w_fds (world s') (w_nfd (world s)) = mkOpenFile (Filename (tail s)) ino 0 false
      /\ reader (tail s') = Some (bufio_NewReader (Some (w_nfd (world s))))
      /\ tomb (tail s') = tomb (tail s)
      /\ Lines (tail s') = Lines (tail s).
Proof.
  intros s fd ino fs' env Hf Hlt Hw Hdy Henv Hd.
  destruct (@waitForChanges_reopens s fd ino SigTruncated fs' env)
    as (s' & Hrun & H1 & H2 & H3 & H4 & H5 & H6 & _); auto.
  exists s'. conj; assumption.
Qed.


Lemma waitForChanges_Deleted_stops :
  forall (s : State) (fd : nat) (fs' : FS) (env : list EnvEvent),
    ReOpen (cfg (tail s)) = false ->
    file (tail s) = Some fd ->
    can_watch s fd ->
    dying (tomb (tail s)) = false ->
    w_env (world s) = EnvNotify SigDeleted fs' :: env ->
    exists s1 : State,
      waitForChanges s = Ok (Some ErrStop) s1
      /\ tomb (tail s1) = tomb (tail s)
      /\ Lines (tail s1) = Lines (tail s)
      /\ file (tail s1) = Some fd
      /\ changes (tail s1) = None.
Proof.
  intros s fd fs' env HR Hf Hw Hdy Henv.
  unfold waitForChanges. unfold bind at 1, getTail.
  destruct (changes (tail s)) as [fc|] eqn:Ech.
  - open_state s. subst.
    unfold select_changes. cbn in Hdy, HR. run. rewrite Hdy. cbn. rewrite HR.
    eexists. split; [reflexivity|]. cbn. conj; reflexivity.
  - destruct Hw as [Hw | [Hh Hwf]]; [congruence|].
    unfold bind at 1. unfold bind at 1. unfold sys. rewrite Hf.
    rewrite File_Seek_cur by exact Hh.
    open_state s. subst.
    unfold ChangeEvents, select_changes. cbn in Hdy, HR. run. rewrite Hdy. cbn. rewrite HR.
    eexists. split; [reflexivity|]. cbn. conj; reflexivity.
Qed.

(** C4.  With [ReOpen] unset, when the [select] of [waitForChanges]
    receives the deletion signal, [waitForChanges] returns [ErrStop] and
    touches neither the tomb nor [Lines].  A turn of the loop that is at end
    of data with [Follow] set then returns without [Kill]: after the
    deferred calls, [Lines] is closed holding exactly the lines it held, and
    the tomb is dead with a nil reason.  What the path becomes afterwards
    (the file system and the events that follow the signal) plays no
    part. *)
Theorem Deleted_without_ReOpen_stops_cleanly :
  forall (fuel : nat) (offset : Z) (s : State) (fd : nat) (fs' : FS)
         (env : list EnvEvent),
    Follow (cfg (tail s)) = true ->
    ReOpen (cfg (tail s)) = false ->
    reading_at s fd [] ->
    can_watch s fd ->
    tomb (tail s) = Tomb_zero ->
    closed (Lines (tail s)) = false ->
    w_env (world s) = EnvNotify SigDeleted fs' :: env ->
    (exists s1 : State,
        waitForChanges s = Ok (Some ErrStop) s1
        /\ tomb (tail s1) = tomb (tail s)
        /\ Lines (tail s1) = Lines (tail s))
    /\
    (exists s2 : State,
        (tailFileSync_loop (S fuel) offset ;; close ;; Done) s = Ok tt s2
        /\ sent (Lines (tail s2)) = sent (Lines (tail s))
        /\ closed (Lines (tail s2)) = true
        /\ tomb (tail s2) = mkTomb None true true).
Proof.
  intros fuel offset s fd fs' env HF HR Hrd Hw Htb Hcl Henv.
  pose proof Hrd as (Hf & _).
  assert (Hdy : dying (tomb (tail s)) = false) by (rewrite Htb; reflexivity).
  split.
  - destruct (@waitForChanges_Deleted_stops s fd fs' env)
      as (s1 & Hrun & H1 & H2 & _); auto.
    exists s1. conj; assumption.
  - destruct (record_offset offset Hrd) as (off & w1 & Hrec & Hrd1 & Hm1 & _ & _).
    destruct (readLine_reading Hrd1) as (r' & w2 & Hread & Hrd2 & Hm2 & _).
    cbn [tail world] in *.
    unfold cut_line, trimmed in *. cbn [IndexByte fst snd] in *.
    pose proof (moved_trans Hm1 Hm2) as (_ & _ & _ & _ & Hwf & Henv2 & _).
    set (s2 := mkState (set_reader (Some r') (tail s)) w2) in *.
    destruct (@waitForChanges_Deleted_stops s2 fd fs' env)
      as (s3 & Hwait & Htb3 & HL3 & Hf3 & _); auto.
    { destruct Hw as [Hw | [_ Hw]]; [left; exact Hw | right].
      split; [eapply reading_at_healthy; exact Hrd2|].
      cbn [world s2]. rewrite Hwf. exact Hw. }
    { cbn [world s2]. rewrite Henv2. exact Henv. }
    destruct (@finish_clean s3 fd) as (s4 & Hfin & Hs4 & Hc4 & Ht4 & _).
    { rewrite HL3. exact Hcl. }
    { rewrite Htb3. exact Htb. }
    { exact Hf3. }
    exists s4. split.
    + unfold bind at 1. cbn [tailFileSync_loop]. unfold bind at 1, getTail.
      unfold bind at 1. rewrite Hrec. unfold bind at 1. rewrite Hread.
      rewrite HF. cbn [negb andb nonempty]. unfold bind at 1. unfold ret at 1.
      unfold tailFileSync_wait. unfold bind at 1. fold s2. rewrite Hwait.
      unfold ret at 1. exact Hfin.
    + conj; auto. rewrite Hs4, HL3. reflexivity.
Qed.

(** ** The seek to [Location] *)

Lemma first_seek_fails :
  forall (w : World) (fd : nat) (loc : SeekInfo),
    of_closed (w_fds w fd) = false ->
    of_pos (w_fds w fd) = 0%Z ->
    i_seekable (inode_of w fd) = false
    \/ first_position (Some loc) (length (i_data (inode_of w fd))) = None ->
    exists e : Errno,
      File_Seek (Some fd) (Offset loc) (Whence loc) w
      = ((0%Z, Some (PathError "seek" (of_name (w_fds w fd)) e)), w).
Proof.
  intros w fd loc Hc Hp Hfail. unfold File_Seek. rewrite Hc.
  destruct (i_seekable (inode_of w fd)) eqn:Es; cbn [negb].
  - destruct Hfail as [Hfail | Hfail]; [discriminate|].
    unfold first_position in Hfail. rewrite Hp.
    destruct (Z.eqb (Whence loc) SEEK_SET);
      [| destruct (Z.eqb (Whence loc) SEEK_CUR);
         [| destruct (Z.eqb (Whence loc) SEEK_END)]];
      cbv zeta in *;
      try (destruct (_ || _)%bool; [| discriminate]);
      eexists; reflexivity.
  - eexists; reflexivity.
Qed.

Lemma finish_killed :
  forall (s : State) (e : string),
    closed (Lines (tail s)) = false ->
    tomb (tail s) = mkTomb (Some (Errorf e)) true false ->
    exists s' : State,
      (close ;; Done) s = Ok tt s'
      /\ sent (Lines (tail s')) = sent (Lines (tail s))
      /\ closed (Lines (tail s')) = true
      /\ tomb (tail s') = mkTomb (Some (Errorf e)) true true.
Proof.
  intros s e Hc Ht. open_state s. subst.
  destruct ln as [snt cl]. cbn in Hc. subst cl.
  unfold close, closeFile, Done, Kill. run.
  destruct f; run; (eexists; split; [reflexivity|]); cbn; conj; reflexivity.
Qed.

Lemma first_seek_failure_is_fatal :
  forall (fuel : nat) (s : State) (fd ino : nat) (loc : SeekInfo),
    just_started s fd ino ->
    Location (cfg (tail s)) = Some loc ->
    i_seekable (fs_inode (w_fs (world s)) ino) = false
    \/ first_position (Some loc) (length (i_data (fs_inode (w_fs (world s)) ino))) = None ->
    exists (e : Errno) (s' : State),
      tailFileSync fuel s = Ok tt s'
      /\ tomb (tail s')
         = mkTomb (Some (Errorf ("Seek error on " ++ Filename (tail s) ++ ": "
                                  ++ error_Error (PathError "seek" (Filename (tail s)) e))))
                  true true
      /\ delivered s' = []
      /\ closed (Lines (tail s')) = true.
Proof.
  intros fuel s fd ino loc Hjs HL Hfail.
  destruct (first_open Hjs) as (s0 & Hrun & Hf0 & Hfd0 & Hfs0 & HL0 & HT0 & Hc0 & Hn0 & _).
  destruct Hjs as (HLs & HTs & _).
  destruct (@first_seek_fails (world s0) fd loc) as (e & Hseek).
  { rewrite Hfd0. reflexivity. }
  { rewrite Hfd0. reflexivity. }
  { unfold inode_of. rewrite Hfd0, Hfs0. exact Hfail. }
  rewrite Hfd0 in Hseek. cbn [of_name] in Hseek.
  set (msg := ("Seek error on " ++ Filename (tail s) ++ ": "
               ++ error_Error (PathError "seek" (Filename (tail s)) e))%string).
  set (s1 := mkState (set_tomb (mkTomb (Some (Errorf msg)) true false) (tail s0)) (world s0)).
  destruct (@finish_killed s1 msg) as (s' & Hfin & Hs' & Hc' & Ht'); unfold s1; cbn.
  { rewrite HL0, HLs. reflexivity. }
  { reflexivity. }
  exists e, s'. conj; auto.
  - unfold tailFileSync. unfold bind at 1. unfold bind at 1.
    unfold tailFileSync_open. unfold bind at 1, getTail. unfold bind at 1.
    rewrite Hrun. rewrite HL. unfold bind at 1. unfold bind at 1. unfold getTail.
    unfold bind at 1. unfold sys. rewrite Hf0, Hseek. unfold ret at 1.
    unfold bind at 1. unfold Killf, Kill. cbn [tail world]. rewrite HT0, HTs.
    cbn [Tomb_Kill Tomb_zero reason dead]. unfold ret. fold msg. destruct s0. exact Hfin.
  - unfold delivered. rewrite Hs'. unfold s1. cbn. rewrite HL0, HLs. reflexivity.
Qed.

Create HintDb ign.

Lemma ign_ret : forall (A : Type) (a : A), ignores_Location (ret a).
Proof. intros A a loc s. reflexivity. Qed.

Lemma ign_bind :
  forall (A B : Type) (m : M A) (k : A -> M B),
    ignores_Location m -> (forall a : A, ignores_Location (k a)) ->
    ignores_Location (bind m k).
Proof.
  intros A B m k Hm Hk loc s. unfold bind. rewrite Hm.
  destruct (m s) as [a s1 | f s1]; cbn [map_Res]; [apply Hk | reflexivity].
Qed.

Lemma ign_getTail :
  forall (B : Type) (k : Tail -> M B),
    (forall t : Tail, ignores_Location (k t)) ->
    (forall (loc : option SeekInfo) (t : Tail) (s : State),
        k (relocate_tail loc t) s = k t s) ->
    ignores_Location (bind getTail k).
Proof.
  intros B k Hk Hsame loc s. unfold bind, getTail.
  change (tail (relocate loc s)) with (relocate_tail loc (tail s)).
  rewrite Hsame. apply Hk.
Qed.

Lemma ign_sys : forall (A : Type) (op : World -> A * World), ignores_Location (sys op).
Proof. intros A op loc s. unfold sys. cbn. destruct (op (world s)). reflexivity. Qed.

Lemma ign_sys_ : forall op : World -> World, ignores_Location (sys_ op).
Proof. intros op loc s. reflexivity. Qed.

Lemma ign_panic : forall (A : Type) (msg : string), ignores_Location (@panic A msg).
Proof. intros A msg loc s. reflexivity. Qed.

Lemma ign_fail :
  forall (A : Type) (f : Failure), ignores_Location (fun s : State => @Fail A f s).
Proof. intros A f loc s. reflexivity. Qed.

Lemma ign_modTail :
  forall f : Tail -> Tail,
    (forall (loc : option SeekInfo) (t : Tail),
        f (relocate_tail loc t) = relocate_tail loc (f t)) ->
    ignores_Location (modTail f).
Proof. intros f Hf loc s. unfold modTail, relocate. cbn. rewrite Hf. reflexivity. Qed.

Lemma ign_Kill : forall r : option error, ignores_Location (Kill r).
Proof.
  intros r loc s. unfold Kill. cbn. destruct (Tomb_Kill r (tomb (tail s))); reflexivity.
Qed.

Lemma ign_BlockUntilExists : ignores_Location BlockUntilExists.
Proof.
  intros loc s. unfold BlockUntilExists. cbn.
  destruct (dying (tomb (tail s))); [reflexivity|].
  destruct (w_env (world s)) as [| [sig fs | fs | e |] env]; reflexivity.
Qed.

Lemma ign_select_changes : ignores_Location select_changes.
Proof.
  intros loc s. unfold select_changes. cbn.
  destruct (dying (tomb (tail s))); [reflexivity|].
  destruct (w_env (world s)) as [| [sig fs | fs | e |] env]; reflexivity.
Qed.

Lemma ign_ChangeEvents : forall pos : Z, ignores_Location (ChangeEvents pos).
Proof.
  intros pos loc s. unfold ChangeEvents. cbn. destruct (w_watch_fault (world s)); reflexivity.
Qed.

#[local] Hint Resolve ign_ret ign_sys ign_sys_ ign_panic ign_fail ign_Kill
  ign_BlockUntilExists ign_select_changes ign_ChangeEvents : ign.

Ltac ign_step :=
  match goal with
  | |- ignores_Location (bind getTail _) =>
      apply ign_getTail; [intros ? | intros ? ? ?; reflexivity]
  | |- ignores_Location (bind _ _) => apply ign_bind; [| intros ?]
  | |- ignores_Location (modTail _) => apply ign_modTail; intros ? ?; reflexivity
  | |- ignores_Location (match ?x with _ => _ end) => destruct x
  | |- ignores_Location _ => solve [auto with ign]
  end.

Ltac ign := repeat ign_step.

Lemma ign_Killf : forall msg : string, ignores_Location (Killf msg).
Proof. intros msg. unfold Killf. ign. Qed.

Lemma ign_Tell : ignores_Location Tell.
Proof. unfold Tell. ign. Qed.

Lemma ign_closeFile : ignores_Location closeFile.
Proof. unfold closeFile. ign. Qed.

#[local] Hint Resolve ign_Killf ign_Tell ign_closeFile : ign.

Lemma ign_reopen_loop : forall n : nat, ignores_Location (reopen_loop n).
Proof. induction n as [| n IH]; cbn [reopen_loop]; ign. Qed.

Lemma ign_reopen : ignores_Location reopen.
Proof.
  unfold reopen. apply ign_bind; [auto with ign|]. intros _ loc s.
  apply ign_reopen_loop.
Qed.

Lemma ign_readLine : ignores_Location readLine.
Proof. unfold readLine. ign. Qed.

Lemma ign_openReader : ignores_Location openReader.
Proof. unfold openReader. ign. Qed.

Lemma ign_seekTo : forall pos : SeekInfo, ignores_Location (seekTo pos).
Proof. intros pos. unfold seekTo. ign. Qed.

Lemma ign_sendLine : forall line : list ascii, ignores_Location (sendLine line).
Proof. intros line. unfold sendLine. ign. Qed.

#[local] Hint Resolve ign_reopen ign_readLine ign_openReader ign_seekTo ign_sendLine : ign.

Lemma ign_waitForChanges : ignores_Location waitForChanges.
Proof. unfold waitForChanges. ign. Qed.

#[local] Hint Resolve ign_waitForChanges : ign.

Lemma ign_tailFileSync_loop :
  forall (fuel : nat) (offset : Z), ignores_Location (tailFileSync_loop fuel offset).
Proof.
  induction fuel as [| fuel IH]; intros offset; cbn [tailFileSync_loop].
  - auto with ign.
  - unfold tailFileSync_wait, tailFileSync_select. ign.
Qed.

(** C7.  The seek to [Location] belongs to the first open and to nothing
    else.  (1) After the first open, [tailFileSync] seeks the fresh
    descriptor to the configured position and starts the loop with a new
    reader there.  (2) When that seek fails (the file cannot seek, or the
    position is not one), the tail dies at once: no line is delivered,
    [Lines] is closed and the tomb's reason is the "Seek error on ..." error
    [Killf] builds.  (3) A reopen from [waitForChanges], after a truncation
    or, with [ReOpen] set, a deletion, leaves the new descriptor at cursor 0
    with a new reader, whatever [Location] says.  (4) The loop runs the same
    whatever [Location] is configured, so the position is applied once
    only. *)
Theorem Location_applies_to_first_open_only :
  (forall (s : State) (fd ino : nat) (p : Z),
      just_started s fd ino ->
      i_seekable (fs_inode (w_fs (world s)) ino) = true ->
      first_position (Location (cfg (tail s)))
                     (length (i_data (fs_inode (w_fs (world s)) ino))) = Some p ->
      exists s1 : State,
        tailFileSync_open s = Ok true s1
        /\ file (tail s1) = Some fd
        /\ reader (tail s1) = Some (bufio_NewReader (Some fd))
        /\ w_fds (world s1) fd = mkOpenFile (Filename (tail s)) ino p false)
  /\
  (forall (fuel : nat) (s : State) (fd ino : nat) (loc : SeekInfo),
      just_started s fd ino ->
      Location (cfg (tail s)) = Some loc ->
      i_seekable (fs_inode (w_fs (world s)) ino) = false
      \/ first_position (Some loc)
                        (length (i_data (fs_inode (w_fs (world s)) ino))) = None ->
      exists (e : Errno) (s' : State),
        tailFileSync fuel s = Ok tt s'
        /\ tomb (tail s')
           = mkTomb (Some (Errorf ("Seek error on " ++ Filename (tail s) ++ ": "
                                    ++ error_Error
                                         (PathError "seek" (Filename (tail s)) e))))
                    true true
        /\ delivered s' = []
        /\ closed (Lines (tail s')) = true)
  /\
  (forall (s : State) (fd ino : nat) (sig : Signal) (fs' : FS) (env : list EnvEvent),
      file (tail s) = Some fd ->
      fd < w_nfd (world s) ->
      can_watch s fd ->
      dying (tomb (tail s)) = false ->
      w_env (world s) = EnvNotify sig fs' :: env ->
      sig = SigTruncated \/ (sig = SigDeleted /\ ReOpen (cfg (tail s)) = true) ->
      fs_dir fs' (Filename (tail s)) = Present ino ->
      exists s' : State,
        waitForChanges s = Ok None s'
        /\ file (tail s') = Some (w_nfd (world s))
        /\ reader (tail s') = Some (bufio_NewReader (Some (w_nfd (world s))))
        /\ w_fds (world s') (w_nfd (world s))
           = mkOpenFile (Filename (tail s)) ino 0 false)
  /\
  (forall (fuel : nat) (offset : Z) (loc : option SeekInfo) (s : State),
      tailFileSync_loop fuel offset (relocate loc s)
      = map_Res (relocate loc) (tailFileSync_loop fuel offset s)).
Proof.
  conj.
  - intros s fd ino p Hjs Hsk Hfp.
    destruct (tailFileSync_open_first Hjs Hsk Hfp) as (s1 & H1 & H2 & H3 & H4 & _).
    exists s1. conj; assumption.
  - intros fuel s fd ino loc Hjs HL Hfail.
    exact (first_seek_failure_is_fatal fuel Hjs HL Hfail).
  - intros s fd ino sig fs' env Hf Hlt Hw Hdy Henv Hsig Hd.
    destruct (waitForChanges_reopens Hf Hlt Hw Hdy Henv Hsig Hd)
      as (s' & H1 & _ & H2 & H3 & H4 & _).
    exists s'. conj; assumption.
  - intros fuel offset loc s. apply ign_tailFileSync_loop.
Qed.

(** ** The theorems at work on the sample inputs *)

Lemma Sample_reading_at :
  forall (c : Config) (data : list ascii) (env : list EnvEvent),
    (Z.of_nat (length data) <= max_int64)%Z ->
    reading_at (Sample.reading c data env) 3 data.
Proof.
  intros c data env H. split; [reflexivity|].
  exists (bufio_NewReader (Some 3)). cbn.
  conj; try reflexivity; try exact H; unfold max_int64; lia.
Qed.

Lemma Sample_can_watch :
  forall (c : Config) (data : list ascii) (env : list EnvEvent),
    can_watch (Sample.reading c data env) 3.
Proof.
  intros c data env. right. split; [| reflexivity].
  unfold healthy. cbn. conj; try reflexivity; unfold max_int64; lia.
Qed.

Lemma partial_line_withheld_witness :
  exists s2 : State,
    tailFileSync_loop 2 0 (Sample.reading (Sample.config None false true false true)
                                          (Sample.bytes "b") [])
    = tailFileSync_wait (tailFileSync_select (tailFileSync_loop 1 0)) s2
    /\ Lines (tail s2) = mkLines [] false
    /\ of_pos (w_fds (world s2) 3) = 0%Z.
Proof.
  destruct (@partial_line_withheld
              1 0%Z (Sample.reading (Sample.config None false true false true)
                                    (Sample.bytes "b") [])
              3 (bufio_NewReader (Some 3)) (Sample.bytes "b"))
    as (s2 & H1 & H2 & H3 & _).
  - reflexivity.
  - reflexivity.
  - apply Sample_reading_at. vm_compute. discriminate.
  - reflexivity.
  - reflexivity.
  - vm_compute. intuition discriminate.
  - discriminate.
  - exists s2. conj; assumption.
Defined.

(** C2 does not hold with [Pipe] set.  On the regular file "a\nb", after
    "a" is delivered the turn that finds the fragment "b", which starts at
    offset 2, leaves the cursor at 0: the whole file, not the fragment, is
    what will be read next. *)
Lemma Pipe_fragment_rewinds_to_zero :
  Follow (Sample.config None false true true true) = true
  /\ skipn 2 Sample.ab = Sample.bytes "b"
  /\ exists s' : State,
      tailFileSync_loop 2 0 (Sample.reading (Sample.config None false true true true)
                                            Sample.ab [])
      = Fail Blocked s'
      /\ delivered s' = [Sample.bytes "a"]
      /\ of_pos (w_fds (world s') 3) = 0%Z
      /\ of_pos (w_fds (world s') 3) <> 2%Z
      /\ unread (world s') 3 = Sample.ab.
Proof.
  split; [reflexivity|]. split; [reflexivity|].
  eexists. split; [vm_compute; reflexivity|].
  conj; try reflexivity. cbn. discriminate.
Qed.

Lemma Truncated_always_reopens_witness :
  exists s' : State,
    waitForChanges (Sample.reading (Sample.config None false true false true) Sample.ab
                                   [EnvNotify SigTruncated (Sample.fs_log Sample.ab_nl)])
    = Ok None s'
    /\ file (tail s') = Some 4
    /\ w_fds (world s') 4 = mkOpenFile "log" 7 0 false.
Proof.
  destruct (@Truncated_always_reopens
              (Sample.reading (Sample.config None false true false true) Sample.ab
                              [EnvNotify SigTruncated (Sample.fs_log Sample.ab_nl)])
              3 7 (Sample.fs_log Sample.ab_nl) [])
    as (s' & H1 & _ & H2 & H3 & _).
  - reflexivity.
  - cbn. lia.
  - apply Sample_can_watch.
  - reflexivity.
  - reflexivity.
  - reflexivity.
  - exists s'. conj; assumption.
Defined.

Lemma Deleted_without_ReOpen_stops_cleanly_witness :
  exists s2 : State,
    (tailFileSync_loop 1 0 ;; close ;; Done)
      (Sample.reading (Sample.config None false true false true) []
                      [EnvNotify SigDeleted Sample.fs_none])
    = Ok tt s2
    /\ sent (Lines (tail s2)) = []
    /\ closed (Lines (tail s2)) = true
    /\ tomb (tail s2) = mkTomb None true true.
Proof.
  destruct (@Deleted_without_ReOpen_stops_cleanly
              0 0%Z
              (Sample.reading (Sample.config None false true false true) []
                              [EnvNotify SigDeleted Sample.fs_none])
              3 Sample.fs_none [])
    as (_ & H).
  - reflexivity.
  - reflexivity.
  - apply Sample_reading_at. unfold max_int64. cbn. lia.
  - apply Sample_can_watch.
  - reflexivity.
  - reflexivity.
  - reflexivity.
  - exact H.
Defined.

Lemma Location_applies_to_first_open_only_witness :
  (exists s1 : State,
      tailFileSync_open
        (mkState (mkTail "log" (mkLines [] false)
                         (Sample.config (Some (mkSeekInfo 2 SEEK_SET))
                                        false false false false)
                         None None (watch.NewInotifyFileWatcher "log") None Tomb_zero)
                 (Sample.world_of (Sample.fs_log Sample.ab_nl) []))
      = Ok true s1
      /\ w_fds (world s1) 3 = mkOpenFile "log" 7 2 false)
  /\
  (exists s' : State,
      waitForChanges
        (Sample.reading (Sample.config (Some (mkSeekInfo 2 SEEK_SET))
                                       true true false true) Sample.ab
                        [EnvNotify SigDeleted (Sample.fs_log Sample.ab_nl)])
      = Ok None s'
      /\ w_fds (world s') 4 = mkOpenFile "log" 7 0 false).
Proof.
  destruct Location_applies_to_first_open_only as (HA & _ & HC & _).
  split.
  - destruct (HA (mkState (mkTail "log" (mkLines [] false)
                                  (Sample.config (Some (mkSeekInfo 2 SEEK_SET))
                                                 false false false false)
                                  None None (watch.NewInotifyFileWatcher "log")
                                  None Tomb_zero)
                          (Sample.world_of (Sample.fs_log Sample.ab_nl) []))
                 3 7 2%Z)
      as (s1 & H1 & _ & _ & H2).
    + unfold just_started. cbn. conj; try reflexivity. left. conj; reflexivity.
    + reflexivity.
    + reflexivity.
    + exists s1. conj; assumption.
  - destruct (HC (Sample.reading (Sample.config (Some (mkSeekInfo 2 SEEK_SET))
                                                true true false true) Sample.ab
                                 [EnvNotify SigDeleted (Sample.fs_log Sample.ab_nl)])
                 3 7 SigDeleted (Sample.fs_log Sample.ab_nl) [])
      as (s' & H1 & _ & _ & H2).
    + reflexivity.
    + cbn. lia.
    + apply Sample_can_watch.
    + reflexivity.
    + reflexivity.
    + right. split; reflexivity.
    + reflexivity.
    + exists s'. conj; assumption.
Defined.

(** ** Scenarios *)

(** The file "a\nb" followed: "a" is delivered and "b" is held back while
    the tail waits; once "\nc\n" is appended, "b" and "c" follow. *)
Example follow_then_append :
  (exists s1 : State,
      tailFileSync 10 (Sample.fresh (Sample.config None false false false true)
                                    (Sample.world_of (Sample.fs_log Sample.ab) []))
      = Fail Blocked s1
      /\ delivered s1 = [Sample.bytes "a"])
  /\
  (exists s2 : State,
      tailFileSync 10 (Sample.fresh (Sample.config None false false false true)
                                    (Sample.world_of
                                       (Sample.fs_log Sample.ab)
                                       [EnvNotify SigModified (Sample.fs_log Sample.abc_nl);
                                        EnvStop]))
      = Ok tt s2
      /\ delivered s2 = [Sample.bytes "a"; Sample.bytes "b"; Sample.bytes "c"]
      /\ tomb (tail s2) = mkTomb None true true).
Proof.
  split; eexists; (split; [vm_compute; reflexivity|]); repeat split.
Qed.

(** With [ReOpen] set, a deletion followed by a new file at the path: the
    tail goes on with the new file from its start. *)
Example reopen_after_deletion :
  exists s' : State,
    tailFileSync 10 (Sample.fresh (Sample.config None true false false true)
                                  (Sample.world_of
                                     (Sample.fs_log Sample.ab_nl)
                                     [EnvNotify SigDeleted
                                        (Sample.fs_log (Sample.bytes "c" ++ [nl]));
                                      EnvStop]))
    = Ok tt s'
    /\ delivered s' = [Sample.bytes "a"; Sample.bytes "b"; Sample.bytes "c"].
Proof.
  eexists. split; [vm_compute; reflexivity|]. reflexivity.
Qed.

(** With [Pipe] set on a regular file no offset is recorded, and the
    fragment "b" sends the cursor back to 0: after the append the line "a"
    comes a second time. *)
Example Pipe_rewinds_to_the_start :
  exists s' : State,
    tailFileSync 10 (Sample.fresh (Sample.config None false false true true)
                                  (Sample.world_of
                                     (Sample.fs_log Sample.ab)
                                     [EnvNotify SigModified (Sample.fs_log Sample.abc_nl);
                                      EnvStop]))
    = Ok tt s'
    /\ delivered s'
       = [Sample.bytes "a"; Sample.bytes "a"; Sample.bytes "b"; Sample.bytes "c"].
Proof.
  eexists. split; [vm_compute; reflexivity|]. reflexivity.
Qed.

(** On a named pipe tailed with [Pipe] set, the fragment "b" makes
    [seekTo] fail: the tail ends with [ErrSeek] as its reason. *)
Example fragment_on_a_named_pipe :
  exists s' : State,
    tailFileSync 10 (Sample.fresh (Sample.config None false false true true)
                                  (Sample.world_of (Sample.fs_fifo Sample.ab) []))
    = Ok tt s'
    /\ delivered s' = [Sample.bytes "a"]
    /\ tomb (tail s') = mkTomb (Some ErrSeek) true true.
Proof.
  eexists. split; [vm_compute; reflexivity|]. split; reflexivity.
Qed.

(** * Further properties of the code *)

(** ** The lines of a content *)

Lemma split_lines_fragment :
  forall f cur : list ascii, ~ In nl f -> split_lines cur f = ([], cur ++ f).
Proof.
  induction f as [| c f IH]; intros cur H; cbn [split_lines].
  - rewrite app_nil_r. reflexivity.
  - destruct (Ascii.eqb_spec c nl) as [-> | Hc].
    + exfalso. apply H. left. reflexivity.
    + rewrite IH by (intros Hin; apply H; right; exact Hin).
      rewrite <- app_assoc. reflexivity.
Qed.

Lemma split_lines_terminated :
  forall l cur rest : list ascii,
    ~ In nl l ->
    split_lines cur (l ++ nl :: rest)
    = ((cur ++ l) :: fst (split_lines [] rest), snd (split_lines [] rest)).
Proof.
  induction l as [| c l IH]; intros cur rest H; cbn [split_lines app].
  - rewrite Ascii.eqb_refl, app_nil_r. reflexivity.
  - destruct (Ascii.eqb_spec c nl) as [-> | Hc].
    + exfalso. apply H. left. reflexivity.
    + rewrite IH by (intros Hin; apply H; right; exact Hin).
      rewrite <- app_assoc. reflexivity.
Qed.

Lemma split_lines_join :
  forall l cur : list ascii,
    ~ In nl cur ->
    cur ++ l = join_lines (fst (split_lines cur l)) (snd (split_lines cur l))
    /\ Forall (fun x : list ascii => ~ In nl x) (fst (split_lines cur l))
    /\ ~ In nl (snd (split_lines cur l)).
Proof.
  induction l as [| c l IH]; intros cur H; cbn [split_lines].
  - cbn. rewrite app_nil_r. conj; auto.
  - destruct (Ascii.eqb_spec c nl) as [-> | Hc]; cbn [fst snd].
    + destruct (IH [] (fun x => x)) as (E & HF & Hr).
      unfold join_lines in *. cbn [map concat app] in *.
      rewrite <- !app_assoc. cbn [app]. rewrite <- E. conj; auto.
    + destruct (IH (cur ++ [c])) as (E & HF & Hr).
      { intros Hin. apply in_app_or in Hin. destruct Hin as [Hin | [Hin | []]]; auto. }
      rewrite <- app_assoc in E. conj; auto.
Qed.

Lemma lines_of_join :
  forall (ls : list (list ascii)) (frag e : list ascii),
    Forall (fun x : list ascii => ~ In nl x) ls ->
    split_lines [] (join_lines ls frag ++ e)
    = (ls ++ fst (split_lines [] (frag ++ e)), snd (split_lines [] (frag ++ e))).
Proof.
  induction ls as [| l ls IH]; intros frag e H.
  - unfold join_lines. cbn. destruct (split_lines [] (frag ++ e)); reflexivity.
  - inversion H as [| ? ? Hl Hls]; subst.
    unfold join_lines in *. cbn [map concat]. rewrite <- !app_assoc. cbn [app].
    rewrite split_lines_terminated by exact Hl.
    rewrite app_assoc. rewrite (IH frag e Hls). reflexivity.
Qed.

Lemma lines_of_join_exact :
  forall (ls : list (list ascii)) (frag : list ascii),
    Forall (fun x : list ascii => ~ In nl x) ls ->
    ~ In nl frag ->
    lines_of (join_lines ls frag) = ls /\ rest_of (join_lines ls frag) = frag.
Proof.
  intros ls frag H Hf. unfold lines_of, rest_of.
  rewrite <- (app_nil_r (join_lines ls frag)).
  rewrite lines_of_join by exact H. rewrite app_nil_r.
  rewrite split_lines_fragment by exact Hf. cbn. rewrite app_nil_r. auto.
Qed.

Lemma lines_of_app :
  forall l e : list ascii,
    lines_of (l ++ e) = lines_of l ++ lines_of (rest_of l ++ e)
    /\ rest_of (l ++ e) = rest_of (rest_of l ++ e).
Proof.
  intros l e. unfold lines_of, rest_of.
  destruct (@split_lines_join l []) as (E & HF & Hr); [intros []|].
  destruct (split_lines [] l) as [ls f]. cbn [fst snd app] in *. subst l.
  rewrite lines_of_join by exact HF. cbn [fst snd]. auto.
Qed.

Lemma cut_line_whole :
  forall l : list ascii, fst (fst (cut_line l)) ++ snd (cut_line l) = l.
Proof.
  intros l. unfold cut_line. destruct (IndexByte l nl); cbn [fst snd].
  - apply firstn_skipn.
  - apply app_nil_r.
Qed.

(** ** A followed tail, from its start to its stop *)

Lemma session_refl : forall (fd : nat) (s : State), session fd s s.
Proof. intros. unfold session. conj; reflexivity. Qed.

Lemma session_trans :
  forall (fd : nat) (s1 s2 s3 : State),
    session fd s1 s2 -> session fd s2 s3 -> session fd s1 s3.
Proof.
  unfold session. intros fd s1 s2 s3 H1 H2.
  destruct H1 as (A1 & A2 & A3 & A4 & A5 & A6 & A7 & A8 & A9 & A10 & A11).
  destruct H2 as (B1 & B2 & B3 & B4 & B5 & B6 & B7 & B8 & B9 & B10 & B11).
  conj; congruence.
Qed.

Lemma session_moved :
  forall (fd : nat) (s : State) (t' : Tail) (w' : World),
    moved fd (world s) w' ->
    Filename t' = Filename (tail s) -> cfg t' = cfg (tail s) ->
    file t' = file (tail s) -> changes t' = changes (tail s) ->
    tomb t' = tomb (tail s) -> closed (Lines t') = closed (Lines (tail s)) ->
    session fd s (mkState t' w').
Proof.
  intros fd s t' w' (M1 & M2 & M3 & M4 & M5 & M6 & M7 & M8 & M9 & M10) H1 H2 H3 H4 H5 H6.
  unfold session. cbn [tail world]. conj; assumption.
Qed.

Lemma Tell_in_step :
  forall (s : State) (fd : nat) (l : list ascii) (offset : Z),
    Pipe (cfg (tail s)) = false ->
    in_step s fd l ->
    exists w1 : World,
      (if negb (Pipe (cfg (tail s))) then Tell else ret (offset, None)) s
      = Ok (told s fd, None) (mkState (tail s) w1)
      /\ in_step (mkState (tail s) w1) fd l
      /\ moved fd (world s) w1
      /\ told (mkState (tail s) w1) fd = told s fd.
Proof.
  intros s fd l offset HP (Hrd & Hsz & Hco).
  pose proof Hrd as (_ & r & Hr & _).
  destruct (record_offset_value offset Hrd Hr) as (w1 & Hrec & Hrd1 & Hm1 & Hp1).
  rewrite HP in Hrec. cbn [negb] in *.
  assert (Ht : told (mkState (tail s) w1) fd = told s fd).
  { unfold told. cbn [tail world]. rewrite Hp1. reflexivity. }
  exists w1. rewrite HP. cbn [negb]. unfold told at 1. rewrite Hr. conj; auto.
  unfold in_step. rewrite Ht. cbn [world]. rewrite (moved_inode Hm1), Hp1. conj; auto.
Qed.

Lemma readLine_in_step :
  forall (s : State) (fd : nat) (l : list ascii),
    in_step s fd l ->
    exists (r' : Reader) (w' : World),
      readLine s = Ok (trimmed (fst (cut_line l)))
                      (mkState (set_reader (Some r') (tail s)) w')
      /\ in_step (mkState (set_reader (Some r') (tail s)) w') fd (snd (cut_line l))
      /\ moved fd (world s) w'
      /\ told (mkState (set_reader (Some r') (tail s)) w') fd
         = (told s fd + Z.of_nat (length (fst (fst (cut_line l)))))%Z
      /\ rd_buf r' ++ unread w' fd = snd (cut_line l).
Proof.
  intros s fd l ((Hf & r & Hr & Hsrc & Herr & Hcl & Hsk & Hft & Hp & Hsz & Hl) & Hin & Hco).
  destruct (@ReadString_spec r (world s) fd)
    as (r' & w' & Hrun & Hs' & He' & Hm & Hrest & Hoff & Hlo & Hhi); auto; [lia|].
  rewrite Hl in *.
  pose proof (moved_inode Hm) as Hi.
  pose proof Hm as (_ & _ & _ & _ & _ & _ & _ & _ & _ & Hc).
  assert (Ht : told (mkState (set_reader (Some r') (tail s)) w') fd
               = (told s fd + Z.of_nat (length (fst (fst (cut_line l)))))%Z).
  { unfold told. cbn [tail world set_reader reader]. rewrite Hr. lia. }
  exists r', w'. conj; auto.
  - unfold readLine, bind, getTail, sys, modTail. rewrite Hr, Hrun.
    unfold trimmed.
    destruct (cut_line l) as [[raw [e|]] rest]; reflexivity.
  - unfold in_step. rewrite Ht. cbn [world]. rewrite Hi. conj.
    + split; [exact Hf|]. exists r'. cbn [tail world reader set_reader].
      rewrite Hi, Hc. conj; auto; lia.
    + lia.
    + unfold told in *. rewrite Hr in *.
      replace (Z.to_nat (of_pos (w_fds (world s) fd) - Z.of_nat (Buffered r)
                         + Z.of_nat (length (fst (fst (cut_line l))))))
        with (length (fst (fst (cut_line l)))
              + Z.to_nat (of_pos (w_fds (world s) fd) - Z.of_nat (Buffered r))) by lia.
      rewrite <- skipn_skipn, Hco.
      transitivity (skipn (length (fst (fst (cut_line l))))
                          (fst (fst (cut_line l)) ++ snd (cut_line l))).
      { f_equal. symmetry. apply cut_line_whole. }
      rewrite skipn_app, skipn_all, Nat.sub_diag. reflexivity.
Qed.

Lemma in_step_range :
  forall (s : State) (fd : nat) (l : list ascii),
    in_step s fd l -> (0 <= told s fd <= max_int64)%Z.
Proof.
  intros s fd l ((Hf & r & Hr & Hsrc & Herr & Hcl & Hsk & Hft & Hp & Hsz & Hl) & Hin & Hco).
  unfold told. rewrite Hr. lia.
Qed.

(** One round of a followed, seekable tail: every complete line is
    delivered, the fragment is left for later, and the loop reaches
    [waitForChanges]. *)
Lemma follow_round :
  forall (ls : list (list ascii)) (frag : list ascii) (k : nat) (offset : Z)
         (s : State) (fd : nat),
    Follow (cfg (tail s)) = true ->
    Pipe (cfg (tail s)) = false ->
    Forall (fun x : list ascii => ~ In nl x) ls ->
    ~ In nl frag ->
    in_step s fd (join_lines ls frag) ->
    closed (Lines (tail s)) = false ->
    dying (tomb (tail s)) = false ->
    exists (offset' : Z) (s2 : State),
      tailFileSync_loop (length ls + S k) offset s
      = tailFileSync_wait (tailFileSync_select (tailFileSync_loop k offset')) s2
      /\ delivered s2 = delivered s ++ ls
      /\ in_step s2 fd frag
      /\ session fd s s2.
Proof.
  induction ls as [| l ls IH];
    intros frag k offset s fd HF HP Hls Hfrag Hin Hcl Hdy;
    destruct (Tell_in_step offset HP Hin) as (w1 & Hrec & Hin1 & Hm1 & Ht1);
    destruct (readLine_in_step Hin1) as (r' & w2 & Hread & Hin2 & Hm2 & Ht2 & _);
    cbn [tail world] in *;
    pose proof (moved_trans Hm1 Hm2) as Hm;
    cbn [length Nat.add];
    cbn [tailFileSync_loop]; unfold bind at 1; unfold getTail;
    unfold bind at 1; rewrite Hrec; unfold bind at 1; rewrite Hread.
  - (* only the fragment is left *)
    unfold join_lines in *. cbn [map concat app] in *.
    rewrite cut_line_fragment in * by exact Hfrag.
    unfold trimmed. cbn [fst snd] in *. rewrite HF. cbn [negb andb].
    destruct frag as [| c frag]; cbn [nonempty].
    + unfold bind at 1. unfold ret at 1.
      eexists. eexists. split; [reflexivity|]. conj.
      * unfold delivered. cbn. rewrite app_nil_r. reflexivity.
      * exact Hin2.
      * apply session_moved; auto.
    + pose proof (in_step_range Hin) as Hrange.
      pose proof Hin as ((Hf & r & Hr & _ & _ & Hclo & Hsk & Hft & Hp & Hsz & _) & Hsize & Hco).
      pose proof (moved_inode Hm) as Hi.
      pose proof Hm as (_ & _ & _ & _ & _ & _ & _ & _ & Hino & Hcl2).
      set (off := told s fd) in *.
      set (w3 := fmt_Println (string_of_list_ascii (c :: frag)) w2).
      assert (Hseek : File_Seek (Some fd) off 0 w3
                      = ((off, None),
                         set_fd fd (mkOpenFile (of_name (w_fds w3 fd))
                                               (of_ino (w_fds w3 fd)) off false) w3)).
      { apply File_Seek_set.
        - cbn. rewrite Hcl2. exact Hclo.
        - change (inode_of w3 fd) with (inode_of w2 fd). rewrite Hi. exact Hsk.
        - exact Hrange. }
      unfold bind at 1. unfold bind at 1. unfold sys_ at 1. cbn [tail world].
      unfold seekTo, bind at 1, getTail. cbn [tail world set_reader file].
      rewrite Hf. unfold bind at 1, sys. cbn [tail world].
      fold w3. cbn [Offset Whence]. rewrite Hseek.
      cbn [reader]. unfold bind at 1, modTail. cbn [tail world]. unfold ret at 1.
      eexists. eexists. split; [reflexivity|].
      assert (Hin3 : inode_of (set_fd fd (mkOpenFile (of_name (w_fds w3 fd))
                                                     (of_ino (w_fds w3 fd)) off false) w3) fd
                     = inode_of (world s) fd).
      { transitivity (inode_of w2 fd); [| exact Hi].
        unfold inode_of, set_fd. cbn. rewrite Nat.eqb_refl. reflexivity. }
      assert (Hoff : (off <= of_pos (w_fds (world s) fd))%Z).
      { unfold off, told. rewrite Hr. lia. }
      conj.
      * unfold delivered. cbn. rewrite app_nil_r. reflexivity.
      * unfold in_step, told, unread.
        cbn [tail world set_reader reader]. rewrite Hin3.
        cbn [set_fd w_fds]. rewrite Nat.eqb_refl.
        cbn [of_pos bufio_NewReader Buffered rd_buf length].
        replace (off - Z.of_nat 0)%Z with off by lia.
        conj; try exact Hco; try lia.
        split; [exact Hf|]. exists (bufio_NewReader (Some fd)).
        cbn [tail world set_reader reader set_fd w_fds]. unfold unread.
        rewrite Hin3. cbn [set_fd w_fds]. rewrite Nat.eqb_refl.
        cbn [of_closed of_pos bufio_NewReader rd_src rd_err rd_buf Buffered length app].
        conj; auto; lia.
      * destruct Hm as (M1 & M2 & M3 & M4 & M5 & M6 & M7 & M8 & M9 & M10).
        unfold session. cbn. rewrite Nat.eqb_refl. cbn. conj; auto.
  - (* a complete line: delivered, and round again *)
    inversion Hls as [| ? ? Hl Hls']; subst.
    assert (Hj : join_lines (l :: ls) frag = (l ++ [nl]) ++ join_lines ls frag).
    { unfold join_lines. cbn [map concat]. rewrite <- app_assoc. reflexivity. }
    rewrite Hj in *. rewrite cut_line_terminated in * by exact Hl.
    unfold trimmed. cbn [fst snd] in *. rewrite TrimRight_nl_terminated by exact Hl.
    unfold bind at 1. rewrite sendLine_open by exact Hcl.
    unfold tailFileSync_select at 1. unfold bind at 1, getTail.
    cbn [tail set_Lines set_reader tomb]. rewrite Hdy.
    match goal with |- context [tailFileSync_loop (length ls + S k) (told s fd) ?x] =>
      set (s3 := x) end.
    destruct (IH frag k (told s fd) s3 fd) as (off' & s4 & Hrun & Hdel & Hin4 & Hse); auto.
    exists off', s4. split; [exact Hrun|]. conj.
    + rewrite Hdel. unfold delivered, s3. cbn. rewrite map_app. cbn.
      rewrite <- app_assoc. reflexivity.
    + exact Hin4.
    + eapply session_trans; [| exact Hse].
      destruct Hm as (M1 & M2 & M3 & M4 & M5 & M6 & M7 & M8 & M9 & M10).
      unfold session, s3. cbn. conj; auto.
Qed.

Lemma finish_any :
  forall s : State,
    closed (Lines (tail s)) = false ->
    dead (tomb (tail s)) = false ->
    exists s' : State,
      (close ;; Done) s = Ok tt s'
      /\ sent (Lines (tail s')) = sent (Lines (tail s))
      /\ closed (Lines (tail s')) = true
      /\ file (tail s') = None
      /\ tomb (tail s') = mkTomb (settled (reason (tomb (tail s)))) true true
      /\ w_env (world s') = w_env (world s)
      /\ w_stdout (world s') = w_stdout (world s).
Proof.
  intros s Hc Hd. open_state s. destruct ln as [snt cl]. destruct tb as [rs dy de].
  cbn in Hc, Hd. subst cl de.
  unfold close, closeFile, Done, Kill. run.
  destruct f; run; destruct rs as [[]|]; run;
    (eexists; split; [reflexivity|]); cbn; conj; reflexivity.
Qed.

(** [waitForChanges] up to its [select]: the notifier is at hand or set
    up, and nothing else changes but that. *)
Lemma waitForChanges_Modified :
  forall (s : State) (fd : nat) (fs' : FS) (env : list EnvEvent),
    file (tail s) = Some fd ->
    can_watch s fd ->
    dying (tomb (tail s)) = false ->
    w_env (world s) = EnvNotify SigModified fs' :: env ->
    exists s' : State,
      waitForChanges s = Ok None s'
      /\ Filename (tail s') = Filename (tail s)
      /\ cfg (tail s') = cfg (tail s)
      /\ file (tail s') = Some fd
      /\ reader (tail s') = reader (tail s)
      /\ Lines (tail s') = Lines (tail s)
      /\ tomb (tail s') = tomb (tail s)
      /\ changes (tail s') <> None
      /\ w_fs (world s') = fs'
      /\ w_env (world s') = env
      /\ w_watch_fault (world s') = w_watch_fault (world s)
      /\ w_nfd (world s') = w_nfd (world s)
      /\ of_pos (w_fds (world s') fd) = of_pos (w_fds (world s) fd)
      /\ of_ino (w_fds (world s') fd) = of_ino (w_fds (world s) fd)
      /\ of_closed (w_fds (world s') fd) = of_closed (w_fds (world s) fd).
Proof.
  intros s fd fs' env Hf Hw Hdy Henv.
  unfold waitForChanges. unfold bind at 1, getTail.
  destruct (changes (tail s)) as [fc|] eqn:Ech.
  - open_state s. subst.
    unfold select_changes. cbn in Hdy. run. rewrite Hdy. cbn.
    eexists. split; [reflexivity|]. cbn. conj; try reflexivity. discriminate.
  - destruct Hw as [Hw | [Hh Hwf]]; [congruence|].
    unfold bind at 1. unfold bind at 1. unfold sys. rewrite Hf.
    rewrite File_Seek_cur by exact Hh.
    destruct Hh as (Hc & _).
    open_state s. subst.
    unfold ChangeEvents, select_changes. cbn in Hdy, Hc. run. rewrite Hdy. cbn.
    eexists. split; [reflexivity|]. cbn. rewrite Nat.eqb_refl. cbn.
    conj; try reflexivity; [discriminate | symmetry; exact Hc].
Qed.

Lemma waitForChanges_Stop :
  forall (s : State) (fd : nat) (env : list EnvEvent),
    file (tail s) = Some fd ->
    can_watch s fd ->
    dying (tomb (tail s)) = false ->
    w_env (world s) = EnvStop :: env ->
    exists s' : State,
      waitForChanges s = Ok (Some ErrStop) s'
      /\ file (tail s') = Some fd
      /\ Lines (tail s') = Lines (tail s)
      /\ tomb (tail s')
         = mkTomb (settled (reason (tomb (tail s)))) true (dead (tomb (tail s)))
      /\ w_env (world s') = env.
Proof.
  intros s fd env Hf Hw Hdy Henv.
  unfold waitForChanges. unfold bind at 1, getTail.
  destruct (changes (tail s)) as [fc|] eqn:Ech.
  - open_state s. subst. destruct tb as [rs dy de]. cbn in Hdy. subst dy.
    unfold select_changes, stopped, take_env. run.
    destruct rs as [[]|]; (eexists; split; [reflexivity|]); cbn; conj; reflexivity.
  - destruct Hw as [Hw | [Hh Hwf]]; [congruence|].
    unfold bind at 1. unfold bind at 1. unfold sys. rewrite Hf.
    rewrite File_Seek_cur by exact Hh.
    open_state s. subst. destruct tb as [rs dy de]. cbn in Hdy. subst dy.
    unfold ChangeEvents, select_changes, stopped, take_env. run.
    destruct rs as [[]|]; (eexists; split; [reflexivity|]); cbn; conj; reflexivity.
Qed.

Lemma in_step_grow :
  forall (s s' : State) (fd : nat) (frag e : list ascii),
    in_step s fd frag ->
    file (tail s') = file (tail s) ->
    reader (tail s') = reader (tail s) ->
    w_fs (world s') = grow (w_fs (world s)) (of_ino (w_fds (world s) fd)) e ->
    of_pos (w_fds (world s') fd) = of_pos (w_fds (world s) fd) ->
    of_ino (w_fds (world s') fd) = of_ino (w_fds (world s) fd) ->
    of_closed (w_fds (world s') fd) = of_closed (w_fds (world s) fd) ->
    (Z.of_nat (length (i_data (inode_of (world s) fd)) + length e) <= max_int64)%Z ->
    in_step s' fd (frag ++ e)
    /\ i_data (inode_of (world s') fd) = i_data (inode_of (world s) fd) ++ e.
Proof.
  intros s s' fd frag e
         ((Hf & r & Hr & Hsrc & Herr & Hcl & Hsk & Hft & Hp & Hsz & Hl) & Hin & Hco)
         Ef Er Efs Ep Ei Ec Hmax.
  assert (Hi : inode_of (world s') fd
               = mkInode (i_data (inode_of (world s) fd) ++ e)
                         (i_seekable (inode_of (world s) fd))
                         (i_fault (inode_of (world s) fd))).
  { unfold inode_of. rewrite Efs, Ei. unfold grow. cbn. rewrite Nat.eqb_refl. reflexivity. }
  assert (Hskip : forall n : nat,
             n <= length (i_data (inode_of (world s) fd)) ->
             skipn n (i_data (inode_of (world s) fd) ++ e)
             = skipn n (i_data (inode_of (world s) fd)) ++ e).
  { intros n Hn. rewrite skipn_app. replace (n - _) with 0 by lia. reflexivity. }
  split; [| rewrite Hi; reflexivity].
  unfold in_step, reading_at, told, unread in *.
  rewrite Ef, Er, Ep, Ec, Hi, Hr in *. cbn [i_data i_seekable i_fault].
  rewrite length_app. rewrite !Hskip by lia.
  conj; auto; try lia.
  - exists r. conj; auto; try lia. rewrite app_assoc. rewrite Hl. reflexivity.
  - rewrite Hco. reflexivity.
Qed.

Lemma in_step_can_watch :
  forall (s : State) (fd : nat) (l : list ascii),
    in_step s fd l ->
    changes (tail s) <> None \/ w_watch_fault (world s) = None ->
    can_watch s fd.
Proof.
  intros s fd l (Hrd & _) [H | H]; [left; exact H | right].
  split; [eapply reading_at_healthy; exact Hrd | exact H].
Qed.

(** A followed, seekable tail whose file only grows: every complete line
    of what was there and of what is appended is delivered, once and in
    order, and the caller's [Stop] ends the loop. *)
Lemma follow_appends :
  forall (extras : list (list ascii)) (l : list ascii) (fuel : nat) (offset : Z)
         (s : State) (fd : nat) (rest : list EnvEvent),
    Follow (cfg (tail s)) = true ->
    Pipe (cfg (tail s)) = false ->
    in_step s fd l ->
    closed (Lines (tail s)) = false ->
    dying (tomb (tail s)) = false ->
    changes (tail s) <> None \/ w_watch_fault (world s) = None ->
    w_env (world s)
    = appends (w_fs (world s)) (of_ino (w_fds (world s) fd)) extras ++ EnvStop :: rest ->
    (Z.of_nat (length (i_data (inode_of (world s) fd)) + length (concat extras))
     <= max_int64)%Z ->
    length (lines_of (l ++ concat extras)) + length extras < fuel ->
    exists s' : State,
      tailFileSync_loop fuel offset s = Ok tt s'
      /\ delivered s' = delivered s ++ lines_of (l ++ concat extras)
      /\ closed (Lines (tail s')) = false
      /\ tomb (tail s')
         = mkTomb (settled (reason (tomb (tail s)))) true (dead (tomb (tail s)))
      /\ file (tail s') = Some fd
      /\ w_env (world s') = rest.
Proof.
  induction extras as [| e es IH];
    intros l fuel offset s fd rest HF HP Hin Hcl Hdy Hw Henv Hmax Hfuel;
    destruct (@split_lines_join l []) as (El & Hvalid & Hfrag); try (intros []);
    fold (lines_of l) in *; fold (rest_of l) in *; cbn [app] in El.
  - (* nothing more is appended: the round, then the stop *)
    cbn [concat appends app length] in *. rewrite app_nil_r in *.
    replace fuel with (length (lines_of l) + S (fuel - length (lines_of l) - 1)) by lia.
    rewrite El in Hin.
    destruct (@follow_round (lines_of l) (rest_of l) (fuel - length (lines_of l) - 1)
                            offset s fd)
      as (off' & s2 & Hrun & Hdel & Hin2 & Hse); auto.
    destruct Hse as (S1 & S2 & S3 & S4 & S5 & S6 & S7 & S8 & S9 & S10 & S11).
    pose proof Hin2 as ((Hf2 & _) & _).
    destruct (@waitForChanges_Stop s2 fd rest) as (s3 & Hwait & Hf3 & HL3 & Ht3 & He3); auto.
    { apply (in_step_can_watch Hin2). rewrite S4, S9. exact Hw. }
    { rewrite S5. exact Hdy. }
    { rewrite S10. exact Henv. }
    exists s3. conj; auto.
    + rewrite Hrun. unfold tailFileSync_wait, bind. rewrite Hwait. reflexivity.
    + unfold delivered in *. rewrite HL3. exact Hdel.
    + rewrite HL3, S6. exact Hcl.
    + rewrite Ht3, S5. reflexivity.
  - (* an append: the round, the signal, and the rest by induction *)
    cbn [concat appends app length] in *.
    destruct (lines_of_app l (e ++ concat es)) as (Elines & _).
    assert (Hk : length (lines_of ((rest_of l ++ e) ++ concat es)) + length es
                 < fuel - length (lines_of l) - 1).
    { rewrite <- app_assoc. rewrite Elines, length_app in Hfuel. lia. }
    replace fuel with (length (lines_of l) + S (fuel - length (lines_of l) - 1)) by lia.
    rewrite El in Hin.
    destruct (@follow_round (lines_of l) (rest_of l) (fuel - length (lines_of l) - 1)
                            offset s fd)
      as (off' & s2 & Hrun & Hdel & Hin2 & Hse); auto.
    destruct Hse as (S1 & S2 & S3 & S4 & S5 & S6 & S7 & S8 & S9 & S10 & S11).
    pose proof Hin2 as ((Hf2 & _) & _).
    set (fs' := grow (w_fs (world s)) (of_ino (w_fds (world s) fd)) e) in *.
    destruct (@waitForChanges_Modified s2 fd fs'
                (appends fs' (of_ino (w_fds (world s) fd)) es ++ EnvStop :: rest))
      as (s3 & Hwait & W1 & W2 & W3 & W4 & W5 & W6 & W7 & W8 & W9 & W10 & W11 & W12
          & W13 & W14); auto.
    { apply (in_step_can_watch Hin2). rewrite S4, S9. exact Hw. }
    { rewrite S5. exact Hdy. }
    { rewrite S10. exact Henv. }
    assert (Hdata2 : inode_of (world s2) fd = inode_of (world s) fd).
    { unfold inode_of. rewrite S7, S11. reflexivity. }
    destruct (@in_step_grow s2 s3 fd (rest_of l) e) as (Hin3 & Hdata3); auto.
    { rewrite W3, Hf2. reflexivity. }
    { rewrite W8, S7, S11. reflexivity. }
    { rewrite Hdata2. rewrite length_app in Hmax. lia. }
    destruct (IH (rest_of l ++ e) (fuel - length (lines_of l) - 1) off' s3 fd rest)
      as (s4 & Hloop & Hdel4 & Hcl4 & Ht4 & Hf4 & He4); auto.
    { rewrite W2, S2. exact HF. }
    { rewrite W2, S2. exact HP. }
    { rewrite W5, S6. exact Hcl. }
    { rewrite W6, S5. exact Hdy. }
    { rewrite W9, W8, W13, S11. reflexivity. }
    { rewrite Hdata3, Hdata2, length_app. rewrite length_app in Hmax. lia. }
    exists s4. conj; auto.
    + rewrite Hrun. unfold tailFileSync_wait, bind at 1. rewrite Hwait.
      unfold tailFileSync_select, bind, getTail. rewrite W6, S5, Hdy. exact Hloop.
    + rewrite Hdel4. unfold delivered in *. rewrite W5, Hdel, Elines.
      rewrite <- !app_assoc. reflexivity.
    + rewrite Ht4, W6, S5. reflexivity.
Qed.

Lemma first_open_frame :
  forall (s : State) (fd ino : nat),
    just_started s fd ino ->
    exists s0 : State,
      (if negb (MustExist (cfg (tail s))) then reopen else ret None) s = Ok None s0
      /\ file (tail s0) = Some fd
      /\ w_fds (world s0) fd = mkOpenFile (Filename (tail s)) ino 0 false
      /\ tail s0 = set_file (Some fd) (tail s)
      /\ w_fs (world s0) = w_fs (world s)
      /\ w_env (world s0) = w_env (world s)
      /\ w_watch_fault (world s0) = w_watch_fault (world s)
      /\ w_nfd (world s0)
         = (if MustExist (cfg (tail s)) then w_nfd (world s) else S (w_nfd (world s))).
Proof.
  intros s fd ino (HL & HT & Hst).
  destruct Hst as [(HM & Hf & -> & Hd) | (HM & Hf & Hfd)]; rewrite HM; cbn [negb].
  - open_state s. subst. unfold reopen, closeFile. run. rewrite Hd. run.
    eexists. split; [reflexivity|]. cbn. rewrite Nat.eqb_refl. conj; reflexivity.
  - exists s. conj; auto. destruct s as [t w]. destruct t. cbn in *. subst. reflexivity.
Qed.

Lemma tailFileSync_open_in_step :
  forall (s : State) (fd ino : nat) (p : Z),
    just_started s fd ino ->
    i_seekable (fs_inode (w_fs (world s)) ino) = true ->
    i_fault (fs_inode (w_fs (world s)) ino) = None ->
    first_position (Location (cfg (tail s)))
                   (length (i_data (fs_inode (w_fs (world s)) ino))) = Some p ->
    (p <= Z.of_nat (length (i_data (fs_inode (w_fs (world s)) ino))) <= max_int64)%Z ->
    exists s1 : State,
      tailFileSync_open s = Ok true s1
      /\ in_step s1 fd (skipn (Z.to_nat p) (i_data (fs_inode (w_fs (world s)) ino)))
      /\ cfg (tail s1) = cfg (tail s)
      /\ Lines (tail s1) = Lines (tail s)
      /\ tomb (tail s1) = tomb (tail s)
      /\ changes (tail s1) = changes (tail s)
      /\ w_fs (world s1) = w_fs (world s)
      /\ w_env (world s1) = w_env (world s)
      /\ w_watch_fault (world s1) = w_watch_fault (world s)
      /\ of_ino (w_fds (world s1) fd) = ino
      /\ Filename (tail s1) = Filename (tail s)
      /\ w_nfd (world s1)
         = (if MustExist (cfg (tail s)) then w_nfd (world s) else S (w_nfd (world s))).
Proof.
  intros s fd ino p Hjs Hsk Hft Hfp Hp.
  destruct (first_open_frame Hjs)
    as (s0 & Hrun & Hf0 & Hfd0 & Ht0 & Hfs0 & He0 & Hw0 & Hn0).
  pose proof (first_position_range _ _ Hfp) as Hrange.
  unfold tailFileSync_open. unfold bind at 1, getTail. unfold bind at 1.
  rewrite Hrun. cbn iota beta.
  assert (Hgoal :
    forall w1 : World,
      w_fds w1 fd = mkOpenFile (Filename (tail s)) ino p false ->
      w_fs w1 = w_fs (world s) -> w_env w1 = w_env (world s) ->
      w_watch_fault w1 = w_watch_fault (world s) ->
      w_nfd w1 = w_nfd (world s0) ->
      exists s1 : State,
        (openReader ;; ret true) (mkState (tail s0) w1) = Ok true s1
        /\ in_step s1 fd (skipn (Z.to_nat p) (i_data (fs_inode (w_fs (world s)) ino)))
        /\ cfg (tail s1) = cfg (tail s)
        /\ Lines (tail s1) = Lines (tail s)
        /\ tomb (tail s1) = tomb (tail s)
        /\ changes (tail s1) = changes (tail s)
        /\ w_fs (world s1) = w_fs (world s)
        /\ w_env (world s1) = w_env (world s)
        /\ w_watch_fault (world s1) = w_watch_fault (world s)
        /\ of_ino (w_fds (world s1) fd) = ino
        /\ Filename (tail s1) = Filename (tail s)
        /\ w_nfd (world s1)
           = (if MustExist (cfg (tail s)) then w_nfd (world s)
              else S (w_nfd (world s)))).
  { intros w1 Hfd1 Hfs1 He1 Hw1 Hn1.
    unfold openReader, bind, getTail, modTail, ret. cbn [tail world].
    eexists. split; [reflexivity|]. rewrite Ht0.
    unfold in_step, reading_at, told, unread, inode_of.
    cbn [tail world set_reader set_file reader file cfg Lines tomb changes Filename].
    rewrite Hfd1, Hfs1, Hn1, Hn0. cbn [of_ino of_pos of_closed bufio_NewReader rd_src rd_err rd_buf
                             Buffered length app].
    replace (p - Z.of_nat 0)%Z with p by lia.
    conj; auto; try lia.
    exists (bufio_NewReader (Some fd)). cbn. conj; auto; lia. }
  destruct (Location (cfg (tail s))) as [loc|] eqn:EL.
  - unfold bind at 1. unfold bind at 1. unfold getTail. unfold bind at 1. unfold sys.
    rewrite Hf0.
    rewrite (@first_position_seek (world s0) fd loc p).
    + unfold ret at 1. unfold bind at 1. cbn [tail world]. apply Hgoal.
      * cbn. rewrite Nat.eqb_refl, Hfd0. reflexivity.
      * cbn. exact Hfs0.
      * cbn. exact He0.
      * cbn. exact Hw0.
      * cbn. reflexivity.
    + rewrite Hfd0. reflexivity.
    + rewrite Hfd0. reflexivity.
    + unfold inode_of. rewrite Hfd0, Hfs0. exact Hsk.
    + unfold inode_of. rewrite Hfd0, Hfs0. exact Hfp.
  - cbn in Hfp. injection Hfp as <-. unfold bind at 1. unfold ret at 1.
    destruct s0 as [t0 w0]. cbn [tail world] in *. apply Hgoal; auto.
Qed.

(** X1. A followed tail delivers every line exactly once.  [File] starts
    a tail with [Follow] set and [Pipe] unset on an existing regular file;
    while it runs the chunks [extras] are appended to the file one after
    the other, each append followed by its [Modified] signal, and then the
    caller stops the tail.  The lines delivered are exactly the terminated
    lines of what follows the first read position in the file as it ends
    up, in order and each once, however the appends cut the lines; the
    unterminated rest is not delivered.  The run ends with [Lines] closed
    and a nil reason.  Enough turns of the loop are one per line and per
    append, and one more. *)
Theorem follow_delivers_every_line_once :
  forall (filename : string) (config : Config) (w : World) (t : Tail)
         (ino : nat) (data : list ascii) (p : Z) (extras : list (list ascii))
         (rest : list EnvEvent) (fuel : nat),
    Follow config = true ->
    Pipe config = false ->
    fr_tail (File filename config w) = Some t ->
    fs_dir (w_fs w) filename = Present ino ->
    fs_inode (w_fs w) ino = mkInode data true None ->
    first_position (Location config) (length data) = Some p ->
    (p <= Z.of_nat (length data))%Z ->
    w_watch_fault w = None ->
    w_env w = appends (w_fs w) ino extras ++ EnvStop :: rest ->
    (Z.of_nat (length data + length (concat extras)) <= max_int64)%Z ->
    length (lines_of (skipn (Z.to_nat p) data ++ concat extras)) + length extras < fuel ->
    exists s' : State,
      tailFileSync fuel (mkState t (fr_world (File filename config w))) = Ok tt s'
      /\ delivered s' = lines_of (skipn (Z.to_nat p) data ++ concat extras)
      /\ closed (Lines (tail s')) = true
      /\ tomb (tail s') = mkTomb None true true.
Proof.
  intros filename config w t ino data p extras rest fuel
         HF HP Ht Hd Hi Hfp Hp Hwf Henv Hmax Hfuel.
  destruct (File_just_started _ _ _ Ht Hd) as (Hjs & Hcfg & Hname & Hfs).
  assert (Hworld : w_env (fr_world (File filename config w)) = w_env w
                   /\ w_watch_fault (fr_world (File filename config w)) = w_watch_fault w).
  { unfold File in *.
    destruct (ReOpen config && negb (Follow config))%bool; [discriminate|].
    destruct (MustExist config); [| cbn; auto].
    unfold os_Open in *. cbn in *. rewrite Hd in *. cbn. auto. }
  destruct Hworld as (Henv0 & Hwf0).
  set (s0 := mkState t (fr_world (File filename config w))) in *.
  destruct (@tailFileSync_open_in_step s0 (w_nfd w) ino p Hjs)
    as (s1 & Hopen & Hin1 & Hc1 & HL1 & HT1 & Hch1 & Hfs1 & He1 & Hw1 & Hino1 & _).
  { cbn [world s0]. rewrite Hfs, Hi. reflexivity. }
  { cbn [world s0]. rewrite Hfs, Hi. reflexivity. }
  { cbn [world tail s0]. rewrite Hfs, Hi, Hcfg. exact Hfp. }
  { cbn [world s0]. rewrite Hfs, Hi. cbn [i_data]. lia. }
  destruct Hjs as (HL0 & HT0 & _). cbn [tail world s0] in *.
  rewrite Hfs, Hi in Hin1. cbn [i_data] in Hin1.
  assert (Hdata1 : i_data (inode_of (world s1) (w_nfd w)) = data).
  { unfold inode_of. rewrite Hino1, Hfs1, Hfs, Hi. reflexivity. }
  destruct (@follow_appends extras (skipn (Z.to_nat p) data) fuel 0%Z s1 (w_nfd w) rest)
    as (s2 & Hloop & Hdel & Hcl2 & Htb2 & Hf2 & _); auto.
  { rewrite Hc1, Hcfg. exact HF. }
  { rewrite Hc1, Hcfg. exact HP. }
  { rewrite HL1, HL0. reflexivity. }
  { rewrite HT1, HT0. reflexivity. }
  { right. rewrite Hw1, Hwf0. exact Hwf. }
  { rewrite He1, Henv0, Hfs1, Hfs, Hino1. exact Henv. }
  { rewrite Hdata1. exact Hmax. }
  destruct (@finish_any s2) as (s3 & Hfin & Hs3 & Hc3 & _ & Ht3 & _); auto.
  { rewrite Htb2, HT1, HT0. reflexivity. }
  exists s3. split.
  - unfold tailFileSync. unfold bind at 1. unfold bind at 1.
    rewrite Hopen. rewrite Hloop. exact Hfin.
  - conj; auto.
    + unfold delivered in *. rewrite Hs3, Hdel, HL1, HL0. reflexivity.
    + rewrite Ht3, Htb2, HT1, HT0. reflexivity.
Qed.

(** ** What a run never does *)

Lemma triple_ret :
  forall (A : Type) (P : State -> Prop) (a : A) (Q : A -> State -> Prop),
    (forall s : State, P s -> Q a s) -> triple P (ret a) Q.
Proof. intros A P a Q H s HP. cbn. auto. Qed.

Lemma triple_bind :
  forall (A B : Type) (P : State -> Prop) (m : M A) (Q : A -> State -> Prop)
         (k : A -> M B) (R : B -> State -> Prop),
    triple P m Q -> (forall a : A, triple (Q a) (k a) R) -> triple P (bind m k) R.
Proof.
  intros A B P m Q k R Hm Hk s HP. unfold bind. specialize (Hm s HP).
  destruct (m s) as [a s1 | f s1].
  - apply Hk. exact Hm.
  - exact Hm.
Qed.

Lemma triple_weaken :
  forall (A : Type) (P P' : State -> Prop) (m : M A) (Q Q' : A -> State -> Prop),
    triple P' m Q' ->
    (forall s : State, P s -> P' s) ->
    (forall (a : A) (s : State), Q' a s -> Q a s) ->
    triple P m Q.
Proof.
  intros A P P' m Q Q' Hm HP HQ s Hs. specialize (Hm s (HP s Hs)).
  destruct (m s) as [a s1 | [| msg |] s1]; auto.
Qed.

Lemma triple_getTail :
  forall P : State -> Prop, triple P getTail (fun t s => P s /\ t = tail s).
Proof. intros P s HP. cbn. auto. Qed.

Lemma triple_fail :
  forall (A : Type) (P : State -> Prop) (f : Failure) (Q : A -> State -> Prop),
    (forall msg : string, f <> Panicked msg) ->
    triple P (fun s : State => Fail f s) Q.
Proof.
  intros A P f Q H s HP. destruct f as [| msg |]; auto. exact (H msg eq_refl).
Qed.

Lemma at_work_weaken : forall (b : bool) (s : State), at_work b s -> at_work false s.
Proof. intros b s (H1 & H2 & H3 & _). unfold at_work. conj; auto. discriminate. Qed.

Lemma triple_sys :
  forall (A : Type) (b : bool) (op : World -> A * World),
    quiet op -> triple (at_work b) (sys op) (fun _ s => at_work b s).
Proof.
  intros A b op Hq s (H1 & H2 & (H3 & H4) & H5). unfold sys.
  destruct (Hq (world s)) as (E1 & E2). destruct (op (world s)) as [a w']. cbn in *.
  unfold at_work, env_ok. cbn. rewrite E1, E2. conj; auto.
Qed.

Lemma triple_sys_val :
  forall (A : Type) (b : bool) (op : World -> A * World) (R : A -> Prop),
    quiet op -> (forall w : World, R (fst (op w))) ->
    triple (at_work b) (sys op) (fun a s => at_work b s /\ R a).
Proof.
  intros A b op R Hq HR s Hs. pose proof (triple_sys Hq Hs) as H. unfold sys in *.
  specialize (HR (world s)). destruct (op (world s)) as [a w']. cbn in *. auto.
Qed.

Lemma triple_sys_ :
  forall (b : bool) (op : World -> World),
    (forall w : World, w_env (op w) = w_env w /\ w_watch_fault (op w) = w_watch_fault w) ->
    triple (at_work b) (sys_ op) (fun _ s => at_work b s).
Proof.
  intros b op Hq s (H1 & H2 & (H3 & H4) & H5). unfold sys_.
  destruct (Hq (world s)) as (E1 & E2).
  unfold at_work, env_ok. cbn. rewrite E1, E2. conj; auto.
Qed.

Lemma quiet_File_Seek :
  forall (f : option nat) (o wh : Z), quiet (File_Seek f o wh).
Proof.
  intros f o wh w. unfold File_Seek.
  destruct f as [fd|]; [| cbn; auto].
  destruct (of_closed _); [cbn; auto|].
  destruct (negb _); [cbn; auto|].
  destruct (Z.eqb wh SEEK_SET); [| destruct (Z.eqb wh SEEK_CUR);
                                    [| destruct (Z.eqb wh SEEK_END)]];
    cbv zeta; try (destruct (_ || _)%bool); cbn; auto.
Qed.

Lemma quiet_os_Open : forall name : string, quiet (os_Open name).
Proof. intros name w. unfold os_Open. destruct (fs_dir _ _); cbn; auto. Qed.

Lemma quiet_time_Now : quiet time_Now.
Proof. intros w. cbn. auto. Qed.

Lemma quiet_File_Read : forall (f : option nat) (n : nat), quiet (File_Read f n).
Proof.
  intros f n w. unfold File_Read.
  destruct f as [fd|]; [| cbn; auto].
  destruct (of_closed _); [cbn; auto|].
  destruct (i_fault _); [cbn; auto|].
  destruct n; [cbn; auto|].
  destruct (unread w fd); cbn; auto.
Qed.

Lemma quiet_ReadString_loop :
  forall (fuel : nat) (acc : list ascii) (r : Reader) (w : World),
    w_env (snd (ReadString_loop fuel nl acc r w)) = w_env w
    /\ w_watch_fault (snd (ReadString_loop fuel nl acc r w)) = w_watch_fault w.
Proof.
  induction fuel as [| fuel IH]; intros acc r w; cbn [ReadString_loop].
  - cbn. auto.
  - destruct (IndexByte (rd_buf r) nl); [cbn; auto|].
    destruct (rd_err r); [cbn; auto|].
    destruct (Nat.leb defaultBufSize (Buffered r)); [apply IH|].
    unfold fill.
    destruct (quiet_File_Read (rd_src r) (defaultBufSize - Buffered r) w) as (E1 & E2).
    destruct (File_Read (rd_src r) (defaultBufSize - Buffered r) w) as [[chunk err] w'].
    cbn in E1, E2. rewrite <- E1, <- E2. apply IH.
Qed.

(** The error of a failed [Seek] is the system's. *)
Lemma File_Seek_error :
  forall (f : option nat) (o wh : Z) (w : World) (e : error) (s : State),
    snd (fst (File_Seek f o wh w)) = Some e -> killable e s.
Proof.
  intros f o wh w e s. unfold File_Seek.
  destruct f as [fd|]; [| cbn; intros [= <-]; exact I].
  destruct (of_closed _); [cbn; intros [= <-]; exact I|].
  destruct (negb _); [cbn; intros [= <-]; exact I|].
  destruct (Z.eqb wh SEEK_SET); [| destruct (Z.eqb wh SEEK_CUR);
                                    [| destruct (Z.eqb wh SEEK_END)]];
    cbv zeta; try (destruct (_ || _)%bool); cbn; intros H; try discriminate;
    injection H as <-; exact I.
Qed.

Lemma triple_pre :
  forall (A : Type) (P P' : State -> Prop) (m : M A) (Q : A -> State -> Prop),
    triple P' m Q -> (forall s : State, P s -> P' s) -> triple P m Q.
Proof. intros A P P' m Q Hm HP. eapply triple_weaken; eauto. Qed.

Lemma triple_post :
  forall (A : Type) (P : State -> Prop) (m : M A) (Q Q' : A -> State -> Prop),
    triple P m Q' -> (forall (a : A) (s : State), Q' a s -> Q a s) -> triple P m Q.
Proof. intros A P m Q Q' Hm HQ. eapply triple_weaken; eauto. Qed.

Lemma triple_panic_never :
  forall (A : Type) (msg : string) (Q : A -> State -> Prop),
    triple (fun _ => False) (@panic A msg) Q.
Proof. intros A msg Q s []. Qed.

Lemma triple_modTail :
  forall (b b' : bool) (f : Tail -> Tail),
    (forall t : Tail,
        closed (Lines (f t)) = closed (Lines t)
        /\ tomb (f t) = tomb t
        /\ (b' = true -> (b = true -> reader t <> None) -> reader (f t) <> None)) ->
    triple (at_work b) (modTail f) (fun _ s => at_work b' s).
Proof.
  intros b b' f Hf s (H1 & H2 & H3 & H4). unfold modTail.
  destruct (Hf (tail s)) as (E1 & E2 & E3).
  unfold at_work. cbn. rewrite E1, E2. conj; auto.
Qed.

Lemma triple_Kill :
  forall (b : bool) (e : error),
    triple (fun s => at_work b s /\ killable e s) (Kill (Some e))
           (fun _ s => at_work b s).
Proof.
  intros b e s ((H1 & (Hd & Ha & Hs) & H3 & H4) & Hk).
  unfold Kill, at_work, tomb_ok, killable in *.
  destruct (tail s) as [fn ln c f r wt ch [rs dy de]]. cbn in *.
  destruct e; try contradiction;
    destruct rs as [[]|]; cbn;
      try (exfalso; apply (Ha Hk); reflexivity);
      conj; auto; try discriminate; try congruence.
Qed.

Lemma triple_Killf :
  forall (b : bool) (msg : string),
    triple (at_work b) (Killf msg) (fun _ s => at_work b s).
Proof.
  intros b msg. unfold Killf. eapply triple_pre; [apply triple_Kill|].
  intros s H. split; [exact H | exact I].
Qed.

Lemma env_ok_tail :
  forall (w : World) (ev : EnvEvent) (env : list EnvEvent) (fs : FS),
    env_ok w -> w_env w = ev :: env ->
    env_ok (set_env env w) /\ env_ok (set_fs fs (set_env env w)).
Proof.
  intros w ev env fs (H1 & H2) E. rewrite E in H1. inversion H1; subst.
  unfold env_ok. cbn. auto.
Qed.

Lemma tomb_ok_stopped :
  forall (s : State) (b : bool),
    at_work b s -> at_work b (stopped s) /\ dying (tomb (tail (stopped s))) = true.
Proof.
  intros s b (H1 & (Hd & Ha & Hs) & H3 & H4).
  unfold stopped, at_work, tomb_ok in *.
  destruct (tail s) as [fn ln c f r wt ch [rs dy de]]. cbn in *.
  destruct rs as [[]|]; cbn; conj; auto; try discriminate; try congruence.
Qed.

Lemma triple_BlockUntilExists :
  forall b : bool,
    triple (at_work b) BlockUntilExists
           (fun r s => at_work b s
                       /\ (r = Some tomb_ErrDying -> dying (tomb (tail s)) = true)).
Proof.
  intros b s Hs. unfold BlockUntilExists.
  destruct (dying (tomb (tail s))) eqn:Ed; [split; auto|].
  pose proof Hs as (H1 & H2 & H3 & H4).
  destruct (w_env (world s)) as [| [sig fs | fs | e |] env] eqn:Ee; auto.
  - destruct (env_ok_tail fs H3 Ee) as (_ & Hok).
    split; [| discriminate]. unfold at_work. cbn. conj; auto.
  - destruct (env_ok_tail (w_fs (world s)) H3 Ee) as (Hok & _).
    split.
    + unfold at_work, take_env. cbn. conj; auto.
    + intros [= ->]. destruct H3 as (H3 & _). rewrite Ee in H3.
      inversion H3 as [| ? ? Hb _]; subst. destruct Hb.
  - destruct (env_ok_tail (w_fs (world s)) H3 Ee) as (Hok & _).
    assert (Hw : at_work b (take_env env s)).
    { unfold at_work, take_env. cbn. conj; auto. }
    destruct (tomb_ok_stopped Hw) as (Hw' & Hdy). split; auto.
Qed.

Lemma triple_select_changes :
  forall b : bool, triple (at_work b) select_changes (fun _ s => at_work b s).
Proof.
  intros b s Hs. unfold select_changes.
  destruct (dying (tomb (tail s))) eqn:Ed; [auto|].
  pose proof Hs as (H1 & H2 & H3 & H4).
  destruct (w_env (world s)) as [| [sig fs | fs | e |] env] eqn:Ee; auto.
  - destruct (env_ok_tail fs H3 Ee) as (_ & Hok).
    unfold at_work. cbn. conj; auto.
  - destruct (env_ok_tail (w_fs (world s)) H3 Ee) as (Hok & _).
    assert (Hw : at_work b (take_env env s)).
    { unfold at_work, take_env. cbn. conj; auto. }
    destruct (tomb_ok_stopped Hw) as (Hw' & Hdy). auto.
Qed.

Lemma triple_ChangeEvents :
  forall (b : bool) (pos : Z),
    triple (at_work b) (ChangeEvents pos)
           (fun r s => at_work b s /\ killable_opt (snd r) s
                       /\ (snd r = None -> fst r <> None)).
Proof.
  intros b pos s Hs. unfold ChangeEvents.
  pose proof Hs as (H1 & H2 & (_ & H3) & H4).
  destruct (w_watch_fault (world s)) as [e|]; cbn.
  - conj; auto; [| discriminate]. destruct e; try contradiction; exact I.
  - conj; auto. discriminate.
Qed.

Lemma triple_pure :
  forall (A : Type) (phi : Prop) (P : State -> Prop) (m : M A) (Q : A -> State -> Prop),
    (forall s : State, P s -> phi) -> (phi -> triple P m Q) -> triple P m Q.
Proof. intros A phi P m Q H1 H2 s Hs. exact (H2 (H1 s Hs) s Hs). Qed.

Ltac drop_link := let s := fresh "s" in let H := fresh "H" in
                  intros s H; try (destruct H as [H _]); exact H.

Ltac tget := eapply triple_bind; [apply triple_getTail | intros ?t].

Lemma triple_closeFile :
  forall b : bool, triple (at_work b) closeFile (fun _ s => at_work b s).
Proof.
  intros b. unfold closeFile. tget.
  destruct (file t) as [fd|].
  - eapply triple_bind.
    + eapply triple_pre; [apply (@triple_sys_ b) | drop_link].
      intros w. cbn. auto.
    + intros ?u. apply triple_modTail. intros t'. cbn. auto.
  - apply triple_ret. drop_link.
Qed.

Lemma triple_reopen_loop :
  forall (b : bool) (n : nat),
    triple (at_work b) (reopen_loop n) (fun r s => at_work b s /\ killable_opt r s).
Proof.
  intros b. induction n as [| n IH]; cbn [reopen_loop].
  - apply triple_fail. discriminate.
  - tget. eapply triple_bind.
    { eapply triple_pre; [apply (@triple_sys _ b _ (quiet_os_Open (Filename t))) | drop_link]. }
    intros [f err]. eapply triple_bind.
    { apply (@triple_modTail b b). intros t'. cbn. auto. }
    intros ?u. destruct err as [e|].
    + destruct (os_IsNotExist e).
      * eapply triple_bind; [apply triple_BlockUntilExists|].
        intros r. destruct r as [e'|].
        -- destruct e'; try (apply triple_ret; intros s [H _]; split; [exact H | exact I]).
           apply triple_ret. intros s [H Hd]. split; [exact H | exact (Hd eq_refl)].
        -- eapply triple_pre; [apply IH | drop_link].
      * apply triple_ret. intros s H. split; [exact H | exact I].
    + apply triple_ret. intros s H. split; [exact H | exact I].
Qed.

Lemma triple_reopen :
  forall b : bool,
    triple (at_work b) reopen (fun r s => at_work b s /\ killable_opt r s).
Proof.
  intros b. unfold reopen. eapply triple_bind; [apply triple_closeFile|].
  intros ?u s H. exact (@triple_reopen_loop b _ s H).
Qed.

Lemma triple_Tell :
  triple (at_work true) Tell (fun r s => at_work true s /\ killable_opt (snd r) s).
Proof.
  unfold Tell. tget.
  apply (@triple_pure _ (reader t <> None)).
  { intros s [(_ & _ & _ & H) ->]. auto. }
  intros Hr. destruct (file t) as [fd|].
  - eapply triple_bind.
    { eapply triple_pre;
        [apply (@triple_sys_val _ true (File_Seek (Some fd) 0 SEEK_CUR)
                  (fun a => forall (e : error) (s : State), snd a = Some e -> killable e s))
        | drop_link].
      - apply quiet_File_Seek.
      - intros w e s. apply File_Seek_error. }
    intros [offset err]. destruct err as [e|].
    + apply triple_ret. intros s [H Hk]. split; [exact H | exact (Hk e s eq_refl)].
    + destruct (reader t) as [r|]; [| congruence].
      apply triple_ret. intros s [H _]. split; [exact H | exact I].
  - apply triple_ret. intros s [H _]. split; [exact H | exact I].
Qed.

Lemma quiet_ReadString :
  forall r : Reader,
    quiet (fun w => let '(res, r', w') := ReadString nl r w in ((res, r'), w')).
Proof.
  intros r w. unfold ReadString.
  pose proof (quiet_ReadString_loop (ReadString_turns r w) [] r w) as H.
  destruct (ReadString_loop (ReadString_turns r w) nl [] r w) as [[res r'] w'].
  exact H.
Qed.

Lemma triple_readLine :
  triple (at_work true) readLine (fun _ s => at_work true s).
Proof.
  unfold readLine. tget.
  apply (@triple_pure _ (reader t <> None)).
  { intros s [(_ & _ & _ & H) ->]. auto. }
  intros Hr. destruct (reader t) as [r|]; [| congruence].
  eapply triple_bind.
  { eapply triple_pre; [apply (@triple_sys _ true _ (quiet_ReadString r)) | drop_link]. }
  intros [[line err] r']. eapply triple_bind.
  { apply (@triple_modTail true true). intros t'. cbn. conj; auto.
    intros _ _. discriminate. }
  intros ?u. destruct err; apply triple_ret; auto.
Qed.

Lemma triple_seekTo :
  forall pos : SeekInfo,
    triple (at_work true) (seekTo pos) (fun r s => at_work true s /\ killable_opt r s).
Proof.
  intros pos. unfold seekTo. tget.
  apply (@triple_pure _ (reader t <> None)).
  { intros s [(_ & _ & _ & H) ->]. auto. }
  intros Hr. eapply triple_bind.
  { eapply triple_pre; [apply (@triple_sys _ true _ (quiet_File_Seek _ _ _)) | drop_link]. }
  intros [o err]. destruct err as [e|].
  - apply triple_ret. intros s H. split; [exact H | exact I].
  - destruct (reader t) as [r|]; [| congruence].
    eapply triple_bind.
    { apply (@triple_modTail true true). intros t'. cbn. conj; auto.
      intros _ _. discriminate. }
    intros ?u. apply triple_ret. intros s H. split; [exact H | exact I].
Qed.

Lemma triple_sendLine :
  forall (b : bool) (line : list ascii),
    triple (at_work b) (sendLine line) (fun _ s => at_work b s).
Proof.
  intros b line. unfold sendLine. eapply triple_bind.
  { apply (@triple_sys _ b _ quiet_time_Now). }
  intros now. tget.
  intros s [H ->]. pose proof H as (H1 & H2 & H3 & H4). rewrite H1.
  unfold modTail, at_work. cbn. conj; auto.
Qed.

Lemma triple_openReader :
  forall b : bool, triple (at_work b) openReader (fun _ s => at_work true s).
Proof.
  intros b. unfold openReader. tget.
  eapply triple_pre; [apply (@triple_modTail b true) | drop_link].
  intros t'. cbn. conj; auto. intros _ _. discriminate.
Qed.

(** What [waitForChanges] hands back: nil, [ErrStop], or an error fit for
    [Kill]. *)
Lemma triple_reopen_openReader :
  triple (at_work true)
         (e <- reopen ;;
          match e with
          | Some err => ret (Some err)
          | None => openReader ;; ret None
          end)
         (fun r s => at_work true s
                     /\ forall e : error, r = Some e -> e = ErrStop \/ killable e s).
Proof.
  eapply triple_bind; [apply triple_reopen|].
  intros [e|].
  - apply triple_ret. intros s [H Hk]. split; [exact H|].
    intros e' [= <-]. right. exact Hk.
  - eapply triple_bind.
    { eapply triple_pre; [apply (@triple_openReader true) | drop_link]. }
    intros ?u. apply triple_ret. intros s H. split; [exact H | discriminate].
Qed.

Lemma triple_waitForChanges :
  triple (at_work true) waitForChanges
         (fun r s => at_work true s
                     /\ forall e : error, r = Some e -> e = ErrStop \/ killable e s).
Proof.
  unfold waitForChanges. tget.
  eapply triple_bind with (Q := fun r s => at_work true s /\ killable_opt r s).
  - destruct (changes t).
    + apply triple_ret. intros s [H _]. split; [exact H | exact I].
    + eapply triple_bind.
      { eapply triple_pre;
          [apply (@triple_sys_val _ true (File_Seek (file t) 0 SEEK_CUR)
                    (fun a => forall (e : error) (s : State), snd a = Some e -> killable e s))
          | drop_link].
        - apply quiet_File_Seek.
        - intros w e s. apply File_Seek_error. }
      intros [pos err]. destruct err as [e|].
      * apply triple_ret. intros s [H Hk]. split; [exact H | exact (Hk e s eq_refl)].
      * eapply triple_bind.
        { eapply triple_pre; [apply (@triple_ChangeEvents true pos) | drop_link]. }
        intros [fc err]. cbn [fst snd].
        apply (@triple_pure _ (match err with
                               | Some e => backend_error e \/ True
                               | None => True
                               end)).
        { intros s _. destruct err; auto. }
        intros ?u. eapply triple_bind with (Q := fun _ s => at_work true s /\ killable_opt err s).
        { intros s (H & Hk & _). pose proof (@triple_modTail true true (set_changes fc)) as Hm.
          assert (Hf : forall t0 : Tail,
                     closed (Lines (set_changes fc t0)) = closed (Lines t0)
                     /\ tomb (set_changes fc t0) = tomb t0
                     /\ (true = true -> (true = true -> reader t0 <> None) ->
                         reader (set_changes fc t0) <> None)).
          { intros t0. cbn. auto. }
          specialize (Hm Hf s H). cbn in *. split; [exact Hm|].
          destruct err as [[]|]; cbn in *; auto. }
        intros ?u. apply triple_ret. auto.
  - intros [e|].
    + apply triple_ret. intros s [H Hk]. split; [exact H|].
      intros e' [= <-]. right. exact Hk.
    + eapply triple_bind.
      { eapply triple_pre; [apply (@triple_select_changes true) | drop_link]. }
      intros c. destruct c.
      * apply triple_ret. intros s H. split; [exact H | discriminate].
      * eapply triple_bind.
        { apply (@triple_modTail true true). intros t'. cbn. auto. }
        intros ?u. destruct (ReOpen (cfg t)).
        -- apply triple_reopen_openReader.
        -- apply triple_ret. intros s H. split; [exact H|]. intros e [= <-]. auto.
      * apply triple_reopen_openReader.
      * apply triple_ret. intros s H. split; [exact H|]. intros e [= <-]. auto.
Qed.

Lemma triple_select :
  forall again : M unit,
    triple (at_work true) again (fun _ s => at_work false s) ->
    triple (at_work true) (tailFileSync_select again) (fun _ s => at_work false s).
Proof.
  intros again H. unfold tailFileSync_select. tget.
  destruct (dying (tomb t)).
  - apply triple_ret. intros s [Hs _]. exact (at_work_weaken Hs).
  - eapply triple_pre; [exact H | drop_link].
Qed.

Lemma triple_Kill_opt :
  forall (b : bool) (e : error),
    triple (fun s => at_work b s /\ killable e s) (Kill (Some e))
           (fun _ s => at_work false s).
Proof.
  intros b e. eapply triple_post; [apply (@triple_Kill b e)|].
  intros ?u s H. exact (at_work_weaken H).
Qed.

Lemma triple_wait :
  forall again : M unit,
    triple (at_work true) again (fun _ s => at_work false s) ->
    triple (at_work true) (tailFileSync_wait again) (fun _ s => at_work false s).
Proof.
  intros again H. unfold tailFileSync_wait.
  eapply triple_bind; [apply triple_waitForChanges|].
  intros [e|].
  - destruct e;
      try (eapply triple_pre; [apply (@triple_Kill_opt true) |];
           intros s [Hs Hk]; split; [exact Hs|];
           destruct (Hk _ eq_refl) as [Hn | Hn]; [discriminate Hn | exact Hn]).
    apply triple_ret. intros s [Hs _]. exact (at_work_weaken Hs).
  - eapply triple_pre; [exact H | drop_link].
Qed.

Lemma triple_tailFileSync_loop :
  forall (fuel : nat) (offset : Z),
    triple (at_work true) (tailFileSync_loop fuel offset) (fun _ s => at_work false s).
Proof.
  induction fuel as [| fuel IH]; intros offset; cbn [tailFileSync_loop].
  - apply triple_fail. discriminate.
  - tget.
    eapply triple_bind with (Q := fun r s => at_work true s /\ killable_opt (snd r) s).
    { destruct (negb (Pipe (cfg t))).
      - eapply triple_pre; [apply triple_Tell | drop_link].
      - apply triple_ret. intros s [H _]. split; [exact H | exact I]. }
    intros [offset' err]. cbn [snd]. destruct err as [e|].
    { apply triple_Kill_opt. }
    eapply triple_bind.
    { eapply triple_pre; [apply triple_readLine | drop_link]. }
    intros [line err]. destruct err as [e|].
    + assert (HK : triple (at_work true)
                     (Killf ("Error reading " ++ Filename t ++ ": " ++ error_Error e))
                     (fun _ s => at_work false s)).
      { eapply triple_post; [apply (@triple_Killf true)|].
        intros ?u s H. exact (at_work_weaken H). }
      destruct e; try exact HK.
      destruct (negb (Follow (cfg t))).
      * destruct (nonempty line).
        -- eapply triple_post; [apply (@triple_sendLine true)|].
           intros ?u s H. exact (at_work_weaken H).
        -- apply triple_ret. intros s H. exact (at_work_weaken H).
      * eapply triple_bind with (Q := fun r s => at_work true s /\ killable_opt r s).
        { destruct (Follow (cfg t) && nonempty line)%bool.
          - eapply triple_bind.
            { apply (@triple_sys_ true). intros w. cbn. auto. }
            intros ?u. apply triple_seekTo.
          - apply triple_ret. intros s H. split; [exact H | exact I]. }
        intros [e|].
        -- apply triple_Kill_opt.
        -- eapply triple_pre; [| drop_link].
           apply triple_wait. apply triple_select. apply IH.
    + eapply triple_bind; [apply (@triple_sendLine true)|].
      intros ?u. apply triple_select. apply IH.
Qed.

Lemma triple_tailFileSync_open :
  triple (at_work false) tailFileSync_open
         (fun go s => if go then at_work true s else at_work false s).
Proof.
  unfold tailFileSync_open. tget.
  eapply triple_bind with (Q := fun r s => at_work false s /\ killable_opt r s).
  { destruct (negb (MustExist (cfg t))).
    - eapply triple_pre; [apply (@triple_reopen false) | drop_link].
    - apply triple_ret. intros s [H _]. split; [exact H | exact I]. }
  intros [e|].
  - assert (HK : triple (fun s => at_work false s /\ killable e s)
                   (Kill (Some e) ;; ret false)
                   (fun go s => if go then at_work true s else at_work false s)).
    { eapply triple_bind; [apply (@triple_Kill false e)|].
      intros ?u. apply triple_ret. auto. }
    destruct e; try exact HK.
    apply triple_ret. intros s [H _]. exact H.
  - eapply triple_bind with (Q := fun (r : option error) s => at_work false s).
    { destruct (Location (cfg t)) as [loc|].
      - eapply triple_bind; [apply triple_getTail | intros t'].
        eapply triple_bind.
        { eapply triple_pre; [apply (@triple_sys _ false _ (quiet_File_Seek _ _ _))|].
          intros s [[H _] _]. exact H. }
        intros [o err]. apply triple_ret. auto.
      - apply triple_ret. intros s [H _]. exact H. }
    intros [e|].
    + eapply triple_bind; [apply (@triple_Killf false)|].
      intros ?u. apply triple_ret. auto.
    + eapply triple_bind; [apply (@triple_openReader false)|].
      intros ?u. apply triple_ret. auto.
Qed.

Lemma triple_finish :
  triple (at_work false) (close ;; Done) (fun _ s => laid_to_rest s).
Proof.
  intros s (H1 & (Hd & Ha & Hs) & H3 & H4).
  destruct (finish_any s H1 Hd) as (s1 & E & _ & Hc & Hf & Ht & _).
  rewrite E. unfold laid_to_rest. rewrite Hc, Hf, Ht. cbn. conj; auto.
  - unfold settled. destruct (reason (tomb (tail s))) as [[]|]; discriminate.
  - unfold settled. destruct (reason (tomb (tail s))) as [[]|]; try discriminate; auto.
Qed.

Lemma triple_tailFileSync :
  forall fuel : nat,
    triple (at_work false) (tailFileSync fuel) (fun _ s => laid_to_rest s).
Proof.
  intros fuel. unfold tailFileSync.
  eapply triple_bind with (Q := fun _ s => at_work false s).
  - eapply triple_bind; [apply triple_tailFileSync_open|].
    intros [|].
    + apply triple_tailFileSync_loop.
    + apply triple_ret. auto.
  - intros ?u. apply triple_finish.
Qed.

Lemma File_at_work :
  forall (filename : string) (config : Config) (w : World) (t : Tail),
    env_ok w ->
    fr_tail (File filename config w) = Some t ->
    at_work false (mkState t (fr_world (File filename config w))).
Proof.
  intros filename config w t (H1 & H2). unfold File.
  destruct (ReOpen config && negb (Follow config))%bool; [discriminate|].
  destruct (MustExist config).
  - destruct (quiet_os_Open filename (fmt_Println filename w)) as (E1 & E2).
    destruct (os_Open filename (fmt_Println filename w)) as [[f [e|]] w2];
      cbn in *; [discriminate|].
    intros [= <-]. unfold at_work, tomb_ok, env_ok. cbn. rewrite E1, E2.
    conj; auto; discriminate.
  - cbn. intros [= <-]. unfold at_work, tomb_ok, env_ok. cbn.
    conj; auto; discriminate.
Qed.

(** X2. Whatever the configuration, the file system and the events, a
    run of [tailFileSync] on a tail that [File] started never panics: the
    reader is never used while nil, [Lines] is neither sent on after its
    close nor closed twice, the tomb is not killed with [ErrDying] while
    alive, and [Done] runs once.  The watcher backend is taken to report
    failures of its own, which are neither the sentinels of [tomb] nor
    [ErrStop]. *)
Theorem tailFileSync_never_panics :
  forall (filename : string) (config : Config) (w : World) (t : Tail) (fuel : nat),
    env_ok w ->
    fr_tail (File filename config w) = Some t ->
    ~ panicked (tailFileSync fuel (mkState t (fr_world (File filename config w)))).
Proof.
  intros filename config w t fuel Hw Ht.
  pose proof (triple_tailFileSync fuel (File_at_work _ _ Hw Ht)) as H.
  unfold panicked.
  destruct (tailFileSync fuel (mkState t (fr_world (File filename config w))))
    as [a s1 | [| msg |] s1]; auto.
Qed.

(** X3. Whenever a run of [tailFileSync] returns, [Lines] is closed, no
    file is left in [file], the tomb is dying and dead, and its reason is
    neither [ErrStillAlive] nor [ErrStop]: the sentinel that ends the loop
    never reaches the caller of [Wait]. *)
Theorem tailFileSync_lays_to_rest :
  forall (filename : string) (config : Config) (w : World) (t : Tail) (fuel : nat)
         (s' : State),
    env_ok w ->
    fr_tail (File filename config w) = Some t ->
    tailFileSync fuel (mkState t (fr_world (File filename config w))) = Ok tt s' ->
    laid_to_rest s'.
Proof.
  intros filename config w t fuel s' Hw Ht E.
  pose proof (triple_tailFileSync fuel (File_at_work _ _ Hw Ht)) as H.
  rewrite E in H. exact H.
Qed.

(** ** Stopping *)

Lemma wd_ret : forall (A : Type) (a : A) (Q : A -> Prop), Q a -> winds_down (ret a) Q.
Proof. intros A a Q H s Hd. cbn. auto. Qed.

Lemma wd_bind :
  forall (A B : Type) (m : M A) (k : A -> M B) (Q : A -> Prop) (R : B -> Prop),
    winds_down m Q -> (forall a : A, Q a -> winds_down (k a) R) ->
    winds_down (bind m k) R.
Proof.
  intros A B m k Q R Hm Hk s Hd. unfold bind. specialize (Hm s Hd).
  destruct (m s) as [a s1 | f s1]; [| exact Hm].
  destruct Hm as (Hd1 & HL & HQ). specialize (Hk a HQ s1 Hd1).
  destruct (k a s1) as [b s2 | f s2]; [| exact Hk].
  destruct Hk as (Hd2 & HL2 & HR). conj; auto. congruence.
Qed.

Lemma wd_weaken :
  forall (A : Type) (m : M A) (Q Q' : A -> Prop),
    winds_down m Q -> (forall a : A, Q a -> Q' a) -> winds_down m Q'.
Proof.
  intros A m Q Q' Hm HQ s Hd. specialize (Hm s Hd).
  destruct (m s) as [a s1 | f s1]; [| exact Hm].
  destruct Hm as (H1 & H2 & H3). auto.
Qed.

Lemma wd_getTail :
  winds_down getTail (fun t => dying (tomb t) = true).
Proof. intros s Hd. cbn. auto. Qed.

Lemma wd_sys :
  forall (A : Type) (op : World -> A * World), winds_down (sys op) (@anything A).
Proof.
  intros A op s Hd. unfold sys. destruct (op (world s)). cbn. unfold anything. auto.
Qed.

Lemma wd_sys_ : forall op : World -> World, winds_down (sys_ op) (@anything unit).
Proof. intros op s Hd. cbn. unfold anything. auto. Qed.

Lemma wd_panic :
  forall (A : Type) (msg : string) (Q : A -> Prop), winds_down (@panic A msg) Q.
Proof. intros A msg Q s Hd. exact I. Qed.

Lemma wd_modTail :
  forall f : Tail -> Tail,
    (forall t : Tail, tomb (f t) = tomb t /\ Lines (f t) = Lines t) ->
    winds_down (modTail f) (@anything unit).
Proof.
  intros f Hf s Hd. destruct (Hf (tail s)) as (E1 & E2). cbn.
  rewrite E1, E2. unfold anything. auto.
Qed.

Lemma wd_Kill : forall r : option error, winds_down (Kill r) (@anything unit).
Proof.
  intros r s Hd. unfold Kill, Tomb_Kill.
  destruct r as [[]|]; cbn; unfold anything; auto.
  destruct (reason (tomb (tail s))) as [[]|]; cbn; auto.
Qed.

Lemma wd_ChangeEvents :
  forall pos : Z,
    winds_down (ChangeEvents pos)
               (@anything (option watch.FileChanges * option error)).
Proof.
  intros pos s Hd. unfold ChangeEvents.
  destruct (w_watch_fault (world s)); cbn; unfold anything; auto.
Qed.

Lemma wd_select_changes : winds_down select_changes (fun c => c = caseDying).
Proof. intros s Hd. unfold select_changes. rewrite Hd. auto. Qed.

Create HintDb wd.
#[local] Hint Resolve wd_getTail wd_sys wd_sys_ wd_panic wd_Kill wd_ChangeEvents : wd.

Ltac wd_any :=
  eapply wd_weaken; [solve [auto with wd] | intros; exact I].

Ltac wd_step :=
  match goal with
  | |- winds_down (bind _ _) _ =>
      eapply wd_bind;
      [first [solve [auto with wd] | apply wd_modTail; intros ?; cbn; auto]
      | intros ? ?]
  | |- winds_down (ret _) _ => apply wd_ret; exact I
  | |- winds_down (panic _) _ => apply wd_panic
  | |- winds_down (modTail _) _ =>
      eapply wd_weaken; [apply wd_modTail; intros ?; cbn; auto | intros; exact I]
  | |- winds_down (match ?x with _ => _ end) _ => destruct x
  | |- winds_down _ _ => wd_any
  end.

Ltac wd := repeat wd_step.

Lemma wd_Killf : forall msg : string, winds_down (Killf msg) (@anything unit).
Proof. intros msg. apply wd_Kill. Qed.

Lemma wd_Tell : winds_down Tell (@anything (Z * option error)).
Proof. unfold Tell. wd. Qed.

Lemma wd_readLine : winds_down readLine (@anything (list ascii * option error)).
Proof. unfold readLine. wd. Qed.

Lemma wd_seekTo :
  forall pos : SeekInfo, winds_down (seekTo pos) (@anything (option error)).
Proof. intros pos. unfold seekTo. wd. Qed.

#[local] Hint Resolve wd_Killf wd_Tell wd_readLine wd_seekTo : wd.

Lemma wd_waitForChanges :
  winds_down waitForChanges (fun r => r <> None).
Proof.
  unfold waitForChanges.
  eapply wd_bind; [apply wd_getTail | intros t Ht].
  eapply wd_bind with (Q := @anything (option error)).
  { wd. }
  intros [e|] _.
  - apply wd_ret. discriminate.
  - eapply wd_bind; [apply wd_select_changes|].
    intros c ->. apply wd_ret. discriminate.
Qed.

Lemma wd_tailFileSync_select :
  forall again : M unit, winds_down (tailFileSync_select again) (@anything unit).
Proof.
  intros again. unfold tailFileSync_select.
  eapply wd_bind; [apply wd_getTail | intros t Ht].
  rewrite Ht. apply wd_ret. exact I.
Qed.

Lemma wd_tailFileSync_wait :
  forall again : M unit, winds_down (tailFileSync_wait again) (@anything unit).
Proof.
  intros again. unfold tailFileSync_wait.
  eapply wd_bind; [apply wd_waitForChanges|].
  intros [e|] He; [| congruence].
  destruct e; wd.
Qed.

(** [sendLine] under a dying tomb: one more line, the tomb as it was. *)
Lemma sendLine_dying :
  forall (line : list ascii) (s : State),
    dying (tomb (tail s)) = true ->
    match sendLine line s with
    | Ok _ s' => dying (tomb (tail s')) = true
                 /\ delivered s' = delivered s ++ [line]
    | Fail (Panicked _) _ => True
    | Fail _ _ => False
    end.
Proof.
  intros line s Hd. unfold sendLine, bind, sys, getTail, time_Now. cbn.
  destruct (closed (Lines (tail s))); cbn; [exact I|].
  split; [exact Hd|]. unfold delivered. cbn. rewrite map_app. reflexivity.
Qed.

Lemma wd_one_more :
  forall (m : M unit) (Q : unit -> Prop) (s : State),
    winds_down m Q -> dying (tomb (tail s)) = true -> one_more s (m s).
Proof.
  intros m Q s Hm Hd. specialize (Hm s Hd). unfold one_more.
  destruct (m s) as [a s1 | f s1]; [| exact Hm].
  destruct Hm as (_ & HL & _). left. unfold delivered. rewrite HL. reflexivity.
Qed.

Lemma one_more_bind :
  forall (A : Type) (m : M A) (k : A -> M unit) (Q : A -> Prop) (s : State),
    winds_down m Q ->
    dying (tomb (tail s)) = true ->
    (forall (a : A) (s1 : State),
        dying (tomb (tail s1)) = true -> delivered s1 = delivered s ->
        one_more s1 (k a s1)) ->
    one_more s (bind m k s).
Proof.
  intros A m k Q s Hm Hd Hk. unfold bind. specialize (Hm s Hd).
  destruct (m s) as [a s1 | f s1]; [| exact Hm].
  destruct Hm as (Hd1 & HL & _).
  assert (E : delivered s1 = delivered s) by (unfold delivered; rewrite HL; reflexivity).
  specialize (Hk a s1 Hd1 E). unfold one_more in *.
  destruct (k a s1) as [[] s2 | f s2]; [| exact Hk]. rewrite <- E. exact Hk.
Qed.

Lemma sendLine_one_more :
  forall (line : list ascii) (k : M unit) (Q : unit -> Prop) (s : State),
    winds_down k Q ->
    dying (tomb (tail s)) = true ->
    one_more s ((sendLine line ;; k) s).
Proof.
  intros line k Q s Hk Hd. unfold bind.
  pose proof (@sendLine_dying line s Hd) as H.
  destruct (sendLine line s) as [[] s1 | f s1]; [| exact H].
  destruct H as (Hd1 & E). specialize (Hk s1 Hd1). unfold one_more.
  destruct (k s1) as [[] s2 | f s2]; [| exact Hk].
  destruct Hk as (_ & HL & _). right. exists line.
  unfold delivered in *. rewrite HL. exact E.
Qed.

Lemma loop_dying :
  forall (k : nat) (offset : Z) (s : State),
    dying (tomb (tail s)) = true ->
    one_more s (tailFileSync_loop (S k) offset s).
Proof.
  intros k offset s Hd. cbn [tailFileSync_loop].
  eapply one_more_bind; [apply wd_getTail | exact Hd |].
  intros t s1 Hd1 E1.
  eapply one_more_bind with (Q := @anything (Z * option error)); [| exact Hd1 |].
  { destruct (negb (Pipe (cfg t))); wd. }
  intros [offset' err] s2 Hd2 E2. destruct err as [e|].
  { eapply wd_one_more; [apply wd_Kill | exact Hd2]. }
  eapply one_more_bind; [apply wd_readLine | exact Hd2 |].
  intros [line err] s3 Hd3 E3. destruct err as [e|].
  - assert (HK : one_more s3 (Killf ("Error reading " ++ Filename t ++ ": "
                                      ++ error_Error e) s3)).
    { eapply wd_one_more; [apply wd_Killf | exact Hd3]. }
    destruct e; try exact HK.
    destruct (negb (Follow (cfg t))).
    + destruct (nonempty line).
      * pose proof (@sendLine_dying line s3 Hd3) as H. unfold one_more.
        destruct (sendLine line s3) as [[] s4 | f s4]; [| exact H].
        right. exists line. apply H.
      * left. reflexivity.
    + eapply one_more_bind with (Q := @anything (option error)); [| exact Hd3 |].
      { destruct (Follow (cfg t) && nonempty line)%bool; wd. }
      intros [e|] s4 Hd4 E4.
      * eapply wd_one_more; [apply wd_Kill | exact Hd4].
      * eapply wd_one_more; [apply wd_tailFileSync_wait | exact Hd4].
  - eapply sendLine_one_more; [apply wd_tailFileSync_select | exact Hd3].
Qed.


Lemma Stop_at_rest :
  forall s : State,
    laid_to_rest s -> Stop s = Ok (reason (tomb (tail s))) s.
Proof.
  intros s (H1 & H2 & H3 & H4 & H5 & H6). unfold Stop, bind, Kill, Wait, Tomb_Kill.
  destruct s as [[fn ln c f r wt ch [rs dy de]] w]. cbn in *. subst dy de.
  destruct rs as [[]|]; cbn; try reflexivity. congruence.
Qed.

(** X5. [Stop] on a tail whose run has returned comes back at once with the
    reason the run ended with, which is never [ErrStop], and changes
    nothing. *)
Theorem Stop_after_the_run :
  forall (filename : string) (config : Config) (w : World) (t : Tail) (fuel : nat)
         (s' : State),
    env_ok w ->
    fr_tail (File filename config w) = Some t ->
    tailFileSync fuel (mkState t (fr_world (File filename config w))) = Ok tt s' ->
    Stop s' = Ok (reason (tomb (tail s'))) s'
    /\ reason (tomb (tail s')) <> Some ErrStop.
Proof.
  intros filename config w t fuel s' Hw Ht E.
  pose proof (triple_tailFileSync fuel (File_at_work _ _ Hw Ht)) as H.
  rewrite E in H. split; [apply Stop_at_rest; exact H | apply H].
Qed.

(** ** [Tell] and [readLine] together *)

Lemma Tell_told :
  forall (s : State) (fd : nat) (l : list ascii),
    in_step s fd l ->
    exists w1 : World,
      Tell s = Ok (told s fd, None) (mkState (tail s) w1)
      /\ in_step (mkState (tail s) w1) fd l
      /\ told (mkState (tail s) w1) fd = told s fd.
Proof.
  intros s fd l (Hrd & Hsz & Hco).
  pose proof Hrd as (_ & r & Hr & _).
  destruct (Tell_reading Hrd) as (w1 & Hrun & Hm1 & Hp1 & Hrd1).
  assert (Ht : told (mkState (tail s) w1) fd = told s fd).
  { unfold told. cbn [tail world]. rewrite Hp1. reflexivity. }
  exists w1. conj; auto.
  - rewrite (Hrun r Hr). unfold told. rewrite Hr. reflexivity.
  - unfold in_step. rewrite Ht. cbn [world]. rewrite (moved_inode Hm1), Hp1. conj; auto.
Qed.

(** X6. On a regular file [Tell] keeps count of what [readLine] took: with
    a terminated line next, the offset [Tell] gives after [readLine] is the
    one it gave before plus the length of the line and its terminator, and
    the file holds from that offset what is still to be read. *)
Theorem Tell_counts_the_line_read :
  forall (s : State) (fd : nat) (line rest : list ascii),
    in_step s fd (line ++ nl :: rest) ->
    ~ In nl line ->
    exists (o : Z) (s0 s1 s2 : State),
      Tell s = Ok (o, None) s0
      /\ readLine s0 = Ok (line, None) s1
      /\ Tell s1 = Ok ((o + Z.of_nat (length line) + 1)%Z, None) s2
      /\ skipn (Z.to_nat (o + Z.of_nat (length line) + 1))
               (i_data (inode_of (world s2) fd)) = rest.
Proof.
  intros s fd line rest Hin Hnl.
  destruct (Tell_told Hin) as (w0 & HT0 & Hin0 & Ht0).
  destruct (readLine_in_step Hin0) as (r1 & w1 & HR & Hin1 & _ & Ht1 & _).
  replace (line ++ nl :: rest) with ((line ++ [nl]) ++ rest) in HR, Hin1, Ht1
    by (rewrite <- app_assoc; reflexivity).
  rewrite (@cut_line_terminated line rest Hnl) in HR, Hin1, Ht1.
  cbn [fst snd] in *. unfold trimmed in HR. cbn [fst snd] in HR.
  rewrite (@TrimRight_nl_terminated line Hnl) in HR.
  destruct (Tell_told Hin1) as (w2 & HT2 & Hin2 & Ht2).
  rewrite length_app in Ht1. cbn [length] in Ht1.
  assert (E : told (mkState (set_reader (Some r1) (tail (mkState (tail s) w0))) w1) fd
              = (told s fd + Z.of_nat (length line) + 1)%Z).
  { rewrite Ht1, Ht0. lia. }
  eexists (told s fd), _, _, _. conj.
  - exact HT0.
  - exact HR.
  - rewrite <- E. exact HT2.
  - destruct Hin2 as (_ & _ & Hco). rewrite Ht2, E in Hco. exact Hco.
Qed.

(** ** Waiting for the file to exist *)

Lemma reopen_loop_waits :
  forall (fss : list FS) (s : State) (fs1 : FS) (ino : nat) (rest : list EnvEvent)
         (n : nat),
    dying (tomb (tail s)) = false ->
    fs_dir (w_fs (world s)) (Filename (tail s)) = Absent ->
    Forall (fun fs : FS => fs_dir fs (Filename (tail s)) = Absent) fss ->
    fs_dir fs1 (Filename (tail s)) = Present ino ->
    w_env (world s) = map EnvAppear fss ++ EnvAppear fs1 :: rest ->
    length fss + 1 < n ->
    exists s' : State,
      reopen_loop n s = Ok None s'
      /\ file (tail s') = Some (w_nfd (world s))
      /\ w_fds (world s') (w_nfd (world s))
         = mkOpenFile (Filename (tail s)) ino 0 false
      /\ w_fs (world s') = fs1
      /\ w_env (world s') = rest
      /\ reader (tail s') = reader (tail s)
      /\ Lines (tail s') = Lines (tail s)
      /\ tomb (tail s') = tomb (tail s)
      /\ changes (tail s') = changes (tail s).
Proof.
  induction fss as [| fs0 fss IH]; intros s fs1 ino rest n Hd Ha Hall Hp He Hn.
  - destruct n as [| [| n]]; try (cbn in Hn; lia).
    open_state s. cbn in He. subst env.
    cbn [reopen_loop]. unfold BlockUntilExists. run. rewrite Ha. run.
    rewrite Hd. run. rewrite Hp. run.
    eexists. split; [reflexivity|]. cbn. rewrite Nat.eqb_refl. conj; reflexivity.
  - destruct n as [| n]; [lia|].
    inversion Hall as [| ? ? Hfs0 Hall']; subst.
    open_state s. cbn in He. subst env.
    cbn [reopen_loop]. unfold BlockUntilExists. run. rewrite Ha. run.
    rewrite Hd. run.
    match goal with
    | |- context [reopen_loop n ?s0] =>
        destruct (IH s0 fs1 ino rest n) as (s' & Hrun & H1 & H2 & H3 & H4 & H5 & H6 & H7 & H8);
        auto; [cbn in Hn |- *; lia|]
    end.
    exists s'. cbn in *. conj; auto.
Qed.

(** X7. [reopen] on a name that does not exist waits for the watcher to
    report the file, and goes back to waiting each time the file is gone
    again when it looks; once the file is there it comes back with nil, the
    file open at offset 0.  Reader, [Lines], tomb and notifier are left as
    they were. *)
Theorem reopen_waits_for_the_file :
  forall (fss : list FS) (s : State) (fs1 : FS) (ino : nat) (rest : list EnvEvent),
    dying (tomb (tail s)) = false ->
    fs_dir (w_fs (world s)) (Filename (tail s)) = Absent ->
    Forall (fun fs : FS => fs_dir fs (Filename (tail s)) = Absent) fss ->
    fs_dir fs1 (Filename (tail s)) = Present ino ->
    w_env (world s) = map EnvAppear fss ++ EnvAppear fs1 :: rest ->
    exists s' : State,
      reopen s = Ok None s'
      /\ file (tail s') = Some (w_nfd (world s))
      /\ w_fds (world s') (w_nfd (world s))
         = mkOpenFile (Filename (tail s)) ino 0 false
      /\ w_fs (world s') = fs1
      /\ w_env (world s') = rest
      /\ reader (tail s') = reader (tail s)
      /\ Lines (tail s') = Lines (tail s)
      /\ tomb (tail s') = tomb (tail s)
      /\ changes (tail s') = changes (tail s).
Proof.
  intros fss s fs1 ino rest Hd Ha Hall Hp He.
  unfold reopen. unfold bind at 1.
  assert (Hc : exists s0 : State,
             closeFile s = Ok tt s0
             /\ Filename (tail s0) = Filename (tail s)
             /\ tomb (tail s0) = tomb (tail s)
             /\ reader (tail s0) = reader (tail s)
             /\ Lines (tail s0) = Lines (tail s)
             /\ changes (tail s0) = changes (tail s)
             /\ w_fs (world s0) = w_fs (world s)
             /\ w_env (world s0) = w_env (world s)
             /\ w_nfd (world s0) = w_nfd (world s)).
  { open_state s. unfold closeFile. run. destruct f; run;
      (eexists; split; [reflexivity|]); cbn; conj; reflexivity. }
  destruct Hc as (s0 & Hrun & E1 & E2 & E3 & E4 & E5 & E6 & E7 & E8).
  rewrite Hrun.
  destruct (@reopen_loop_waits fss s0 fs1 ino rest (S (length (w_env (world s0)))))
    as (s' & Hrun' & H1 & H2 & H3 & H4 & H5 & H6 & H7 & H8).
  - rewrite E2. exact Hd.
  - rewrite E6, E1. exact Ha.
  - rewrite E1. exact Hall.
  - rewrite E1. exact Hp.
  - rewrite E7. exact He.
  - rewrite E7, He, length_app, length_map. cbn. lia.
  - exists s'. rewrite Hrun'. rewrite E1, E8 in *. conj; auto; congruence.
Qed.

(** ** A tail that cannot open its file *)

Lemma File_deferred :
  forall (filename : string) (config : Config) (w : World) (t : Tail),
    fr_tail (File filename config w) = Some t ->
    MustExist config = false ->
    fr_world (File filename config w) = w
    /\ t = mkTail filename (mkLines [] false) config None None
                  (if Poll config
                   then watch.NewPollingFileWatcher filename
                   else watch.NewInotifyFileWatcher filename)
                  None Tomb_zero.
Proof.
  intros filename config w t Ht HM. unfold File in *.
  destruct (ReOpen config && negb (Follow config))%bool; [discriminate|].
  rewrite HM in *. cbn in *. injection Ht as <-. auto.
Qed.

(** X8. When the deferred first open fails for another reason than the
    absence of the file, [tailFileSync] returns at once: nothing is
    delivered, [Lines] is closed, and the reason of the tomb is
    [ErrFileOpen], not the error of the system. *)
Theorem open_failure_ends_with_ErrFileOpen :
  forall (filename : string) (config : Config) (w : World) (t : Tail) (e : Errno)
         (fuel : nat),
    fr_tail (File filename config w) = Some t ->
    MustExist config = false ->
    fs_dir (w_fs w) filename = Denied e ->
    e <> ENOENT ->
    exists s' : State,
      tailFileSync fuel (mkState t (fr_world (File filename config w))) = Ok tt s'
      /\ delivered s' = []
      /\ closed (Lines (tail s')) = true
      /\ tomb (tail s') = mkTomb (Some ErrFileOpen) true true.
Proof.
  intros filename config w t e fuel Ht HM Hd He.
  destruct (File_deferred _ _ _ Ht HM) as (-> & ->).
  destruct w as [fs fds nfd clk out wf env]. cbn in Hd.
  unfold tailFileSync, tailFileSync_open, reopen, closeFile. run. rewrite HM. run.
  rewrite Hd. run.
  destruct e; try congruence; unfold Kill, close, closeFile, Done, Kill; run;
    (eexists; split; [reflexivity|]); cbn; conj; reflexivity.
Qed.

(** X9. When the file is absent at the deferred first open and the
    watcher fails while waiting for it, [tailFileSync] ends with
    [ErrFileCreationDetectionFailure] as the reason, whatever error the
    watcher reported; nothing is delivered and [Lines] is closed. *)
Theorem watcher_failure_ends_with_ErrFileCreationDetectionFailure :
  forall (filename : string) (config : Config) (w : World) (t : Tail) (e : error)
         (rest : list EnvEvent) (fuel : nat),
    fr_tail (File filename config w) = Some t ->
    MustExist config = false ->
    fs_dir (w_fs w) filename = Absent ->
    w_env w = EnvWatchErr e :: rest ->
    e <> tomb_ErrDying ->
    exists s' : State,
      tailFileSync fuel (mkState t (fr_world (File filename config w))) = Ok tt s'
      /\ delivered s' = []
      /\ closed (Lines (tail s')) = true
      /\ tomb (tail s') = mkTomb (Some ErrFileCreationDetectionFailure) true true.
Proof.
  intros filename config w t e rest fuel Ht HM Hd Henv He.
  destruct (File_deferred _ _ _ Ht HM) as (-> & ->).
  destruct w as [fs fds nfd clk out wf env]. cbn in Hd, Henv. subst env.
  unfold tailFileSync, tailFileSync_open, reopen, closeFile. run. rewrite HM. run.
  rewrite Hd. unfold BlockUntilExists. run.
  destruct e; try congruence; unfold Kill, close, closeFile, Done, Kill; run;
    (eexists; split; [reflexivity|]); cbn; conj; reflexivity.
Qed.

(** X10. When the caller stops the tail while it waits for an absent
    file to appear, [tailFileSync] ends cleanly: [reopen] hands back
    [ErrDying], which is not recorded, so the reason is nil; nothing is
    delivered and [Lines] is closed. *)
Theorem Stop_before_the_file_exists :
  forall (filename : string) (config : Config) (w : World) (t : Tail)
         (rest : list EnvEvent) (fuel : nat),
    fr_tail (File filename config w) = Some t ->
    MustExist config = false ->
    fs_dir (w_fs w) filename = Absent ->
    w_env w = EnvStop :: rest ->
    exists s' : State,
      tailFileSync fuel (mkState t (fr_world (File filename config w))) = Ok tt s'
      /\ delivered s' = []
      /\ closed (Lines (tail s')) = true
      /\ tomb (tail s') = mkTomb None true true.
Proof.
  intros filename config w t rest fuel Ht HM Hd Henv.
  destruct (File_deferred _ _ _ Ht HM) as (-> & ->).
  destruct w as [fs fds nfd clk out wf env]. cbn in Hd, Henv. subst env.
  unfold tailFileSync, tailFileSync_open, reopen, closeFile. run. rewrite HM. run.
  rewrite Hd. unfold BlockUntilExists, stopped, take_env. run.
  unfold Kill, close, closeFile, Done, Kill; run.
  eexists; split; [reflexivity|]; cbn; conj; reflexivity.
Qed.

(** The first open of a tail without a [Location]. *)
Lemma tailFileSync_open_plain :
  forall (s : State) (fd ino : nat),
    just_started s fd ino ->
    Location (cfg (tail s)) = None ->
    exists w0 : World,
      tailFileSync_open s
      = Ok true (mkState (set_reader (Some (bufio_NewReader (Some fd)))
                                     (set_file (Some fd) (tail s))) w0)
      /\ w_fds w0 fd = mkOpenFile (Filename (tail s)) ino 0 false
      /\ w_fs w0 = w_fs (world s).
Proof.
  intros s fd ino Hjs HL.
  destruct (first_open_frame Hjs) as (s0 & Hrun & Hf0 & Hfd0 & Ht0 & Hfs0 & He0 & Hw0).
  unfold tailFileSync_open. unfold bind at 1, getTail. unfold bind at 1.
  rewrite Hrun. cbn iota beta. rewrite HL.
  destruct s0 as [t0 w0]. cbn [tail world] in *. subst t0.
  exists w0. unfold openReader. run. conj; auto.
Qed.

(** X11. A tail on a file that cannot seek (a named pipe), with [Pipe]
    unset and no [Location], ends in the first turn of the loop: [Tell]
    fails, nothing is read or delivered, and the reason of the tomb is the
    seek error of the system. *)
Theorem unseekable_file_without_Pipe_ends_at_once :
  forall (filename : string) (config : Config) (w : World) (t : Tail) (ino k : nat),
    fr_tail (File filename config w) = Some t ->
    fs_dir (w_fs w) filename = Present ino ->
    i_seekable (fs_inode (w_fs w) ino) = false ->
    Pipe config = false ->
    Location config = None ->
    exists s' : State,
      tailFileSync (S k) (mkState t (fr_world (File filename config w))) = Ok tt s'
      /\ delivered s' = []
      /\ closed (Lines (tail s')) = true
      /\ tomb (tail s') = mkTomb (Some (PathError "seek" filename ESPIPE)) true true.
Proof.
  intros filename config w t ino k Ht Hd Hsk HP HL.
  destruct (File_just_started _ _ _ Ht Hd) as (Hjs & Hcfg & Hname & Hfs).
  assert (HL' : Location (cfg (tail (mkState t (fr_world (File filename config w)))))
                = None) by (cbn; rewrite Hcfg; exact HL).
  destruct (tailFileSync_open_plain Hjs HL') as (w0 & Hrun & Hfd0 & Hfs0).
  destruct Hjs as (HLn & HTb & _). cbn [tail world] in *.
  unfold tailFileSync. unfold bind at 1. unfold bind at 1. rewrite Hrun.
  destruct t as [fn ln c f r wt ch tb]. cbn in HLn, HTb, Hcfg, Hname, Hfd0. subst.
  cbn [tailFileSync_loop]. unfold Tell. run. rewrite HP. run.
  rewrite Hfd0. run. rewrite Hfs0, Hfs, Hsk. run.
  unfold Kill, close, closeFile, Done, Kill. run.
  eexists. split; [reflexivity|]. cbn. conj; reflexivity.
Qed.

Lemma ReadString_loop_S :
  forall (fuel : nat) (acc : list ascii) (r : Reader) (w : World),
    ReadString_loop (S fuel) nl acc r w
    = match IndexByte (rd_buf r) nl with
      | Some i =>
          ((acc ++ firstn (S i) (rd_buf r), None),
           mkReader (rd_src r) (skipn (S i) (rd_buf r)) (rd_err r), w)
      | None =>
          match rd_err r with
          | Some e => ((acc ++ rd_buf r, Some e), mkReader (rd_src r) [] None, w)
          | None =>
              if Nat.leb defaultBufSize (Buffered r)
              then ReadString_loop fuel nl (acc ++ rd_buf r)
                                   (mkReader (rd_src r) [] None) w
              else let '(r', w') := fill r w in
                   ReadString_loop fuel nl acc r' w'
          end
      end.
Proof. reflexivity. Qed.

Lemma ReadString_fault :
  forall (w : World) (fd : nat) (e : Errno),
    of_closed (w_fds w fd) = false ->
    i_fault (inode_of w fd) = Some e ->
    ReadString nl (bufio_NewReader (Some fd)) w
    = (([], Some (PathError "read" (of_name (w_fds w fd)) e)),
       bufio_NewReader (Some fd), w).
Proof.
  intros w fd e Hc Hf. unfold ReadString, ReadString_turns. cbn [rd_src bufio_NewReader].
  replace (2 * length (unread w fd) + 4) with (S (S (2 * length (unread w fd) + 2)))
    by lia.
  rewrite ReadString_loop_S. unfold bufio_NewReader.
  cbn [rd_buf rd_err rd_src IndexByte].
  change (Nat.leb defaultBufSize (Buffered (mkReader (Some fd) [] None))) with false.
  cbv iota. unfold fill, File_Read. cbn [rd_src rd_buf].
  rewrite Hc, Hf. rewrite ReadString_loop_S. cbn. reflexivity.
Qed.

Opaque ReadString.

(** X12. When reading the file fails with an error other than EOF,
    [tailFileSync] ends in that turn with the reason "Error reading", the
    name of the file and the text of the error; nothing is delivered and
    [Lines] is closed. *)
Theorem read_error_ends_the_tail :
  forall (filename : string) (config : Config) (w : World) (t : Tail) (ino k : nat)
         (e : Errno),
    fr_tail (File filename config w) = Some t ->
    fs_dir (w_fs w) filename = Present ino ->
    i_seekable (fs_inode (w_fs w) ino) = true ->
    i_fault (fs_inode (w_fs w) ino) = Some e ->
    Location config = None ->
    exists s' : State,
      tailFileSync (S k) (mkState t (fr_world (File filename config w))) = Ok tt s'
      /\ delivered s' = []
      /\ closed (Lines (tail s')) = true
      /\ tomb (tail s')
         = mkTomb (Some (Errorf ("Error reading " ++ filename ++ ": "
                                 ++ error_Error (PathError "read" filename e))))
                  true true.
Proof.
  intros filename config w t ino k e Ht Hd Hsk Hft HL.
  destruct (File_just_started _ _ _ Ht Hd) as (Hjs & Hcfg & Hname & Hfs).
  assert (HL' : Location (cfg (tail (mkState t (fr_world (File filename config w)))))
                = None) by (cbn; rewrite Hcfg; exact HL).
  destruct (tailFileSync_open_plain Hjs HL') as (w0 & Hrun & Hfd0 & Hfs0).
  destruct Hjs as (HLn & HTb & _). cbn [tail world] in *.
  unfold tailFileSync. unfold bind at 1. unfold bind at 1. rewrite Hrun.
  destruct t as [fn ln c f r wt ch tb]. cbn in HLn, HTb, Hcfg, Hname, Hfd0. subst.
  assert (Hread : forall w1 : World,
             w_fds w1 (w_nfd w) = mkOpenFile filename ino 0 false ->
             w_fs w1 = w_fs w0 ->
             ReadString nl (bufio_NewReader (Some (w_nfd w))) w1
             = (([], Some (PathError "read" filename e)),
                bufio_NewReader (Some (w_nfd w)), w1)).
  { intros w1 H1 H2.
    rewrite (@ReadString_fault w1 (w_nfd w) e).
    - rewrite H1. reflexivity.
    - rewrite H1. reflexivity.
    - unfold inode_of. rewrite H1, H2, Hfs0, Hfs. exact Hft. }
  cbn [tailFileSync_loop]. unfold Tell, readLine. run.
  destruct (Pipe config); run.
  - rewrite Hread by auto. run.
    unfold Killf, Kill, close, closeFile, Done, Kill. run.
    eexists. split; [reflexivity|]. cbn. conj; reflexivity.
  - rewrite Hfd0. run. rewrite Hfs0, Hfs, Hsk. run.
    replace (max_int64 <? 0)%Z with false by reflexivity. run.
    rewrite Hread.
    + run. unfold Killf, Kill, close, closeFile, Done, Kill. run.
      eexists. split; [reflexivity|]. cbn. conj; reflexivity.
    + cbn. rewrite Nat.eqb_refl. reflexivity.
    + cbn. rewrite Hfs0, Hfs. reflexivity.
Qed.

Transparent ReadString.

(** ** Rotation and truncation under [Follow] *)

(** [waitForChanges] taking the reopening path, with all it leaves. *)
Lemma waitForChanges_rotates :
  forall (s : State) (fd ino : nat) (sig : Signal) (fs' : FS) (env : list EnvEvent),
    file (tail s) = Some fd ->
    fd < w_nfd (world s) ->
    can_watch s fd ->
    dying (tomb (tail s)) = false ->
    w_env (world s) = EnvNotify sig fs' :: env ->
    sig = SigTruncated \/ (sig = SigDeleted /\ ReOpen (cfg (tail s)) = true) ->
    fs_dir fs' (Filename (tail s)) = Present ino ->
    exists s' : State,
      waitForChanges s = Ok None s'
      /\ file (tail s') = Some (w_nfd (world s))
      /\ w_fds (world s') (w_nfd (world s)) = mkOpenFile (Filename (tail s)) ino 0 false
      /\ reader (tail s') = Some (bufio_NewReader (Some (w_nfd (world s))))
      /\ tomb (tail s') = tomb (tail s)
      /\ Lines (tail s') = Lines (tail s)
      /\ cfg (tail s') = cfg (tail s)
      /\ Filename (tail s') = Filename (tail s)
      /\ w_fs (world s') = fs'
      /\ w_env (world s') = env
      /\ w_watch_fault (world s') = w_watch_fault (world s)
      /\ (sig = SigDeleted -> changes (tail s') = None).
Proof.
  intros s fd ino sig fs' env Hf Hlt Hw Hdy Henv Hsig Hd.
  assert (Hne : Nat.eqb fd (w_nfd (world s)) = false) by (apply Nat.eqb_neq; lia).
  unfold waitForChanges. unfold bind at 1, getTail.
  destruct (changes (tail s)) as [fc|] eqn:Ech.
  - open_state s. subst.
    unfold select_changes. cbn in Hdy. run. rewrite Hdy. cbn.
    destruct Hsig as [-> | [-> HR]]; cbn; try rewrite HR;
      unfold reopen, closeFile, openReader; run; rewrite Hd; run;
      (eexists; split; [reflexivity|]); cbn; rewrite ?Nat.eqb_refl;
      conj; try reflexivity; discriminate.
  - destruct Hw as [Hw | [Hh Hwf]]; [congruence|].
    unfold bind at 1. unfold bind at 1. unfold sys. rewrite Hf.
    rewrite File_Seek_cur by exact Hh.
    open_state s. subst.
    unfold ChangeEvents, select_changes. cbn in Hdy. run. rewrite Hdy. cbn.
    destruct Hsig as [-> | [-> HR]]; cbn; try rewrite HR;
      unfold reopen, closeFile, openReader; run; rewrite Hd; run;
      (eexists; split; [reflexivity|]); cbn; rewrite ?Nat.eqb_refl;
      conj; try reflexivity; discriminate.
Qed.

Lemma in_step_fresh :
  forall (s : State) (fd ino : nat) (name : string) (data : list ascii),
    file (tail s) = Some fd ->
    reader (tail s) = Some (bufio_NewReader (Some fd)) ->
    w_fds (world s) fd = mkOpenFile name ino 0 false ->
    fs_inode (w_fs (world s)) ino = mkInode data true None ->
    (Z.of_nat (length data) <= max_int64)%Z ->
    in_step s fd data.
Proof.
  intros s fd ino name data Hf Hr Hfd Hi Hmax.
  unfold in_step, reading_at, told, unread, inode_of. rewrite Hr, Hfd. cbn.
  rewrite Hi. cbn. conj; auto; try lia.
  exists (bufio_NewReader (Some fd)). cbn. conj; auto; lia.
Qed.

Lemma loop_rotation :
  forall (l : list ascii) (fuel : nat) (offset : Z) (s : State) (fd : nat)
         (sig : Signal) (fs2 : FS) (ino2 : nat) (data2 : list ascii)
         (extras : list (list ascii)) (rest : list EnvEvent),
    Follow (cfg (tail s)) = true ->
    Pipe (cfg (tail s)) = false ->
    in_step s fd l ->
    closed (Lines (tail s)) = false ->
    dying (tomb (tail s)) = false ->
    fd < w_nfd (world s) ->
    w_watch_fault (world s) = None ->
    sig = SigTruncated \/ (sig = SigDeleted /\ ReOpen (cfg (tail s)) = true) ->
    w_env (world s) = EnvNotify sig fs2 :: appends fs2 ino2 extras ++ EnvStop :: rest ->
    fs_dir fs2 (Filename (tail s)) = Present ino2 ->
    fs_inode fs2 ino2 = mkInode data2 true None ->
    (Z.of_nat (length data2 + length (concat extras)) <= max_int64)%Z ->
    length (lines_of l) + length (lines_of (data2 ++ concat extras)) + length extras + 1
    < fuel ->
    exists s' : State,
      tailFileSync_loop fuel offset s = Ok tt s'
      /\ delivered s'
         = delivered s ++ lines_of l ++ lines_of (data2 ++ concat extras)
      /\ closed (Lines (tail s')) = false
      /\ tomb (tail s')
         = mkTomb (settled (reason (tomb (tail s)))) true (dead (tomb (tail s))).
Proof.
  intros l fuel offset s fd sig fs2 ino2 data2 extras rest
         HF HP Hin Hcl Hdy Hlt Hwf Hsig Henv Hd2 Hi2 Hmax Hfuel.
  destruct (@split_lines_join l []) as (El & Hvalid & Hfrag); try (intros []).
  fold (lines_of l) in *; fold (rest_of l) in *; cbn [app] in El.
  replace fuel with (length (lines_of l) + S (fuel - length (lines_of l) - 1)) by lia.
  rewrite El in Hin.
  destruct (@follow_round (lines_of l) (rest_of l) (fuel - length (lines_of l) - 1)
                          offset s fd)
    as (off' & s2 & Hrun & Hdel & Hin2 & Hse); auto.
  destruct Hse as (S1 & S2 & S3 & S4 & S5 & S6 & S7 & S8 & S9 & S10 & S11).
  pose proof Hin2 as ((Hf2 & _) & _).
  destruct (@waitForChanges_rotates s2 fd ino2 sig fs2
              (appends fs2 ino2 extras ++ EnvStop :: rest))
    as (s3 & Hwait & R1 & R2 & R3 & R4 & R5 & R6 & R7 & R8 & R9 & R10 & _); auto.
  { rewrite S8. exact Hlt. }
  { apply (in_step_can_watch Hin2). right. rewrite S9. exact Hwf. }
  { rewrite S5. exact Hdy. }
  { rewrite S10. exact Henv. }
  { rewrite S2. exact Hsig. }
  { rewrite S1. exact Hd2. }
  assert (Hin3 : in_step s3 (w_nfd (world s2)) data2).
  { apply (@in_step_fresh s3 (w_nfd (world s2)) ino2 (Filename (tail s2)) data2); auto.
    - rewrite R8. exact Hi2.
    - lia. }
  destruct (@follow_appends extras data2 (fuel - length (lines_of l) - 1) off' s3
                            (w_nfd (world s2)) rest)
    as (s4 & Hloop & Hdel4 & Hcl4 & Ht4 & _); auto.
  { rewrite R6, S2. exact HF. }
  { rewrite R6, S2. exact HP. }
  { rewrite R5, S6. exact Hcl. }
  { rewrite R4, S5. exact Hdy. }
  { right. rewrite R10, S9. exact Hwf. }
  { rewrite R9, R8, R2. cbn [of_ino]. reflexivity. }
  { unfold inode_of. rewrite R2, R8. cbn [of_ino]. rewrite Hi2. exact Hmax. }
  { lia. }
  exists s4. conj.
  - rewrite Hrun. unfold tailFileSync_wait. unfold bind at 1. rewrite Hwait.
    unfold tailFileSync_select, bind, getTail. rewrite R4, S5, Hdy. exact Hloop.
  - rewrite Hdel4. unfold delivered in *. rewrite R5, Hdel, app_assoc. reflexivity.
  - exact Hcl4.
  - rewrite Ht4, R4, S5. reflexivity.
Qed.

Lemma File_world :
  forall (filename : string) (config : Config) (w : World) (t : Tail) (ino : nat),
    fr_tail (File filename config w) = Some t ->
    fs_dir (w_fs w) filename = Present ino ->
    w_env (fr_world (File filename config w)) = w_env w
    /\ w_watch_fault (fr_world (File filename config w)) = w_watch_fault w
    /\ w_nfd (fr_world (File filename config w))
       = (if MustExist config then S (w_nfd w) else w_nfd w).
Proof.
  intros filename config w t ino Ht Hd. unfold File in *.
  destruct (ReOpen config && negb (Follow config))%bool; [discriminate|].
  destruct (MustExist config); [| cbn; auto].
  unfold os_Open in *. cbn in *. rewrite Hd in *. cbn. auto.
Qed.

(** The tail [File] starts on a regular file, once the loop is about to
    start. *)
Lemma File_opens :
  forall (filename : string) (config : Config) (w : World) (t : Tail)
         (ino : nat) (data : list ascii) (p : Z),
    fr_tail (File filename config w) = Some t ->
    fs_dir (w_fs w) filename = Present ino ->
    fs_inode (w_fs w) ino = mkInode data true None ->
    first_position (Location config) (length data) = Some p ->
    (p <= Z.of_nat (length data) <= max_int64)%Z ->
    exists s1 : State,
      tailFileSync_open (mkState t (fr_world (File filename config w))) = Ok true s1
      /\ in_step s1 (w_nfd w) (skipn (Z.to_nat p) data)
      /\ cfg (tail s1) = config
      /\ Filename (tail s1) = filename
      /\ Lines (tail s1) = mkLines [] false
      /\ tomb (tail s1) = Tomb_zero
      /\ w_fs (world s1) = w_fs w
      /\ w_env (world s1) = w_env w
      /\ w_watch_fault (world s1) = w_watch_fault w
      /\ of_ino (w_fds (world s1) (w_nfd w)) = ino
      /\ w_nfd (world s1) = S (w_nfd w).
Proof.
  intros filename config w t ino data p Ht Hd Hi Hfp Hp.
  destruct (File_just_started _ _ _ Ht Hd) as (Hjs & Hcfg & Hname & Hfs).
  destruct (File_world _ _ _ Ht Hd) as (Henv0 & Hwf0 & Hn0).
  set (s0 := mkState t (fr_world (File filename config w))) in *.
  destruct (@tailFileSync_open_in_step s0 (w_nfd w) ino p Hjs)
    as (s1 & Hopen & Hin1 & Hc1 & HL1 & HT1 & Hch1 & Hfs1 & He1 & Hw1 & Hino1 & Hf1 & Hn1).
  { cbn [world s0]. rewrite Hfs, Hi. reflexivity. }
  { cbn [world s0]. rewrite Hfs, Hi. reflexivity. }
  { cbn [world tail s0]. rewrite Hfs, Hi, Hcfg. exact Hfp. }
  { cbn [world s0]. rewrite Hfs, Hi. cbn [i_data]. lia. }
  destruct Hjs as (HL0 & HT0 & _). cbn [tail world s0] in *.
  rewrite Hfs, Hi in Hin1. cbn [i_data] in Hin1.
  exists s1. conj; auto; try congruence.
  rewrite Hn1, Hn0, Hcfg. destruct (MustExist config); reflexivity.
Qed.

(** X13. A followed tail goes on with the new file after a rotation.
    [File] starts a tail with [Follow] set and [Pipe] unset on a regular
    file; the file is then truncated, or deleted with [ReOpen] set, a
    regular file being at the path when the signal comes; the chunks
    [extras] are appended to that file, and the caller stops the tail.  The
    lines delivered are the terminated lines of the first file from the
    first read position, then the terminated lines of the second file from
    its start: the unterminated rest of the first file is dropped, and
    [Location] is not applied again. *)
Theorem rotation_is_followed :
  forall (filename : string) (config : Config) (w : World) (t : Tail)
         (ino : nat) (data : list ascii) (p : Z) (sig : Signal) (fs2 : FS)
         (ino2 : nat) (data2 : list ascii) (extras : list (list ascii))
         (rest : list EnvEvent) (fuel : nat),
    Follow config = true ->
    Pipe config = false ->
    sig = SigTruncated \/ (sig = SigDeleted /\ ReOpen config = true) ->
    fr_tail (File filename config w) = Some t ->
    fs_dir (w_fs w) filename = Present ino ->
    fs_inode (w_fs w) ino = mkInode data true None ->
    first_position (Location config) (length data) = Some p ->
    (p <= Z.of_nat (length data) <= max_int64)%Z ->
    w_watch_fault w = None ->
    w_env w = EnvNotify sig fs2 :: appends fs2 ino2 extras ++ EnvStop :: rest ->
    fs_dir fs2 filename = Present ino2 ->
    fs_inode fs2 ino2 = mkInode data2 true None ->
    (Z.of_nat (length data2 + length (concat extras)) <= max_int64)%Z ->
    length (lines_of (skipn (Z.to_nat p) data))
    + length (lines_of (data2 ++ concat extras)) + length extras + 1 < fuel ->
    exists s' : State,
      tailFileSync fuel (mkState t (fr_world (File filename config w))) = Ok tt s'
      /\ delivered s'
         = lines_of (skipn (Z.to_nat p) data) ++ lines_of (data2 ++ concat extras)
      /\ closed (Lines (tail s')) = true
      /\ tomb (tail s') = mkTomb None true true.
Proof.
  intros filename config w t ino data p sig fs2 ino2 data2 extras rest fuel
         HF HP Hsig Ht Hd Hi Hfp Hp Hwf Henv Hd2 Hi2 Hmax Hfuel.
  destruct (File_opens _ _ _ Ht Hd Hi Hfp Hp)
    as (s1 & Hopen & Hin1 & Hc1 & Hf1 & HL1 & HT1 & Hfs1 & He1 & Hw1 & Hino1 & Hn1).
  destruct (@loop_rotation (skipn (Z.to_nat p) data) fuel 0%Z s1 (w_nfd w) sig fs2 ino2
                           data2 extras rest)
    as (s2 & Hloop & Hdel & Hcl2 & Htb2); auto.
  { rewrite Hc1. exact HF. }
  { rewrite Hc1. exact HP. }
  { rewrite HL1. reflexivity. }
  { rewrite HT1. reflexivity. }
  { rewrite Hn1. lia. }
  { rewrite Hw1. exact Hwf. }
  { rewrite Hc1. exact Hsig. }
  { rewrite He1. exact Henv. }
  { rewrite Hf1. exact Hd2. }
  destruct (@finish_any s2) as (s3 & Hfin & Hs3 & Hc3 & _ & Ht3 & _); auto.
  { rewrite Htb2, HT1. reflexivity. }
  exists s3. split.
  - unfold tailFileSync. unfold bind at 1. unfold bind at 1.
    rewrite Hopen. rewrite Hloop. exact Hfin.
  - conj; auto.
    + unfold delivered in *. rewrite Hs3, Hdel, HL1. reflexivity.
    + rewrite Ht3, Htb2, HT1. reflexivity.
Qed.

(** ** [Tell] before the reader; the notifier after [Close] *)

(** X14. [File] with [MustExist] set returns a tail whose [file] is open
    and whose [reader] is still nil, for it is [tailFileSync] that sets it:
    [Tell] on the tail as [File] returns it, the file being seekable,
    panics on the nil reader. *)
Theorem Tell_before_the_reader_panics :
  forall (filename : string) (config : Config) (w : World) (t : Tail) (ino : nat),
    MustExist config = true ->
    fr_tail (File filename config w) = Some t ->
    fs_dir (w_fs w) filename = Present ino ->
    i_seekable (fs_inode (w_fs w) ino) = true ->
    exists s' : State,
      Tell (mkState t (fr_world (File filename config w)))
      = Fail (Panicked "nil pointer dereference") s'.
Proof.
  intros filename config w t ino HM Ht Hd Hsk. unfold File in *.
  destruct (ReOpen config && negb (Follow config))%bool; [discriminate|].
  rewrite HM in *. unfold os_Open in *. cbn in *. rewrite Hd in *. cbn in *.
  injection Ht as <-. unfold Tell. run. rewrite Nat.eqb_refl. run.
  rewrite Hsk. run.
  replace (max_int64 <? 0)%Z with false by reflexivity. run.
  eexists. reflexivity.
Qed.

Lemma sendOnlyIfEmpty_never_parks :
  forall (parked : bool) (ch : chan bool),
    fst (watch.sendOnlyIfEmpty parked ch) <> WouldBlock.
Proof.
  intros parked ch. unfold watch.sendOnlyIfEmpty.
  destruct (chan_send parked true ch) as [[] ch']; cbn; discriminate.
Qed.

Lemma Notify_never_WouldBlock :
  forall (sig : Signal) (parked : bool) (fc : watch.FileChanges),
    fst (Notify sig parked fc) <> WouldBlock.
Proof.
  intros sig parked fc.
  destruct sig; unfold Notify, watch.NotifyModified, watch.NotifyTruncated,
                watch.NotifyDeleted;
    match goal with
    | |- context [watch.sendOnlyIfEmpty ?p ?c] =>
        pose proof (sendOnlyIfEmpty_never_parks p c) as H;
        destruct (watch.sendOnlyIfEmpty p c) as [o ch']
    end; exact H.
Qed.

(** X15. Whatever the channels of a [FileChanges] (of any capacity,
    filled or not, closed or not) and whatever the run of notifications,
    no notification parks the sender. *)
Theorem Notify_never_parks :
  forall (ops : list (Signal * bool)) (fc : watch.FileChanges),
    ~ In WouldBlock (fst (notify_all ops fc)).
Proof.
  induction ops as [| [sig parked] ops IH]; intros fc; cbn [notify_all].
  - intros [].
  - pose proof (Notify_never_WouldBlock sig parked fc) as H.
    destruct (Notify sig parked fc) as [o fc1]. specialize (IH fc1).
    destruct (notify_all ops fc1) as [os fc2]. cbn in *.
    intros [E | E]; [exact (H E) | exact (IH E)].
Qed.

Lemma Notify_Close :
  forall (sig : Signal) (parked : bool) (fc : watch.FileChanges),
    Notify sig parked (watch.Close fc) = (SendPanic, watch.Close fc).
Proof. intros [| |] parked fc; reflexivity. Qed.

(** X16. After [Close] every notification panics with a send on a closed
    channel, the consumer waiting or not, and leaves the channels as they
    are. *)
Theorem Notify_after_Close_panics :
  forall (ops : list (Signal * bool)) (fc : watch.FileChanges),
    notify_all ops (watch.Close fc)
    = (map (fun _ : Signal * bool => SendPanic) ops, watch.Close fc).
Proof.
  induction ops as [| [sig parked] ops IH]; intros fc; cbn [notify_all map].
  - reflexivity.
  - rewrite Notify_Close, IH. reflexivity.
Qed.

(** ** [seekEnd] *)

Lemma File_Seek_end :
  forall (w : World) (fd : nat),
    of_closed (w_fds w fd) = false ->
    i_seekable (inode_of w fd) = true ->
    (Z.of_nat (length (i_data (inode_of w fd))) <= max_int64)%Z ->
    File_Seek (Some fd) 0 SEEK_END w
    = ((Z.of_nat (length (i_data (inode_of w fd))), None),
       set_fd fd (mkOpenFile (of_name (w_fds w fd)) (of_ino (w_fds w fd))
                             (Z.of_nat (length (i_data (inode_of w fd)))) false) w).
Proof.
  intros w fd Hc Hs Hp. unfold File_Seek. rewrite Hc, Hs. cbn.
  replace (Z.of_nat (length (i_data (inode_of w fd))) + 0)%Z
    with (Z.of_nat (length (i_data (inode_of w fd)))) by lia.
  destruct (Z.ltb_spec (Z.of_nat (length (i_data (inode_of w fd)))) 0); [lia|].
  destruct (Z.ltb_spec max_int64 (Z.of_nat (length (i_data (inode_of w fd))))); [lia|].
  reflexivity.
Qed.

Lemma seekEnd_in_step :
  forall (s : State) (fd : nat) (l : list ascii),
    reading_at s fd l ->
    exists s1 : State,
      seekEnd s = Ok None s1
      /\ in_step s1 fd []
      /\ told s1 fd = Z.of_nat (length (i_data (inode_of (world s) fd)))
      /\ Lines (tail s1) = Lines (tail s)
      /\ tomb (tail s1) = tomb (tail s).
Proof.
  intros s fd l (Hf & r & Hr & Hsrc & Herr & Hcl & Hsk & Hft & Hp & Hsz & Hl).
  unfold seekEnd, seekTo. unfold bind at 1, getTail. unfold bind at 1, sys.
  rewrite Hf. cbn [Offset Whence]. rewrite File_Seek_end by assumption.
  rewrite Hr. unfold bind, modTail, ret. cbn [tail world].
  eexists. split; [reflexivity|].
  unfold in_step, reading_at, told, unread, inode_of in *.
  cbn [tail world set_reader reader file Lines tomb w_fds w_fs set_fd].
  rewrite Nat.eqb_refl. cbn [of_pos of_ino of_closed bufio_NewReader Buffered rd_buf
                             rd_src rd_err length app].
  rewrite Nat2Z.id, skipn_all. rewrite Z.sub_0_r, Nat2Z.id, skipn_all.
  conj; auto; try lia.
  exists (mkReader (Some fd) [] None). cbn. conj; auto; lia.
Qed.

(** X17. On a regular file [seekEnd] returns nil and leaves the cursor at
    the end of the file and the reader empty: [Tell] then gives the size of
    the file, [readLine] finds nothing but EOF, and nothing reaches
    [Lines]. *)
Theorem seekEnd_skips_what_is_there :
  forall (s : State) (fd : nat) (l : list ascii),
    reading_at s fd l ->
    exists s1 s2 s3 : State,
      seekEnd s = Ok None s1
      /\ Tell s1 = Ok (Z.of_nat (length (i_data (inode_of (world s) fd))), None) s2
      /\ readLine s1 = Ok ([], Some io_EOF) s3
      /\ delivered s1 = delivered s.
Proof.
  intros s fd l Hrd.
  destruct (seekEnd_in_step Hrd) as (s1 & Hrun & Hin & Ht & HL & _).
  destruct (Tell_told Hin) as (w2 & HT & _ & _).
  destruct (readLine_in_step Hin) as (r3 & w3 & HR & _).
  exists s1. eexists. eexists. conj.
  - exact Hrun.
  - rewrite <- Ht. exact HT.
  - exact HR.
  - unfold delivered. rewrite HL. reflexivity.
Qed.

(** ** The theorems above at concrete inputs *)

Lemma Sample_in_step :
  forall (c : Config) (data : list ascii) (env : list EnvEvent),
    (Z.of_nat (length data) <= max_int64)%Z ->
    in_step (Sample.reading c data env) 3 data.
Proof.
  intros c data env H. unfold in_step. conj.
  - apply Sample_reading_at. exact H.
  - cbn. lia.
  - reflexivity.
Qed.

Lemma follow_delivers_every_line_once_witness :
  exists s' : State,
    tailFileSync 5
      (mkState (Scene.started (Sample.config None false false false true))
               (fr_world
                  (File "log" (Sample.config None false false false true)
                        (Sample.world_of
                           (Sample.fs_log Sample.ab)
                           (appends (Sample.fs_log Sample.ab) 7 [Scene.nl_c_nl]
                            ++ [EnvStop])))))
    = Ok tt s'
    /\ delivered s' = lines_of (skipn (Z.to_nat 0) Sample.ab ++ concat [Scene.nl_c_nl])
    /\ closed (Lines (tail s')) = true
    /\ tomb (tail s') = mkTomb None true true.
Proof.
  apply (@follow_delivers_every_line_once
           "log" (Sample.config None false false false true)
           (Sample.world_of (Sample.fs_log Sample.ab)
                            (appends (Sample.fs_log Sample.ab) 7 [Scene.nl_c_nl]
                             ++ [EnvStop]))
           (Scene.started (Sample.config None false false false true))
           7 Sample.ab 0%Z [Scene.nl_c_nl] [] 5).
  - reflexivity.
  - reflexivity.
  - reflexivity.
  - reflexivity.
  - reflexivity.
  - reflexivity.
  - cbn. lia.
  - reflexivity.
  - reflexivity.
  - unfold max_int64. cbn. lia.
  - cbn. lia.
Defined.

Lemma rotation_is_followed_witness :
  exists s' : State,
    tailFileSync 5
      (mkState (Scene.started (Sample.config None true false false true))
               (fr_world
                  (File "log" (Sample.config None true false false true)
                        (Sample.world_of
                           (Sample.fs_log Sample.ab)
                           [EnvNotify SigDeleted (Sample.fs_log (Sample.bytes "c" ++ [nl]));
                            EnvStop]))))
    = Ok tt s'
    /\ delivered s'
       = lines_of (skipn (Z.to_nat 0) Sample.ab)
         ++ lines_of ((Sample.bytes "c" ++ [nl]) ++ concat [])
    /\ closed (Lines (tail s')) = true
    /\ tomb (tail s') = mkTomb None true true.
Proof.
  apply (@rotation_is_followed
           "log" (Sample.config None true false false true)
           (Sample.world_of
              (Sample.fs_log Sample.ab)
              [EnvNotify SigDeleted (Sample.fs_log (Sample.bytes "c" ++ [nl])); EnvStop])
           (Scene.started (Sample.config None true false false true))
           7 Sample.ab 0%Z SigDeleted (Sample.fs_log (Sample.bytes "c" ++ [nl]))
           7 (Sample.bytes "c" ++ [nl]) [] [] 5).
  - reflexivity.
  - reflexivity.
  - right. split; reflexivity.
  - reflexivity.
  - reflexivity.
  - reflexivity.
  - reflexivity.
  - unfold max_int64. cbn. lia.
  - reflexivity.
  - reflexivity.
  - reflexivity.
  - reflexivity.
  - unfold max_int64. cbn. lia.
  - cbn. lia.
Defined.

Lemma tailFileSync_never_panics_witness :
  ~ panicked
      (tailFileSync 5
         (mkState (Scene.started (Sample.config None true false false true))
                  (fr_world
                     (File "log" (Sample.config None true false false true)
                           (Sample.world_of
                              (Sample.fs_log Sample.ab)
                              [EnvNotify SigTruncated (Sample.fs_log (Sample.bytes "c"));
                               EnvStop]))))).
Proof.
  apply (@tailFileSync_never_panics
           "log" (Sample.config None true false false true)
           (Sample.world_of
              (Sample.fs_log Sample.ab)
              [EnvNotify SigTruncated (Sample.fs_log (Sample.bytes "c")); EnvStop])
           (Scene.started (Sample.config None true false false true)) 5).
  - split; [cbn; repeat constructor | exact I].
  - reflexivity.
Defined.

Lemma tailFileSync_lays_to_rest_witness :
  laid_to_rest
    (final
       (tailFileSync 5
          (mkState (Scene.started (Sample.config None false false false false))
                   (fr_world
                      (File "log" (Sample.config None false false false false)
                            (Sample.world_of (Sample.fs_log Sample.ab)
                                             [EnvStop])))))).
Proof.
  apply (@tailFileSync_lays_to_rest
           "log" (Sample.config None false false false false)
           (Sample.world_of (Sample.fs_log Sample.ab)
                            [EnvStop])
           (Scene.started (Sample.config None false false false false)) 5).
  - split; [cbn; repeat constructor | exact I].
  - reflexivity.
  - vm_compute. reflexivity.
Defined.

Lemma Stop_after_the_run_witness :
  Stop (final
          (tailFileSync 5
             (mkState (Scene.started (Sample.config None false false false false))
                      (fr_world
                         (File "log" (Sample.config None false false false false)
                               (Sample.world_of
                                  Scene.fs_denied
                                  [EnvStop]))))))
  = Ok (Some ErrFileOpen)
       (final
          (tailFileSync 5
             (mkState (Scene.started (Sample.config None false false false false))
                      (fr_world
                         (File "log" (Sample.config None false false false false)
                               (Sample.world_of
                                  Scene.fs_denied
                                  [EnvStop]))))))
  /\ Some ErrFileOpen <> Some ErrStop.
Proof.
  apply (@Stop_after_the_run
           "log" (Sample.config None false false false false)
           (Sample.world_of Scene.fs_denied
                            [EnvStop])
           (Scene.started (Sample.config None false false false false)) 5).
  - split; [cbn; repeat constructor | exact I].
  - reflexivity.
  - vm_compute. reflexivity.
Defined.


Lemma Tell_counts_the_line_read_witness :
  exists (o : Z) (s0 s1 s2 : State),
    Tell (Sample.reading (Sample.config None false true false true) Sample.ab_nl [])
    = Ok (o, None) s0
    /\ readLine s0 = Ok (Sample.bytes "a", None) s1
    /\ Tell s1 = Ok ((o + Z.of_nat (length (Sample.bytes "a")) + 1)%Z, None) s2
    /\ skipn (Z.to_nat (o + Z.of_nat (length (Sample.bytes "a")) + 1))
             (i_data (inode_of (world s2) 3))
       = Sample.bytes "b" ++ [nl].
Proof.
  apply (@Tell_counts_the_line_read
           (Sample.reading (Sample.config None false true false true) Sample.ab_nl [])
           3 (Sample.bytes "a") (Sample.bytes "b" ++ [nl])).
  - apply (@Sample_in_step (Sample.config None false true false true) Sample.ab_nl []).
    unfold max_int64. cbn. lia.
  - cbn. intros [H | []]. discriminate H.
Defined.

Lemma Tell_before_the_reader_panics_witness :
  exists s' : State,
    Tell (mkState (Scene.started_open (Sample.config None false true false true))
                  (fr_world (File "log" (Sample.config None false true false true)
                                  (Sample.world_of (Sample.fs_log Sample.ab) []))))
    = Fail (Panicked "nil pointer dereference") s'.
Proof.
  apply (@Tell_before_the_reader_panics
           "log" (Sample.config None false true false true)
           (Sample.world_of (Sample.fs_log Sample.ab) [])
           (Scene.started_open (Sample.config None false true false true)) 7).
  - reflexivity.
  - reflexivity.
  - reflexivity.
  - reflexivity.
Defined.

Lemma reopen_waits_for_the_file_witness :
  exists s' : State,
    reopen (Sample.fresh (Sample.config None false false false true)
                         (Sample.world_of Sample.fs_none
                                          (map EnvAppear [Sample.fs_none]
                                           ++ EnvAppear (Sample.fs_log Sample.ab) :: [])))
    = Ok None s'
    /\ file (tail s') = Some 3
    /\ w_fds (world s') 3 = mkOpenFile "log" 7 0 false
    /\ w_fs (world s') = Sample.fs_log Sample.ab
    /\ w_env (world s') = []
    /\ reader (tail s') = None
    /\ Lines (tail s') = mkLines [] false
    /\ tomb (tail s') = Tomb_zero
    /\ changes (tail s') = None.
Proof.
  apply (@reopen_waits_for_the_file
           [Sample.fs_none]
           (Sample.fresh (Sample.config None false false false true)
                         (Sample.world_of Sample.fs_none
                                          (map EnvAppear [Sample.fs_none]
                                           ++ EnvAppear (Sample.fs_log Sample.ab) :: [])))
           (Sample.fs_log Sample.ab) 7 []).
  - reflexivity.
  - reflexivity.
  - constructor; [reflexivity | constructor].
  - reflexivity.
  - reflexivity.
Defined.

Lemma open_failure_ends_with_ErrFileOpen_witness :
  exists s' : State,
    tailFileSync 1
      (mkState (Scene.started (Sample.config None false false false true))
               (fr_world (File "log" (Sample.config None false false false true)
                               (Sample.world_of Scene.fs_denied []))))
    = Ok tt s'
    /\ delivered s' = []
    /\ closed (Lines (tail s')) = true
    /\ tomb (tail s') = mkTomb (Some ErrFileOpen) true true.
Proof.
  apply (@open_failure_ends_with_ErrFileOpen
           "log" (Sample.config None false false false true)
           (Sample.world_of Scene.fs_denied [])
           (Scene.started (Sample.config None false false false true)) EACCES 1).
  - reflexivity.
  - reflexivity.
  - reflexivity.
  - discriminate.
Defined.

Lemma watcher_failure_ends_with_ErrFileCreationDetectionFailure_witness :
  exists s' : State,
    tailFileSync 1
      (mkState (Scene.started (Sample.config None false false false true))
               (fr_world (File "log" (Sample.config None false false false true)
                               (Sample.world_of Sample.fs_none
                                                [EnvWatchErr (watch_error "inotify")]))))
    = Ok tt s'
    /\ delivered s' = []
    /\ closed (Lines (tail s')) = true
    /\ tomb (tail s') = mkTomb (Some ErrFileCreationDetectionFailure) true true.
Proof.
  apply (@watcher_failure_ends_with_ErrFileCreationDetectionFailure
           "log" (Sample.config None false false false true)
           (Sample.world_of Sample.fs_none [EnvWatchErr (watch_error "inotify")])
           (Scene.started (Sample.config None false false false true))
           (watch_error "inotify") [] 1).
  - reflexivity.
  - reflexivity.
  - reflexivity.
  - reflexivity.
  - discriminate.
Defined.

Lemma Stop_before_the_file_exists_witness :
  exists s' : State,
    tailFileSync 1
      (mkState (Scene.started (Sample.config None false false false true))
               (fr_world (File "log" (Sample.config None false false false true)
                               (Sample.world_of Sample.fs_none [EnvStop]))))
    = Ok tt s'
    /\ delivered s' = []
    /\ closed (Lines (tail s')) = true
    /\ tomb (tail s') = mkTomb None true true.
Proof.
  apply (@Stop_before_the_file_exists
           "log" (Sample.config None false false false true)
           (Sample.world_of Sample.fs_none [EnvStop])
           (Scene.started (Sample.config None false false false true)) [] 1).
  - reflexivity.
  - reflexivity.
  - reflexivity.
  - reflexivity.
Defined.

Lemma unseekable_file_without_Pipe_ends_at_once_witness :
  exists s' : State,
    tailFileSync 1
      (mkState (Scene.started (Sample.config None false false false true))
               (fr_world (File "log" (Sample.config None false false false true)
                               (Sample.world_of (Sample.fs_fifo Sample.ab_nl) []))))
    = Ok tt s'
    /\ delivered s' = []
    /\ closed (Lines (tail s')) = true
    /\ tomb (tail s') = mkTomb (Some (PathError "seek" "log" ESPIPE)) true true.
Proof.
  apply (@unseekable_file_without_Pipe_ends_at_once
           "log" (Sample.config None false false false true)
           (Sample.world_of (Sample.fs_fifo Sample.ab_nl) [])
           (Scene.started (Sample.config None false false false true)) 7 0).
  - reflexivity.
  - reflexivity.
  - reflexivity.
  - reflexivity.
  - reflexivity.
Defined.

Lemma read_error_ends_the_tail_witness :
  exists s' : State,
    tailFileSync 1
      (mkState (Scene.started (Sample.config None false false false true))
               (fr_world (File "log" (Sample.config None false false false true)
                               (Sample.world_of (Scene.fs_faulty Sample.ab_nl) []))))
    = Ok tt s'
    /\ delivered s' = []
    /\ closed (Lines (tail s')) = true
    /\ tomb (tail s')
       = mkTomb (Some (Errorf ("Error reading " ++ "log" ++ ": "
                               ++ error_Error (PathError "read" "log" EIO))))
                true true.
Proof.
  apply (@read_error_ends_the_tail
           "log" (Sample.config None false false false true)
           (Sample.world_of (Scene.fs_faulty Sample.ab_nl) [])
           (Scene.started (Sample.config None false false false true)) 7 0 EIO).
  - reflexivity.
  - reflexivity.
  - reflexivity.
  - reflexivity.
  - reflexivity.
Defined.

Lemma seekEnd_skips_what_is_there_witness :
  exists s1 s2 s3 : State,
    seekEnd (Sample.reading (Sample.config None false true false true) Sample.ab_nl [])
    = Ok None s1
    /\ Tell s1
       = Ok (Z.of_nat
               (length
                  (i_data
                     (inode_of
                        (world (Sample.reading (Sample.config None false true false true)
                                               Sample.ab_nl []))
                        3))),
             None) s2
    /\ readLine s1 = Ok ([], Some io_EOF) s3
    /\ delivered s1
       = delivered (Sample.reading (Sample.config None false true false true)
                                   Sample.ab_nl []).
Proof.
  apply (@seekEnd_skips_what_is_there
           (Sample.reading (Sample.config None false true false true) Sample.ab_nl [])
           3 Sample.ab_nl).
  apply Sample_reading_at. unfold max_int64. cbn. lia.
Defined.
